(** * Imagy: the resilient image-search pipeline of [main.py]

    A shallow embedding of [ProxyManager] and [ImageSearchAPI]
    (src/main.py) and the properties its specification states about them.

    Conventions of the embedding.
    - Python [str] values are [string]s of ASCII characters; [lower],
      [upper], [strip] and [isdigit] are the ASCII restrictions of the
      Python methods of the same names.
    - Python [int]s are [Z]; list positions and lengths are [nat]; the
      numbers of a decoded JSON document are integers.
    - The mutable objects ([ProxyManager], the rate-limit counter) and the
      outside world (what the network will answer, request after request)
      live in one record, [World], threaded through a state-and-exception
      monad [M]; an exception leaves the mutations done so far in place,
      as in Python.  Calls run one after the other.
    - The steps the properties speak of (requests sent, values written to
      the counter, downloads of the proxy list, entries of the extractors)
      are recorded in the [trace] of the world.
    - Library calls whose result depends only on their argument ([int],
      pydantic's validation of a [str] field, [re.findall] with the Bing
      pattern) are the operations of the class [PyLib]; what a response
      decodes or parses to ([response.json()], [BeautifulSoup]) is part of
      the response. *)

From Stdlib Require Import ZArith String Ascii List Lia.
From stdpp Require Import base decidable option list gmap strings.

Set Warnings "-register-all".
Local Open Scope string_scope.
Local Open Scope list_scope.
Local Open Scope Z_scope.

(** ** Python string methods (ASCII) *)

Module Py.

(** [s.startswith(p)] *)
Fixpoint startswith (s p : string) {struct p} : bool :=
  match p with
  | EmptyString => true
  | String a p' =>
      match s with
      | EmptyString => false
      | String b s' => Ascii.eqb a b && startswith s' p'
      end
  end.

(** [needle in hay] *)
Fixpoint contains (needle hay : string) {struct hay} : bool :=
  match hay with
  | EmptyString => startswith hay needle
  | String _ hay' => startswith hay needle || contains needle hay'
  end.

(** truth value of a [str]: [bool(s)] *)
Definition nonempty (s : string) : bool :=
  match s with
  | EmptyString => false
  | String _ _ => true
  end.

Definition lower_ascii (a : ascii) : ascii :=
  let n := nat_of_ascii a in
  if ((65 <=? n) && (n <=? 90))%nat then ascii_of_nat (n + 32) else a.

Definition upper_ascii (a : ascii) : ascii :=
  let n := nat_of_ascii a in
  if ((97 <=? n) && (n <=? 122))%nat then ascii_of_nat (n - 32) else a.

Fixpoint map_string (f : ascii -> ascii) (s : string) : string :=
  match s with
  | EmptyString => EmptyString
  | String a s' => String (f a) (map_string f s')
  end.

(** [s.lower()] and [s.upper()] *)
Definition lower : string -> string := map_string lower_ascii.
Definition upper : string -> string := map_string upper_ascii.

Definition is_digit_ascii (a : ascii) : bool :=
  let n := nat_of_ascii a in ((48 <=? n) && (n <=? 57))%nat.

Fixpoint all_digits (s : string) : bool :=
  match s with
  | EmptyString => true
  | String a s' => is_digit_ascii a && all_digits s'
  end.

(** [s.isdigit()]: at least one character, all of them digits *)
Definition isdigit (s : string) : bool := nonempty s && all_digits s.

Fixpoint int_digits (acc : Z) (s : string) : Z :=
  match s with
  | EmptyString => acc
  | String a s' => int_digits (10 * acc + Z.of_nat (nat_of_ascii a - 48)) s'
  end.

(** [int(s)] for a string with [s.isdigit()] *)
Definition int_of_digits (s : string) : Z := int_digits 0 s.

(** the characters [str.strip()] removes: TAB, LF, VT, FF, CR, FS, GS,
    RS, US and the space *)
Definition is_space (a : ascii) : bool :=
  let n := nat_of_ascii a in
  (((9 <=? n) && (n <=? 13)) || ((28 <=? n) && (n <=? 32)))%nat.

Fixpoint lstrip (s : string) : string :=
  match s with
  | EmptyString => EmptyString
  | String a s' => if is_space a then lstrip s' else s
  end.

(** [s.strip()] *)
Definition strip (s : string) : string :=
  String.rev (lstrip (String.rev (lstrip s))).

Fixpoint split_go (sep : ascii) (cur : string) (s : string) : list string :=
  match s with
  | EmptyString => [String.rev cur]
  | String a s' =>
      if Ascii.eqb a sep then String.rev cur :: split_go sep EmptyString s'
      else split_go sep (String a cur) s'
  end.

(** [s.split('\n')] *)
Definition split_lines (s : string) : list string :=
  split_go (ascii_of_nat 10) EmptyString s.

Fixpoint drop_string (n : nat) (s : string) : string :=
  match n, s with
  | O, _ => s
  | S n', String _ s' => drop_string n' s'
  | S _, EmptyString => EmptyString
  end.

(** [s.replace(pat, by)] for a non-empty [pat]: occurrences are replaced
    from left to right and do not overlap; [skip] counts the characters
    of the current occurrence still to drop. *)
Fixpoint replace_go (pat by_ : string) (skip : nat) (s : string) : string :=
  match s with
  | EmptyString => EmptyString
  | String a s' =>
      match skip with
      | S k => replace_go pat by_ k s'
      | O =>
          if startswith s pat
          then by_ +:+ replace_go pat by_ (String.length pat - 1) s'
          else String a (replace_go pat by_ O s')
      end
  end.

Definition replace (pat by_ s : string) : string := replace_go pat by_ O s.

Fixpoint digits_of_pos_go (fuel : nat) (n : N) (acc : string) : string :=
  match fuel with
  | O => acc
  | S fuel' =>
      let acc' := String (ascii_of_N (48 + N.modulo n 10)) acc in
      if (N.div n 10 =? 0)%N then acc'
      else digits_of_pos_go fuel' (N.div n 10) acc'
  end.

(** [str(n)] for an [int] *)
Definition str_of_int (z : Z) : string :=
  let n := Z.to_N (Z.abs z) in
  let d := digits_of_pos_go (S (N.to_nat (N.log2 n))) n EmptyString in
  if (z <? 0)%Z then String "-"%char d else d.

(** [l[:stop]] *)
Definition slice_to {A} (stop : Z) (l : list A) : list A :=
  if 0 <=? stop then take (Z.to_nat stop) l
  else take (length l - Z.to_nat (- stop)) l.

End Py.

(** ** Data model *)

(** A decoded JSON document, as [response.json()] returns it.  Numbers are
    integers; a [dict] is listed as its items, looked up by key. *)
Inductive JValue :=
| JNull
| JBool (b : bool)
| JNum (z : Z)
| JStr (s : string)
| JArr (items : list JValue)
| JObj (fields : list (string * JValue)).

(** [class ImageResult(BaseModel)] *)
Record ImageResult := mkImageResult {
  title : string;
  image : string;
  thumbnail : string;
  url : string;
  height : Z;
  width : Z;
  source : string
}.

(** An [<img>] element found by [soup.find_all('img', src=True)]: the
    [src] attribute is present, the others may be missing. *)
Record ImgTag := mkImgTag {
  img_src : string;
  img_width : option string;
  img_height : option string;
  img_alt : option string
}.

(** The parsed page: [script.string] of every [<script>] element
    ([None] when the element has no single text child) and the [<img>]
    elements that carry [src], both in document order. *)
Record Soup := mkSoup {
  script_tags : list (option string);
  img_tags : list ImgTag
}.

(** A [requests.Response] as the code looks at it. [json_body] is what
    [response.json()] returns and [soup] what
    [BeautifulSoup(response.content, 'html.parser')] returns; [None]
    stands for the call raising. *)
Record Response := mkResponse {
  status_code : Z;
  reason : string;
  resp_url : string;
  json_body : option JValue;
  soup : option Soup
}.

(** Exceptions, by the classes the handlers of [main.py] tell apart:
    [requests.exceptions.ProxyError], any other
    [requests.exceptions.RequestException] ([HTTPError] included), the
    [IndexError] of a list subscript, and any other [Exception].  The
    string is [str(e)]. *)
Inductive Exn :=
| ProxyError (msg : string)
| RequestException (msg : string)
| IndexError
| OtherException (msg : string).

(** What one call of [session.get]/[post]/[request] does. *)
Inductive NetOutcome :=
| Answers (r : Response)
| Fails (e : Exn).

(** What one download of the proxy list does: [requests.get] raises, or
    answers with a status and a text; [draws] are the random numbers
    [random.shuffle] then consumes. *)
Inductive FeedOutcome :=
| FeedFails
| FeedAnswers (status : Z) (text : string) (draws : list nat).

Inductive Verb := SessionGet | SessionPost | SessionRequest.

(** Observable steps, most recent first in [trace]:
    - [EvLoadProxies f]: [load_proxies] runs, the failed set being [f];
    - [EvGetProxy c]: [_make_request] calls [get_proxy], the counter
      being [c];
    - [EvSend v u p c]: [_make_request] sends a request to [u] through
      the session method [v], with [kwargs.get('proxies')] being [p] and
      the counter being [c];
    - [EvCounter c]: [c] is assigned to [self.rate_limit_count];
    - [EvSleep lo hi]: [time.sleep] of between [lo] and [hi]
      milliseconds;
    - [EvPrimary], [EvFallback]: [search_duckduckgo_images] and
      [search_bing_images] are entered. *)
Inductive Event :=
| EvLoadProxies (failed_at_fetch : gset string)
| EvGetProxy (count_at_call : Z)
| EvSend (verb : Verb) (target : string) (proxies_kwarg : option string)
         (count_at_send : Z)
| EvCounter (new_value : Z)
| EvSleep (at_least_ms at_most_ms : Z)
| EvPrimary
| EvFallback.

Record World := mkWorld {
  (* ProxyManager *)
  proxies : list string;
  current_proxy_index : nat;
  failed_proxies : gset string;
  (* ImageSearchAPI *)
  rate_limit_count : Z;
  (* the outside: answers still to come, and what happened so far *)
  upstream : list NetOutcome;
  proxy_source : list FeedOutcome;
  trace : list Event
}.

(** Library functions of one argument. *)
Class PyLib := {
  (** [int(v)] on a decoded JSON value; [None] when it raises *)
  py_int : JValue -> option Z;
  (** pydantic's validation of a [str] field; [None] when it raises *)
  pydantic_str : JValue -> option string;
  (** [re.findall(pattern, s)] with the pattern of [search_bing_images],
      whose three groups are the murl, turl and t values *)
  re_findall_murl : string -> list (string * string * string)
}.

(** ** The monad: state and exceptions *)

Inductive Res (A : Type) :=
| Ret (a : A)
| Raise (e : Exn).
Arguments Ret {A} a.
Arguments Raise {A} e.

Definition M (A : Type) : Type := World -> Res A * World.

Definition ret {A} (a : A) : M A := fun w => (Ret a, w).
Definition raise {A} (e : Exn) : M A := fun w => (Raise e, w).
Definition bind {A B} (m : M A) (k : A -> M B) : M B :=
  fun w => match m w with
           | (Ret a, w') => k a w'
           | (Raise e, w') => (Raise e, w')
           end.
(** [try: m  except <classes>: h] where [h e] is [None] for an exception
    no [except] clause matches *)
Definition try_except {A} (m : M A) (h : Exn -> option (M A)) : M A :=
  fun w => match m w with
           | (Ret a, w') => (Ret a, w')
           | (Raise e, w') =>
               match h e with
               | Some k => k w'
               | None => (Raise e, w')
               end
           end.

Notation "x <- m ;; k" := (bind m (fun x => k))
  (at level 100, m at next level, k at level 200, right associativity).
Notation "m ;;; k" := (bind m (fun _ => k))
  (at level 100, k at level 200, right associativity).

Definition get_world : M World := fun w => (Ret w, w).
Definition modify (f : World -> World) : M unit := fun w => (Ret tt, f w).
Definition when (b : bool) (m : M unit) : M unit := if b then m else ret tt.

Definition log (e : Event) : M unit :=
  modify (fun w => mkWorld (proxies w) (current_proxy_index w) (failed_proxies w)
                           (rate_limit_count w) (upstream w) (proxy_source w)
                           (e :: trace w)).
Definition set_proxies (l : list string) : M unit :=
  modify (fun w => mkWorld l (current_proxy_index w) (failed_proxies w)
                           (rate_limit_count w) (upstream w) (proxy_source w)
                           (trace w)).
Definition set_current_proxy_index (i : nat) : M unit :=
  modify (fun w => mkWorld (proxies w) i (failed_proxies w)
                           (rate_limit_count w) (upstream w) (proxy_source w)
                           (trace w)).
Definition set_failed_proxies (s : gset string) : M unit :=
  modify (fun w => mkWorld (proxies w) (current_proxy_index w) s
                           (rate_limit_count w) (upstream w) (proxy_source w)
                           (trace w)).
(** every assignment to [self.rate_limit_count] is logged *)
Definition set_rate_limit_count (c : Z) : M unit :=
  modify (fun w => mkWorld (proxies w) (current_proxy_index w) (failed_proxies w)
                           c (upstream w) (proxy_source w)
                           (EvCounter c :: trace w)).
Definition sleep (lo hi : Z) : M unit := log (EvSleep lo hi).

(** the next download of the proxy list; the source is unreachable once
    the script is used up *)
Definition next_feed : M FeedOutcome :=
  fun w => match proxy_source w with
           | [] => (Ret FeedFails, w)
           | o :: rest =>
               (Ret o, mkWorld (proxies w) (current_proxy_index w) (failed_proxies w)
                               (rate_limit_count w) (upstream w) rest (trace w))
           end.

(** the next request of the session; the network is down once the script
    is used up *)
Definition next_answer : M NetOutcome :=
  fun w => match upstream w with
           | [] => (Ret (Fails (RequestException "")), w)
           | o :: rest =>
               (Ret o, mkWorld (proxies w) (current_proxy_index w) (failed_proxies w)
                               (rate_limit_count w) rest (proxy_source w) (trace w))
           end.

(** ** ProxyManager *)

(** [response.raise_for_status()] raises for these statuses *)
Definition is_http_error (status : Z) : bool :=
  (400 <=? status) && (status <? 600).

(** [x[i], x[j] = x[j], x[i]] *)
Definition swap (i j : nat) (x : list string) : list string :=
  match x !! i, x !! j with
  | Some a, Some b => <[i := b]> (<[j := a]> x)
  | _, _ => x
  end.

(** [random.shuffle(x)]: for [i] from [len(x) - 1] down to [1], swap
    [x[i]] with [x[j]] for a random [j <= i]; the draws come from the
    world, reduced modulo [i + 1]. *)
Fixpoint shuffle_from (i : nat) (draws : list nat) (x : list string) : list string :=
  match i with
  | O => x
  | S i' => shuffle_from i' (tail draws) (swap i (hd O draws mod (i + 1))%nat x)
  end.

Definition shuffle (draws : list nat) (x : list string) : list string :=
  shuffle_from (length x - 1) draws x.

(** lines 71-77: the lines of the answer that are proxies *)
Definition proxy_lines (text : string) : list string :=
  List.filter (fun line => Py.nonempty line && Py.startswith line "http://")
              (map Py.strip (Py.split_lines (Py.strip text))).

(** [ProxyManager.load_proxies]; the failed set it runs under is logged *)
Definition load_proxies : M unit :=
  w <- get_world ;;
  log (EvLoadProxies (failed_proxies w)) ;;;
  o <- next_feed ;;
  match o with
  | FeedAnswers status text draws =>
      if is_http_error status then set_proxies []
      else set_proxies (shuffle draws (proxy_lines text))
  | FeedFails => set_proxies []
  end.

(** [len(self.failed_proxies) > len(self.proxies) * 0.8].  The product is
    a double; for a list of fewer than 2^50 entries it is the exact
    four-fifths when that is an integer and strictly between the same two
    integers as the exact four-fifths otherwise, so the comparison with an
    integer is that of [5 * failed] with [4 * proxies]. *)
Definition too_many_failed (w : World) : bool :=
  (4 * length (proxies w) <? 5 * size (failed_proxies w))%nat.

(** the [while attempts < len(self.proxies)] loop of [get_proxy], with [n]
    iterations to go: [Some proxy] when the loop returns [proxy], [None]
    when it runs out *)
Fixpoint scan_proxies (n : nat) : M (option string) :=
  match n with
  | O => ret None
  | S n' =>
      w <- get_world ;;
      match proxies w !! current_proxy_index w with
      | None => raise IndexError
      | Some proxy =>
          if bool_decide (proxy ∈ failed_proxies w)
          then set_current_proxy_index
                 ((current_proxy_index w + 1) mod length (proxies w))%nat ;;;
               scan_proxies n'
          else ret (Some proxy)
      end
  end.

(** [ProxyManager.get_proxy] *)
Definition get_proxy : M (option string) :=
  w <- get_world ;;
  match proxies w with
  | [] => ret None
  | _ :: _ =>
      when (too_many_failed w) (set_failed_proxies ∅ ;;; load_proxies) ;;;
      w1 <- get_world ;;
      found <- scan_proxies (length (proxies w1)) ;;
      match found with
      | Some proxy => ret (Some proxy)
      | None =>
          set_failed_proxies ∅ ;;;
          load_proxies ;;;
          w2 <- get_world ;;
          ret (head (proxies w2))
      end
  end.

(** truth value of [current_proxy], a [str] or [None] *)
Definition proxy_truthy (proxy : option string) : bool :=
  match proxy with
  | Some s => Py.nonempty s
  | None => false
  end.

(** [ProxyManager.mark_proxy_failed] *)
Definition mark_proxy_failed (proxy : option string) : M unit :=
  match proxy with
  | Some s =>
      if Py.nonempty s
      then w <- get_world ;; set_failed_proxies ({[ s ]} ∪ failed_proxies w)
      else ret tt
  | None => ret tt
  end.

(** [ProxyManager.rotate_proxy] *)
Definition rotate_proxy : M unit :=
  w <- get_world ;;
  match proxies w with
  | [] => ret tt
  | _ :: _ =>
      set_current_proxy_index
        ((current_proxy_index w + 1) mod length (proxies w))%nat
  end.

(** [ProxyManager.__init__] followed by the rest of
    [ImageSearchAPI.__init__]: the state a process starts in, given what
    the outside will answer *)
Definition initial_world (net : list NetOutcome) (feed : list FeedOutcome) : World :=
  snd (load_proxies (mkWorld [] O ∅ 0 net feed [])).

(** ** ImageSearchAPI._make_request *)

(** the message of the [HTTPError] that [raise_for_status] raises *)
Definition http_error_message (r : Response) : string :=
  Py.str_of_int (status_code r)
  +:+ (if status_code r <? 500 then " Client Error: " else " Server Error: ")
  +:+ reason r +:+ " for url: " +:+ resp_url r.

(** [response.raise_for_status()] *)
Definition raise_for_status (r : Response) : M unit :=
  if is_http_error (status_code r)
  then raise (RequestException (http_error_message r))
  else ret tt.

Definition max_retries : Z := 3.

(** [range(n)] *)
Definition range (n : Z) : list Z := map Z.of_nat (seq 0 (Z.to_nat n)).

(** which session method [method.upper()] selects *)
Definition verb_of (method : string) : Verb :=
  if String.eqb (Py.upper method) "GET" then SessionGet
  else if String.eqb (Py.upper method) "POST" then SessionPost
  else SessionRequest.

(** [response.status_code in [429, 403, 503]] *)
Definition is_rate_limited (status : Z) : bool :=
  (status =? 429) || (status =? 403) || (status =? 503).

(** how one iteration of the retry loop ends when it does not raise *)
Inductive Step :=
| Return (r : Response)
| Continue.

(** Lines 148-155.  [current_proxy] and [kwargs['proxies']] are the two
    locals the loop carries from one attempt to the next. *)
Definition choose_proxy (current_proxy kwargs_proxies : option string)
  : M (option string * option string) :=
  w <- get_world ;;
  if 2 <? rate_limit_count w then
    log (EvGetProxy (rate_limit_count w)) ;;;
    p <- get_proxy ;;
    if proxy_truthy p then ret (p, p) else ret (p, kwargs_proxies)
  else ret (current_proxy, kwargs_proxies).

(** Lines 157-183: the request and what follows it inside the [try]. *)
Definition send_and_check (verb : Verb) (target : string) (attempt : Z)
    (current_proxy kwargs_proxies : option string) : M Step :=
  w <- get_world ;;
  log (EvSend verb target kwargs_proxies (rate_limit_count w)) ;;;
  o <- next_answer ;;
  match o with
  | Fails e => raise e
  | Answers response =>
      let after_check : M Step :=
        w1 <- get_world ;;
        when (status_code response =? 200)
             (set_rate_limit_count (Z.max 0 (rate_limit_count w1 - 1))) ;;;
        raise_for_status response ;;;
        ret (Return response) in
      if is_rate_limited (status_code response) then
        w1 <- get_world ;;
        set_rate_limit_count (rate_limit_count w1 + 1) ;;;
        when (proxy_truthy current_proxy) (mark_proxy_failed current_proxy) ;;;
        if attempt <? max_retries - 1
        then rotate_proxy ;;; sleep 2000 5000 ;;; ret Continue
        else after_check
      else after_check
  end.

(** Lines 185-210: the two [except] clauses; an exception of any other
    class is not handled. *)
Definition on_exception (attempt : Z) (current_proxy : option string) (e : Exn)
  : option (M Step) :=
  match e with
  | ProxyError _ =>
      Some (when (proxy_truthy current_proxy) (mark_proxy_failed current_proxy) ;;;
            rotate_proxy ;;;
            if attempt <? max_retries - 1
            then sleep 1000 1000 ;;; ret Continue
            else raise e)
  | RequestException msg =>
      let give_up_or_retry : M Step :=
        if attempt <? max_retries - 1
        then sleep 1000 1000 ;;; ret Continue
        else raise e in
      Some (if Py.contains "429" msg || Py.contains "rate limit" (Py.lower msg)
            then
              w <- get_world ;;
              set_rate_limit_count (rate_limit_count w + 1) ;;;
              when (proxy_truthy current_proxy) (mark_proxy_failed current_proxy) ;;;
              if attempt <? max_retries - 1
              then rotate_proxy ;;; sleep 3000 7000 ;;; ret Continue
              else give_up_or_retry
            else give_up_or_retry)
  | IndexError | OtherException _ => None
  end.

(** One iteration of [for attempt in range(max_retries)].  The proxy
    check stands before the [try_except]: the only exception it can raise
    is the [IndexError] of [get_proxy], which neither clause handles, and
    the clauses read [current_proxy] as the check left it. *)
Definition attempt_once (verb : Verb) (target : string) (attempt : Z)
    (current_proxy kwargs_proxies : option string)
  : M (Step * (option string * option string)) :=
  locals <- choose_proxy current_proxy kwargs_proxies ;;
  step <- try_except (send_and_check verb target attempt (fst locals) (snd locals))
                     (on_exception attempt (fst locals)) ;;
  ret (step, locals).

Fixpoint make_request_from (attempts : list Z) (verb : Verb) (target : string)
    (current_proxy kwargs_proxies : option string) : M Response :=
  match attempts with
  | [] => raise (OtherException "Failed to make request after 3 attempts")
  | attempt :: rest =>
      r <- attempt_once verb target attempt current_proxy kwargs_proxies ;;
      match fst r with
      | Return response => ret response
      | Continue => make_request_from rest verb target (fst (snd r)) (snd (snd r))
      end
  end.

(** [ImageSearchAPI._make_request(method, url, **kwargs)];
    [kwargs_proxies] is the caller's [kwargs.get('proxies')] *)
Definition _make_request (method target : string) (kwargs_proxies : option string)
  : M Response :=
  make_request_from (range max_retries) (verb_of method) target None kwargs_proxies.

(** ** URL normalisation *)

(** [ImageSearchAPI._normalize_url] *)
Definition _normalize_url (u : string) : string :=
  if negb (Py.nonempty u) then ""
  else if Py.startswith u "//" then "https:" +:+ u
  else if negb (Py.startswith u "http://" || Py.startswith u "https://")
       then "https://" +:+ u
  else u.

(** ** Values decoded from JSON, as Python treats them *)

(** [bool(v)] *)
Definition truthy (v : JValue) : bool :=
  match v with
  | JNull => false
  | JBool b => b
  | JNum z => negb (z =? 0)
  | JStr s => Py.nonempty s
  | JArr items => match items with [] => false | _ :: _ => true end
  | JObj fields => match fields with [] => false | _ :: _ => true end
  end.

(** [d.get(key, default)] *)
Fixpoint dict_get (fields : list (string * JValue)) (key : string) (default : JValue)
  : JValue :=
  match fields with
  | [] => default
  | (k, v) :: rest => if String.eqb k key then v else dict_get rest key default
  end.

(** The member of a [set] a hashable value stands for: [None], a string
    or a number ([True] and [False] are the numbers 1 and 0); lists and
    dicts are unhashable. *)
Abbreviation Key := (option (string + Z)).

Definition hash_key (v : JValue) : option Key :=
  match v with
  | JNull => Some None
  | JBool b => Some (Some (inr (if b then 1 else 0)))
  | JNum z => Some (Some (inr z))
  | JStr s => Some (Some (inl s))
  | JArr _ | JObj _ => None
  end.

(** [self._normalize_url(v)] on a decoded value: a false value gives the
    empty string, a non-empty string is normalised, and anything else has
    no [startswith] ([None]: the call raises). *)
Definition normalize_value (v : JValue) : option string :=
  if truthy v then
    match v with
    | JStr s => Some (_normalize_url s)
    | _ => None
    end
  else Some "".

(** ** ImageSearchAPI._get_vqd *)

(** The token only enters the parameters of the next requests, and what
    the outside answers is scripted by [upstream] whatever the parameters
    are; the embedding keeps the request and the catch-all handler. *)
Definition _get_vqd (keywords : string) : M unit :=
  try_except (_make_request "GET" "https://duckduckgo.com" None ;;; ret tt)
             (fun _ => Some (ret tt)).

(** ** ImageSearchAPI.search_duckduckgo_images *)

Section Extractors.
Context `{PyLib}.

(** Lines 308-316: the [ImageResult] of a row; [None] when building it
    raises. *)
Definition ddg_result (fields : list (string * JValue)) (image_url : JValue)
  : option ImageResult :=
  img ← normalize_value image_url;
  thumb ← normalize_value (dict_get fields "thumbnail" (JStr ""));
  page ← normalize_value (dict_get fields "url" (JStr ""));
  h ← py_int (dict_get fields "height" (JNum 0));
  w ← py_int (dict_get fields "width" (JNum 0));
  t ← pydantic_str (dict_get fields "title" (JStr ""));
  s ← pydantic_str (dict_get fields "source" (JStr "DuckDuckGo"));
  Some (mkImageResult t img thumb page h w s).

(** how the loop over the rows of a page ends *)
Inductive RowsEnd := RowsDone | RowsRaised.

(** Lines 301-317: [for row in page_data].  [results] and [cache] are the
    two objects the loop mutates; they keep what was done when a row
    raises. *)
Fixpoint ddg_rows (max_results : Z) (rows : list JValue)
    (results : list ImageResult) (cache : gset Key)
  : RowsEnd * (list ImageResult * gset Key) :=
  match rows with
  | [] => (RowsDone, (results, cache))
  | row :: rest =>
      if Z.of_nat (length results) >=? max_results then (RowsDone, (results, cache))
      else
        match row with
        | JObj fields =>
            let image_url := dict_get fields "image" JNull in
            if truthy image_url then
              match hash_key image_url with
              | None => (RowsRaised, (results, cache))
              | Some k =>
                  if bool_decide (k ∈ cache) then ddg_rows max_results rest results cache
                  else
                    match ddg_result fields image_url with
                    | Some result =>
                        ddg_rows max_results rest (results ++ [result]) ({[ k ]} ∪ cache)
                    | None => (RowsRaised, (results, {[ k ]} ∪ cache))
                    end
              end
            else ddg_rows max_results rest results cache
        | _ => (RowsRaised, (results, cache))
        end
  end.

(** what [for row in v] iterates over; [None] when [v] is not iterable *)
Definition iterate (v : JValue) : option (list JValue) :=
  match v with
  | JArr items => Some items
  | JStr s => Some (map (fun a => JStr (String a EmptyString)) (list_ascii_of_string s))
  | JObj fields => Some (map (fun kv => JStr (fst kv)) fields)
  | JNull | JBool _ | JNum _ => None
  end.

(** Lines 298-299 and the start of the loop: the rows of an answer;
    [None] when [response.json()], [data.get] or the iteration raises. *)
Definition page_rows (response : Response) : option (list JValue) :=
  match json_body response with
  | Some (JObj fields) => iterate (dict_get fields "results" (JArr []))
  | _ => None
  end.

(** Lines 289-323: one page, inside its own [try].  Whatever raises, the
    handler of line 321 goes on with [results] and [cache] as they are. *)
Definition ddg_page (max_results : Z) (results : list ImageResult) (cache : gset Key)
  : M (list ImageResult * gset Key) :=
  try_except
    (response <- _make_request "GET" "https://duckduckgo.com/i.js" None ;;
     match page_rows response with
     | None => raise (OtherException "page")
     | Some rows =>
         match ddg_rows max_results rows results cache with
         | (RowsDone, st) => sleep 500 500 ;;; ret st
         | (RowsRaised, st) => ret st
         end
     end)
    (fun _ => Some (ret (results, cache))).

(** Lines 285-323: [for page in [0, 100]] *)
Fixpoint ddg_pages (max_results : Z) (pages : list Z)
    (results : list ImageResult) (cache : gset Key)
  : M (list ImageResult * gset Key) :=
  match pages with
  | [] => ret (results, cache)
  | _ :: rest =>
      if Z.of_nat (length results) >=? max_results then ret (results, cache)
      else
        st <- ddg_page max_results results cache ;;
        ddg_pages max_results rest (fst st) (snd st)
  end.

Definition search_duckduckgo_images (keywords : string) (max_results : Z)
  : M (list ImageResult) :=
  try_except
    (log EvPrimary ;;;
     _get_vqd keywords ;;;
     st <- ddg_pages max_results [0; 100] [] ∅ ;;
     ret (fst st))
    (fun _ => Some (ret [])).

(** ** ImageSearchAPI.search_bing_images *)

Definition search_url : string := "https://www.bing.com/images/search".

(** Lines 376-393: [for match in matches[:max_results]] *)
Fixpoint bing_matches (keywords : string) (max_results : Z)
    (matches : list (string * string * string)) (results : list ImageResult)
  : list ImageResult :=
  match matches with
  | [] => results
  | (murl, turl, t) :: rest =>
      if Z.of_nat (length results) >=? max_results then results
      else
        let image_url := Py.replace "\u0026" "&" murl in
        let thumbnail_url := Py.replace "\u0026" "&" turl in
        let title := if Py.nonempty t then t else keywords +:+ " image" in
        bing_matches keywords max_results rest
          (results ++ [mkImageResult title (_normalize_url image_url)
                                     (_normalize_url thumbnail_url)
                                     search_url 0 0 "Bing"])
  end.

(** Lines 366-400: [for script in script_tags]; nothing in the body of
    the inner [try] raises. *)
Fixpoint bing_scripts (keywords : string) (max_results : Z)
    (scripts : list (option string)) (results : list ImageResult)
  : list ImageResult :=
  match scripts with
  | [] => results
  | script :: rest =>
      match script with
      | Some content =>
          if Py.nonempty content && Py.contains "mediaurl" (Py.lower content) then
            let results' :=
              bing_matches keywords max_results
                (Py.slice_to max_results (re_findall_murl content)) results in
            match results' with
            | [] => bing_scripts keywords max_results rest results'
            | _ :: _ => results'
            end
          else bing_scripts keywords max_results rest results
      | None => bing_scripts keywords max_results rest results
      end
  end.

Definition blacklist : list string := ["icon"; "logo"; "button"; "pixel"; "blank"].

(** [img.get('width', '0')] and [img.get('height', '0')] *)
Definition declared_width (img : ImgTag) : string := default "0" (img_width img).
Definition declared_height (img : ImgTag) : string := default "0" (img_height img).

(** Lines 411-424: does the loop skip this element? *)
Definition skipped (img : ImgTag) : bool :=
  let src := img_src img in
  if negb (Py.nonempty src) || Py.startswith src "data:" then true
  else if existsb (fun x => Py.contains x (Py.lower src)) blacklist then true
  else
    let width := declared_width img in
    let height := declared_height img in
    if Py.isdigit width && Py.isdigit height
    then (Py.int_of_digits width <? 100) || (Py.int_of_digits height <? 100)
    else false.

(** Lines 426-436: the result built from an element that is not skipped *)
Definition img_result (keywords : string) (img : ImgTag) : ImageResult :=
  let width := declared_width img in
  let height := declared_height img in
  mkImageResult (default (keywords +:+ " image") (img_alt img))
                (_normalize_url (img_src img))
                (_normalize_url (img_src img))
                search_url
                (if Py.isdigit height then Py.int_of_digits height else 0)
                (if Py.isdigit width then Py.int_of_digits width else 0)
                "Bing (fallback)".

(** Lines 407-437: [for img in img_tags[:max_results * 2]], given the
    slice.  [examined] counts the elements the body of the loop ran on. *)
Fixpoint bing_imgs (keywords : string) (max_results : Z) (imgs : list ImgTag)
    (results : list ImageResult) (examined : nat) : list ImageResult * nat :=
  match imgs with
  | [] => (results, examined)
  | img :: rest =>
      if Z.of_nat (length results) >=? max_results then (results, examined)
      else if skipped img
           then bing_imgs keywords max_results rest results (S examined)
           else bing_imgs keywords max_results rest
                          (results ++ [img_result keywords img]) (S examined)
  end.

(** Method 2 as a whole *)
Definition bing_method2 (keywords : string) (max_results : Z) (page : Soup)
  : list ImageResult * nat :=
  bing_imgs keywords max_results (Py.slice_to (max_results * 2) (img_tags page)) [] O.

Definition search_bing_images (keywords : string) (max_results : Z)
  : M (list ImageResult) :=
  try_except
    (log EvFallback ;;;
     response <- _make_request "GET" search_url None ;;
     match soup response with
     | None => raise (OtherException "soup")
     | Some page =>
         let results := bing_scripts keywords max_results (script_tags page) [] in
         match results with
         | [] => ret (fst (bing_method2 keywords max_results page))
         | _ :: _ => ret results
         end
     end)
    (fun _ => Some (ret [])).

(** ** ImageSearchAPI.search_images *)

Definition search_images (keywords : string) (max_results : Z)
  : M (list ImageResult * string) :=
  results <- search_duckduckgo_images keywords max_results ;;
  match results with
  | _ :: _ => ret (results, "DuckDuckGo")
  | [] =>
      results <- search_bing_images keywords max_results ;;
      match results with
      | _ :: _ => ret (results, "Bing")
      | [] => ret ([], "None")
      end
  end.

End Extractors.

(** ** ImageSearchAPI._extract_vqd *)








(** [hashlib.md5(data).hexdigest()], by its result *)
Class Hashlib := {
  md5_hexdigest : string -> string
}.

Section ExtractVqd.
Context {hashlib : Hashlib}.




End ExtractVqd.

(** ** ImageSearchAPI.fetch_image_from_url *)

(** [str(e)] *)
Definition str_of_exn (e : Exn) : string :=
  match e with
  | ProxyError msg | RequestException msg | OtherException msg => msg
  | IndexError => "list index out of range"
  end.

(** What the routes read of a response and of a URL, and the base64
    encoding: library operations, given by their results. *)
Class WebLib := {
  (** [response.headers.get('content-type')]: [None] when the response
      has no such header *)
  header_content_type : Response -> option string;
  (** [response.content]: the bytes of the body, or the exception that
      reading them raises *)
  response_content : Response -> Res string;
  (** [base64.b64encode(data).decode('utf-8')] *)
  b64encode : string -> string;
  (** [urlparse(u).path], or the [ValueError] that [urlparse] raises *)
  urlparse_path : string -> Res string
}.

Section Fetch.
Context {web : WebLib}.

(** [ImageSearchAPI.fetch_image_from_url]: the pair of the data and the
    error, each [None] or a value *)
Definition fetch_image_from_url (image_url : string)
  : M (option string * option string) :=
  try_except
    (response <- _make_request "GET" image_url None ;;
     let content_type := default "" (header_content_type response) in
     if negb (Py.startswith content_type "image/")
     then ret (None, Some ("URL does not point to an image. Content-Type: "
                           +:+ content_type))
     else
       match response_content response with
       | Ret data => ret (Some data, None)
       | Raise e => raise e
       end)
    (fun e => Some (ret (None, Some (str_of_exn e)))).

End Fetch.

(** ** Python built-ins and [os.path] (POSIX) *)

(** truth value of a [str] or [None] *)
Definition truthy_str (s : option string) : bool :=
  match s with
  | Some s => Py.nonempty s
  | None => false
  end.

(** [l[i]] for an [int] [i]: a negative index counts from the end;
    [None] when it raises [IndexError] *)
Definition list_getitem {A} (l : list A) (i : Z) : option A :=
  if 0 <=? i then l !! Z.to_nat i
  else if 0 <=? Z.of_nat (length l) + i then l !! Z.to_nat (Z.of_nat (length l) + i)
  else None.

(** [s.endswith(suffix)] *)
Definition str_endswith (s suffix : string) : bool :=
  Py.startswith (String.rev s) (String.rev suffix).

Module OsPath.

(** the characters of [s] before its first [/] *)
Fixpoint before_slash (s : string) : string :=
  match s with
  | EmptyString => EmptyString
  | String a s' => if Ascii.eqb a "/" then EmptyString else String a (before_slash s')
  end.

(** [os.path.basename(p)]: what follows the last [/] *)
Definition basename (p : string) : string :=
  String.rev (before_slash (String.rev p)).

(** the characters of [s] up to and with its first dot, when it has one *)
Fixpoint through_dot (s : string) : option string :=
  match s with
  | EmptyString => None
  | String a s' =>
      if Ascii.eqb a "." then Some (String a EmptyString)
      else option_map (String a) (through_dot s')
  end.

Fixpoint all_dots (s : string) : bool :=
  match s with
  | EmptyString => true
  | String a s' => Ascii.eqb a "." && all_dots s'
  end.

(** [os.path.splitext(p)[1]]: the last component of the path from its
    last dot on, unless nothing but dots comes before that dot *)
Definition splitext_ext (p : string) : string :=
  let reversed_name := String.rev (basename p) in
  match through_dot reversed_name with
  | None => ""
  | Some reversed_ext =>
      let reversed_stem := Py.drop_string (String.length reversed_ext) reversed_name in
      if all_dots reversed_stem then "" else String.rev reversed_ext
  end.

End OsPath.

(** ** The routes *)

Module Routes.

(** [class SearchImagesResponse(BaseModel)] *)
Record SearchImagesResponse := mkSearchImagesResponse {
  keyword : string;
  total_results : Z;
  results : list ImageResult;
  search_engine : string
}.

(** [class HealthResponse(BaseModel)] *)
Record HealthResponse := mkHealthResponse {
  status : string;
  message : string
}.

(** what the two image routes return: an [ImageResponse] model, or a
    [StreamingResponse] given by its body, media type and headers *)
Inductive ImageReply :=
| ImageResponse (image_data : string) (size : Z) (source_url : string)
                (image_url : option string)
| StreamingResponse (body : string) (media_type : string)
                    (headers : list (string * string)).

(** how a route ends when no other exception leaves it: it returns, or
    raises [HTTPException(status_code, detail)] *)
Inductive Outcome (A : Type) :=
| Returns (a : A)
| HTTPException (http_status : Z) (detail : string).
Arguments Returns {A} a.
Arguments HTTPException {A} http_status detail.

(** the media type the image routes choose from the URL of the image *)
Definition media_type_of (filename : string) : string :=
  if str_endswith filename ".png" then "image/png"
  else if str_endswith filename ".gif" then "image/gif"
  else if str_endswith filename ".webp" then "image/webp"
  else "image/jpeg".

Section WithLibraries.
Context {lib : PyLib} {web : WebLib}.

(** lines 550-582: the reply of [/search-and-fetch] once the image is
    fetched; it raises when [b64encode] is given [None] or [urlparse]
    refuses the URL *)
Definition reply_found (keyword format : string) (index : Z) (search_engine : string)
    (selected_result : ImageResult) (image_data : option string) : M ImageReply :=
  let image_url := image selected_result in
  if String.eqb (Py.lower format) "base64" then
    match image_data with
    | None => raise (OtherException "a bytes-like object is required, not 'NoneType'")
    | Some data =>
        ret (ImageResponse (b64encode data) (Z.of_nat (String.length data))
                           ("search:" +:+ keyword) (Some image_url))
    end
  else
    match urlparse_path image_url with
    | Raise e => raise e
    | Ret path =>
        let filename := Py.lower (OsPath.basename path) in
        ret (StreamingResponse
               (default "" image_data)
               (media_type_of filename)
               [("Content-Disposition",
                 "inline; filename=" +:+ Py.replace " " "_" keyword +:+ "_image_"
                 +:+ Py.str_of_int index +:+ ".jpg");
                ("X-Search-Keyword", keyword);
                ("X-Image-URL", image_url);
                ("X-Search-Engine", search_engine);
                ("X-Image-Title", title selected_result)])
    end.

(** [GET /search-and-fetch]; FastAPI has checked [0 <= index] *)
Definition search_and_fetch_image (keyword format : string) (index : Z)
  : M (Outcome ImageReply) :=
  try_except
    (found <- search_images keyword (index + 5) ;;
     let results := fst found in
     let search_engine := snd found in
     match results with
     | [] => ret (HTTPException 404 ("No images found for keyword: " +:+ keyword))
     | _ :: _ =>
         if index >=? Z.of_nat (length results)
         then ret (HTTPException 404
                     ("Image index " +:+ Py.str_of_int index +:+ " not found. Only "
                      +:+ Py.str_of_int (Z.of_nat (length results))
                      +:+ " results available."))
         else
           match list_getitem results index with
           | None => raise IndexError
           | Some selected_result =>
               fetched <- fetch_image_from_url (image selected_result) ;;
               if truthy_str (snd fetched)
               then ret (HTTPException 400
                           ("Failed to fetch image: " +:+ default "" (snd fetched)))
               else
                 reply <- reply_found keyword format index search_engine
                                      selected_result (fst fetched) ;;
                 ret (Returns reply)
           end
     end)
    (fun e => Some (ret (HTTPException 500 ("Internal error: " +:+ str_of_exn e)))).

(** [GET /fetch-image], from [image_url = str(url)] on; the route has no
    handler of its own *)
Definition fetch_image (image_url format : string) : M (Outcome ImageReply) :=
  fetched <- fetch_image_from_url image_url ;;
  if truthy_str (snd fetched)
  then ret (HTTPException 400 (default "" (snd fetched)))
  else
    if String.eqb (Py.lower format) "base64" then
      match fst fetched with
      | None => raise (OtherException "a bytes-like object is required, not 'NoneType'")
      | Some data =>
          ret (Returns (ImageResponse (b64encode data) (Z.of_nat (String.length data))
                                      image_url None))
      end
    else
      match urlparse_path image_url with
      | Raise e => raise e
      | Ret path =>
          let filename := Py.lower (OsPath.basename path) in
          let extension := OsPath.splitext_ext filename in
          ret (Returns (StreamingResponse
                          (default "" (fst fetched))
                          (media_type_of filename)
                          [("Content-Disposition",
                            "inline; filename=image"
                            +:+ (if Py.nonempty extension then extension else ".jpg"))]))
      end.

(** [GET /health] *)
Definition health_check : M HealthResponse :=
  w <- get_world ;;
  let proxy_count := Z.of_nat (length (proxies w)) in
  let failed_count := Z.of_nat (size (failed_proxies w)) in
  ret (mkHealthResponse
         "healthy"
         ("Image Search API is running. Proxies: " +:+ Py.str_of_int proxy_count
          +:+ " total, " +:+ Py.str_of_int failed_count
          +:+ " failed, Rate limits: " +:+ Py.str_of_int (rate_limit_count w))).

(** [GET /search-images]; FastAPI has checked [1 <= max_results <= 50].
    The route comes last here, since it takes the name of the method it
    calls. *)
Definition search_images (keyword : string) (max_results : Z)
  : M (Outcome SearchImagesResponse) :=
  try_except
    (found <- search_images keyword max_results ;;
     ret (Returns (mkSearchImagesResponse keyword (Z.of_nat (length (fst found)))
                                          (fst found) (snd found))))
    (fun e => Some (ret (HTTPException 400 ("Search failed: " +:+ str_of_exn e)))).

End WithLibraries.

End Routes.

(** * Vocabulary of the properties *)

(** a URL as [_normalize_url] leaves it: empty, or qualified with
    [http://] or [https://] *)
Definition url_ok (s : string) : bool :=
  negb (Py.nonempty s) || Py.startswith s "http://" || Py.startswith s "https://".

(** a URL in absolute https-qualified form *)
Definition is_https (s : string) : bool := Py.startswith s "https://".

(** two states of the world that differ at most in the cursor of the pool *)
Definition same_but_index (w w' : World) : Prop :=
  proxies w' = proxies w /\ failed_proxies w' = failed_proxies w
  /\ rate_limit_count w' = rate_limit_count w /\ upstream w' = upstream w
  /\ proxy_source w' = proxy_source w /\ trace w' = trace w.

(** What the specification asks of each observable step: a value written
    to the counter is not negative; [get_proxy] is called, and a request
    carries a proxy, only with the counter above the threshold 2. *)
Definition ev_ok (e : Event) : Prop :=
  match e with
  | EvCounter v => 0 <= v
  | EvGetProxy c => 2 < c
  | EvSend _ _ (Some _) c => 2 < c
  | _ => True
  end.

Definition healthy (w : World) : Prop :=
  0 <= rate_limit_count w /\ Forall ev_ok (trace w).

(** the state after a sequence of calls of [_make_request], each given as
    its method and URL, and none passing [proxies] of its own, as every
    call in [main.py]; a call that raises leaves the state it reached *)
Definition after_requests (calls : list (string * string)) (w : World) : World :=
  fold_left (fun w c => snd (_make_request (fst c) (snd c) None w)) calls w.

(** the three URL fields of a result are as [_normalize_url] leaves them *)
Definition urls_ok (r : ImageResult) : Prop :=
  url_ok (image r) = true /\ url_ok (thumbnail r) = true /\ url_ok (url r) = true.

(** the state a request leaves that is answered with status 200 at once,
    no proxy being in use *)
Definition after_ok (verb : Verb) (target : string) (w : World)
    (rest : list NetOutcome) : World :=
  mkWorld (proxies w) (current_proxy_index w) (failed_proxies w)
          (Z.max 0 (rate_limit_count w - 1)) rest (proxy_source w)
          (EvCounter (Z.max 0 (rate_limit_count w - 1))
           :: EvSend verb target None (rate_limit_count w) :: trace w).

(** the entries of the two extractors in a trace, latest first *)
Definition extractor_event (e : Event) : bool :=
  match e with
  | EvPrimary | EvFallback => true
  | _ => false
  end.

Definition extractor_calls (w : World) : list Event :=
  List.filter extractor_event (trace w).

(** a computation in which no extractor is entered *)
Definition quiet {A} (m : M A) : Prop :=
  forall w, extractor_calls (snd (m w)) = extractor_calls w.

(** the image URL of a row, as the loop of the primary extractor reads it *)
Definition row_image (row : JValue) : JValue :=
  match row with
  | JObj fields => dict_get fields "image" JNull
  | _ => JNull
  end.

(** the member of the set of seen URLs a row stands for, when its image
    URL is hashable *)
Definition row_key (row : JValue) : option Key := hash_key (row_image row).

(** does the row carry an image URL? *)
Definition has_image (row : JValue) : bool := truthy (row_image row).

(** the rows all give their image URL as a string *)
Definition string_images (rows : list JValue) : Prop :=
  Forall (fun row => exists s, row_image row = JStr s) rows.

(** the image URL of the row is an absolute http or https URL *)
Definition absolute_image (row : JValue) : Prop :=
  exists s, row_image row = JStr s
            /\ (Py.startswith s "https://" = true \/ Py.startswith s "http://" = true).

(** Following the words of the specification: the entries that are kept,
    in provider order, skipping an entry whose image URL is empty or was
    already seen. *)
Fixpoint kept (rows : list JValue) (seen : gset Key) : list JValue :=
  match rows with
  | [] => []
  | row :: rest =>
      match row_image row with
      | JStr s =>
          if Py.nonempty s && negb (bool_decide (Some (inl s) ∈ seen))
          then row :: kept rest ({[ Some (inl s) ]} ∪ seen)
          else kept rest seen
      | _ => kept rest seen
      end
  end.

(** the URLs seen once the kept entries are added to the set *)
Fixpoint seen_after (rows : list JValue) (seen : gset Key) : gset Key :=
  match rows with
  | [] => seen
  | row :: rest =>
      match row_image row with
      | JStr s =>
          if Py.nonempty s && negb (bool_decide (Some (inl s) ∈ seen))
          then seen_after rest ({[ Some (inl s) ]} ∪ seen)
          else seen_after rest seen
      | _ => seen_after rest seen
      end
  end.

Section PrimaryVocabulary.
Context `{PyLib}.

(** the result the loop builds from a row *)
Definition row_result (row : JValue) : option ImageResult :=
  match row with
  | JObj fields => ddg_result fields (dict_get fields "image" JNull)
  | _ => None
  end.

(** a row of the shape the provider serves: an object whose image URL, if
    it has one, is a string, and from which a result can be built *)
Definition well_formed (row : JValue) : Prop :=
  (exists fields, row = JObj fields)
  /\ (truthy (row_image row) = true ->
      (exists s, row_image row = JStr s) /\ is_Some (row_result row)).

(** [built] are the results of the rows [sel], which are rows of the page
    in the order of the page, each with an image URL, no two with the same
    raw image URL and none with one of the URLs seen before the page *)
Definition selected_from (rows : list JValue) (cache : gset Key)
    (sel : list JValue) (built : list ImageResult) : Prop :=
  Forall2 (fun row r => row_result row = Some r) sel built
  /\ sel `sublist_of` rows
  /\ Forall (fun row => has_image row = true
                       /\ exists k, row_key row = Some k /\ k ∉ cache) sel
  /\ NoDup (map row_key sel).

(** the outside answers the token request and the two page requests with
    status 200 at once, no proxy being in use, and the two pages hold the
    rows [p1] and [p2], all well formed *)
Definition serves_two_pages (w : World) (p1 p2 : list JValue) : Prop :=
  rate_limit_count w <= 2
  /\ Forall well_formed (p1 ++ p2)
  /\ exists r0 r1 r2 rest,
       upstream w = Answers r0 :: Answers r1 :: Answers r2 :: rest
       /\ status_code r0 = 200 /\ status_code r1 = 200 /\ status_code r2 = 200
       /\ page_rows r1 = Some p1 /\ page_rows r2 = Some p2.

End PrimaryVocabulary.

(** ** Vocabulary of the further properties *)

(** the guarded part of an attempt: lines 157-210 *)
Definition guarded (verb : Verb) (target : string) (attempt : Z)
    (cur kw : option string) : M Step :=
  try_except (send_and_check verb target attempt cur kw) (on_exception attempt cur).

Definition is_send (e : Event) : bool :=
  match e with
  | EvSend _ _ _ _ => true
  | _ => false
  end.

(** the number of requests sent, in a list of events *)
Definition sends (evs : list Event) : nat := length (List.filter is_send evs).

(** the requests of a list of events, latest first as in [trace], each as
    the session method and the URL, in the order they were sent *)
Definition request_of (e : Event) : option (Verb * string) :=
  match e with
  | EvSend verb target _ _ => Some (verb, target)
  | _ => None
  end.

Definition requests_of (evs : list Event) : list (Verb * string) :=
  omap request_of (rev evs).

(** the longest the sleeps of a list of events can last, in milliseconds *)
Fixpoint slept (evs : list Event) : Z :=
  match evs with
  | [] => 0
  | EvSleep _ hi :: rest => hi + slept rest
  | _ :: rest => slept rest
  end.

Definition is_long_sleep (e : Event) : bool :=
  match e with
  | EvSleep lo _ => 1000 <=? lo
  | _ => false
  end.

(** In a list of events in the order they happened: no request is sent
    unless a sleep of a second or more came after the request before it;
    [rested] tells whether the first request of the list may be sent at
    once. *)
Fixpoint paced (rested : bool) (chronological : list Event) : bool :=
  match chronological with
  | [] => true
  | e :: rest =>
      if is_send e then rested && paced false rest
      else if is_long_sleep e then paced true rest
      else paced rested rest
  end.

(** an event of the proxy pool or of the counter: no request, no sleep *)
Definition is_bookkeeping (e : Event) : bool :=
  match e with
  | EvLoadProxies _ | EvGetProxy _ | EvCounter _ => true
  | _ => false
  end.

(** every endpoint marked failed is an endpoint of the list *)
Definition failed_are_loaded (w : World) : Prop :=
  forall p, p ∈ failed_proxies w -> p ∈ proxies w.

(** an event other than a download of the proxy list or a request whose
    [proxies] argument is set *)
Definition without_proxy (e : Event) : Prop :=
  match e with
  | EvLoadProxies _ => False
  | EvSend _ _ p _ => p = None
  | _ => True
  end.

(** two states with the same pool *)
Definition same_pool (w w' : World) : Prop :=
  proxies w' = proxies w /\ current_proxy_index w' = current_proxy_index w
  /\ failed_proxies w' = failed_proxies w /\ proxy_source w' = proxy_source w.

(** ** The steps of a search *)

(** What the extractors do to the state: calls of [_make_request], none
    with [proxies] of its own; the entries of the two extractors; and
    sleeps. *)
Inductive Action :=
| Request (method target : string)
| EnterPrimary
| EnterFallback
| Pause (ms : Z).

Definition perform (w : World) (a : Action) : World :=
  match a with
  | Request method target => snd (_make_request method target None w)
  | EnterPrimary => snd (log EvPrimary w)
  | EnterFallback => snd (log EvFallback w)
  | Pause ms => snd (sleep ms ms w)
  end.

Definition perform_all (actions : list Action) (w : World) : World :=
  fold_left perform actions w.

(** what one page of the primary provider takes: the request, and the
    half second of sleep when the rows were gone through *)
Definition page_actions (actions : list Action) : Prop :=
  actions = [Request "GET" "https://duckduckgo.com/i.js"]
  \/ actions = [Request "GET" "https://duckduckgo.com/i.js"; Pause 500].

(** what the secondary provider takes when it is called *)
Definition fallback_actions : list Action :=
  [EnterFallback; Request "GET" search_url].

(** the calls of [_make_request] among the actions, each as the session
    method it selects and the URL *)
Definition call_of (a : Action) : option (Verb * string) :=
  match a with
  | Request method target => Some (verb_of method, target)
  | _ => None
  end.

Definition calls_of (actions : list Action) : list (Verb * string) :=
  omap call_of actions.

(** the time the actions other than calls sleep, in milliseconds *)
Fixpoint paused (actions : list Action) : Z :=
  match actions with
  | [] => 0
  | Pause ms :: rest => ms + paused rest
  | _ :: rest => paused rest
  end.

(** a result as the first method of the secondary provider builds it *)
Definition from_scripts (r : ImageResult) : Prop :=
  source r = "Bing" /\ url r = search_url /\ height r = 0 /\ width r = 0
  /\ title r <> "".

(** a result as the second method of the secondary provider builds it *)
Definition from_img_tags (r : ImageResult) : Prop :=
  source r = "Bing (fallback)" /\ url r = search_url /\ thumbnail r = image r
  /\ 0 <= height r /\ 0 <= width r.

(** a call of the API *)
Inductive Call :=
| SearchImages (keyword : string) (max_results : Z)
| SearchAndFetch (keyword format : string) (index : Z)
| FetchImage (image_url format : string)
| HealthCheck.

Section Sessions.
Context {lib : PyLib} {web : WebLib}.

(** the state a call of the API leaves *)
Definition call (w : World) (c : Call) : World :=
  match c with
  | SearchImages keyword max_results => snd (Routes.search_images keyword max_results w)
  | SearchAndFetch keyword format index =>
      snd (Routes.search_and_fetch_image keyword format index w)
  | FetchImage image_url format => snd (Routes.fetch_image image_url format w)
  | HealthCheck => snd (Routes.health_check w)
  end.

(** the state after a sequence of calls, one after the other *)
Definition after_calls (calls : list Call) (w : World) : World :=
  fold_left call calls w.

End Sessions.

(** the message of [/health], from the three figures it reports *)
Definition health_message (proxy_count failed_count rate_limits : Z) : string :=
  "Image Search API is running. Proxies: " +:+ Py.str_of_int proxy_count
  +:+ " total, " +:+ Py.str_of_int failed_count
  +:+ " failed, Rate limits: " +:+ Py.str_of_int rate_limits.

(** [rotate_proxy] called [n] times in a row *)
Definition rotations (n : nat) (w : World) : World :=
  Nat.iter n (fun w => snd (rotate_proxy w)) w.

(** the state as [w] with the cursor of the pool at [i] *)
Definition with_cursor (i : nat) (w : World) : World :=
  mkWorld (proxies w) i (failed_proxies w) (rate_limit_count w) (upstream w)
          (proxy_source w) (trace w).

(** line 197: does the message of an exception count as a rate limit? *)
Definition mentions_rate_limit (msg : string) : bool :=
  Py.contains "429" msg || Py.contains "rate limit" (Py.lower msg).

(** what an attempt answered with an HTTP error adds to the counter; the
    last attempt does not go on after a rate limit *)
Definition counted (last : bool) (r : Response) : Z :=
  (if is_rate_limited (status_code r) then 1 else 0)
  + (if mentions_rate_limit (http_error_message r)
     then (if is_rate_limited (status_code r) && negb last then 0 else 1)
     else 0).


(** * Scenarios *)

(** a response with nothing but a status *)
Definition plain_response (status : Z) : Response :=
  mkResponse status "" "https://duckduckgo.com/" None None.

(** a process without proxies, with the given counter, to which the
    outside gives the given answers *)
Definition idle_world (count : Z) (net : list NetOutcome) : World :=
  mkWorld [] O ∅ count net [] [].

(** A pool of six endpoints of which the first five have failed one after
    the other, the cursor resting on the fifth; the list source answers
    the next download with the same six endpoints, which the shuffle
    leaves in place. *)
Definition pool_five_of_six : World :=
  mkWorld ["http://a"; "http://b"; "http://c"; "http://d"; "http://e"; "http://f"]
          4
          ({[ "http://a" ]} ∪ {[ "http://b" ]} ∪ {[ "http://c" ]} ∪ {[ "http://d" ]}
           ∪ {[ "http://e" ]})
          3 []
          [FeedAnswers 200 "http://a
http://b
http://c
http://d
http://e
http://f
" [5; 4; 3; 2; 1]%nat]
          [].

(** A pool of three endpoints, all failed, with the cursor on the last
    one; the next download of the list brings a single endpoint. *)
Definition pool_all_failed : World :=
  mkWorld ["http://a"; "http://b"; "http://c"]
          2
          ({[ "http://a" ]} ∪ {[ "http://b" ]} ∪ {[ "http://c" ]})
          3 [] [FeedAnswers 200 "http://x" []] [].

(** A pool of two endpoints, one failed, the cursor on the failed one. *)
Definition pool_one_of_two : World :=
  mkWorld ["http://a"; "http://b"] 0 {[ "http://a" ]} 3 [] [] [].

(** A process from its start: the list source serves three endpoints,
    then one; every request is answered with status 429. *)
Definition throttled_process : World :=
  initial_world
    (repeat (Answers (mkResponse 429 "Too Many Requests" "https://duckduckgo.com/" None None)) 9)
    [FeedAnswers 200 "http://a
http://b
http://c" [2%nat; 1%nat];
     FeedAnswers 200 "http://x" []].

(** An instance of the library functions for the scenarios: [int] of a
    number, a boolean or a string of digits (Python's [int] takes more
    strings than these), and a [str] field that takes strings only. *)
Definition plain_lib : PyLib :=
  {| py_int := fun v =>
       match v with
       | JNum z => Some z
       | JBool b => Some (if b then 1 else 0)
       | JStr s => if Py.isdigit s then Some (Py.int_of_digits s) else None
       | _ => None
       end;
     pydantic_str := fun v =>
       match v with
       | JStr s => Some s
       | _ => None
       end;
     re_findall_murl := fun _ => [] |}.

(** a row of the primary provider with the given image URL *)
Definition entry (u : string) : JValue :=
  JObj [("title", JStr "cat"); ("image", JStr u); ("height", JNum 480);
        ("width", JNum 640)].

Definition landing_page : Response :=
  mkResponse 200 "OK" "https://duckduckgo.com/" None None.

Definition results_page (rows : list JValue) : Response :=
  mkResponse 200 "OK" "https://duckduckgo.com/i.js"
             (Some (JObj [("results", JArr rows)])) None.

(** a fresh process to which the primary provider serves two pages *)
Definition primary_world (p1 p2 : list JValue) : World :=
  idle_world 0 [Answers landing_page; Answers (results_page p1);
                Answers (results_page p2)].

Definition six_absolute : list JValue :=
  [entry "https://img.example/1.jpg"; entry "https://img.example/2.jpg";
   entry "https://img.example/3.jpg"; entry "https://img.example/4.jpg";
   entry "https://img.example/5.jpg"; entry "https://img.example/6.jpg"].

Definition four_absolute : list JValue :=
  [entry "https://img.example/7.jpg"; entry "https://img.example/8.jpg";
   entry "https://img.example/9.jpg"; entry "http://img.example/10.jpg"].

(** six entries with six different image URLs, the first two of which
    name the same image *)
Definition six_mixed : list JValue :=
  [entry "img.example/1.jpg"; entry "https://img.example/1.jpg";
   entry "https://img.example/3.jpg"; entry "https://img.example/4.jpg";
   entry "https://img.example/5.jpg"; entry "https://img.example/6.jpg"].

(** a page whose only row has an http image URL and nothing else *)
Definition http_row_world : World :=
  primary_world [JObj [("image", JStr "http://img.example/1.jpg")]] [].

(** a page of the secondary provider without script data *)
Definition sample_page : Soup :=
  mkSoup [Some "var a = 1;"; None]
         [mkImgTag "data:image/png;base64,AAAA" (Some "640") (Some "480") None;
          mkImgTag "//cdn.example/cat.jpg" (Some "640") (Some "480") (Some "a cat");
          mkImgTag "https://cdn.example/logo.png" (Some "640") (Some "480") None;
          mkImgTag "https://cdn.example/small.jpg" (Some "50") (Some "480") None;
          mkImgTag "https://cdn.example/bare.jpg" None None None;
          mkImgTag "cdn.example/wide.jpg" None (Some "auto") None;
          mkImgTag "https://cdn.example/seventh.jpg" (Some "100") (Some "100") None].

Definition fallback_world (page : Soup) : World :=
  idle_world 0 [Answers landing_page; Answers (results_page []);
                Answers (results_page []);
                Answers (mkResponse 200 "OK" "https://www.bing.com/images/search"
                                    None (Some page))].

(** An instance whose [re.findall] finds one triple, with an escaped
    ampersand and an empty title, in a script that mentions [murl]. *)
Definition media_lib : PyLib :=
  {| py_int := py_int (PyLib := plain_lib);
     pydantic_str := pydantic_str (PyLib := plain_lib);
     re_findall_murl := fun s =>
       if Py.contains "murl" s
       then [("https://img.example/a.jpg?w=1\u0026h=2", "//tn.example/a.jpg", "")]
       else [] |}.

(** a page of the secondary provider with script data *)
Definition media_page : Soup :=
  mkSoup [None; Some "var x;"; Some "{'MediaUrl': 1, 'murl': 2}"; Some "mediaurl murl"]
         [mkImgTag "https://cdn.example/cat.jpg" (Some "640") (Some "480") None].

(** a page of the primary provider whose second row has a height that is
    no number *)
Definition broken_page : list JValue :=
  [entry "https://img.example/1.jpg";
   JObj [("image", JStr "https://img.example/2.jpg"); ("height", JStr "tall")];
   entry "https://img.example/3.jpg"].

(** An instance of the library operations of the routes for the
    scenarios: a response is an image when it is neither a decoded JSON
    document nor a parsed page, its body is its reason phrase, the
    encoding leaves the data as it is and the path of a URL is the URL. *)
Definition plain_web : WebLib :=
  {| header_content_type := fun r =>
       match json_body r, soup r with
       | None, None => Some "image/png"
       | Some _, _ => Some "application/json"
       | None, Some _ => Some "text/html"
       end;
     response_content := fun r => Ret (reason r);
     b64encode := fun data => data;
     urlparse_path := fun u => Ret u |}.

(** an answer with the given status and nothing more *)
Definition answer (status : Z) (target : string) : NetOutcome :=
  Answers (mkResponse status "" target None None).

(** a process without endpoints that is answered 429 three times *)
Definition throttled_without_pool : World :=
  idle_world 0 [answer 429 "https://duckduckgo.com/";
                answer 429 "https://duckduckgo.com/";
                answer 429 "https://duckduckgo.com/"].

(** a process without endpoints that is answered 404 three times, for a
    URL that contains 429 *)
Definition missing_image_429 : World :=
  idle_world 0 [answer 404 "https://img.example/429.jpg";
                answer 404 "https://img.example/429.jpg";
                answer 404 "https://img.example/429.jpg"].

(** a process without endpoints whose session raises an exception that
    is not one of [requests] *)
Definition session_breaks : World :=
  idle_world 0 [Fails (OtherException "label empty or too long")].

(** a pool of three endpoints of which the first has failed, the cursor
    on the first *)
Definition pool_one_of_three : World :=
  mkWorld ["http://a"; "http://b"; "http://c"] 0 {[ "http://a" ]} 3 [] [] [].

(** a fresh process to which the primary provider serves one row on its
    first page and none on its second, and then the image of that row *)
Definition image_world : World :=
  idle_world 0 [Answers landing_page;
                Answers (results_page [entry "https://img.example/cat.png"]);
                Answers (results_page []);
                Answers (mkResponse 200 "PNG..." "https://img.example/cat.png" None None)].

(** a fresh process to which the primary provider serves a first page
    that is no JSON document and then a page of four rows *)
Definition bad_first_page_world : World :=
  idle_world 0 [Answers landing_page; Answers (plain_response 200);
                Answers (results_page four_absolute)].

(** * Properties *)

(** ** The embedding on small inputs *)

Example ex_strip : Py.strip "  http://a
 " = "http://a".
Proof. reflexivity. Qed.

Example ex_split : Py.split_lines "a
b

c" = ["a"; "b"; ""; "c"].
Proof. reflexivity. Qed.

Example ex_replace : Py.replace "\u0026" "&" "a\u0026b\u0026\u0026\u002" = "a&b&&\u002".
Proof. reflexivity. Qed.

Example ex_str_of_int :
  Py.str_of_int 429 = "429" /\ Py.str_of_int 0 = "0" /\ Py.str_of_int 1000 = "1000".
Proof. repeat split; reflexivity. Qed.

Example ex_slice : Py.slice_to 2 [1;2;3] = [1;2] /\ Py.slice_to (-1) [1;2;3] = [1;2]
  /\ Py.slice_to (-5) [1;2;3] = [] /\ Py.slice_to 7 [1;2;3] = [1;2;3].
Proof. repeat split; reflexivity. Qed.

Example ex_isdigit :
  Py.isdigit "0" = true /\ Py.isdigit "" = false /\ Py.isdigit "12a" = false
  /\ Py.int_of_digits "0120" = 120.
Proof. repeat split; reflexivity. Qed.

Example ex_proxy_lines :
  proxy_lines "http://a:1
  http://b:2  
https://c:3

socks5://d
" = ["http://a:1"; "http://b:2"].
Proof. reflexivity. Qed.

Example ex_shuffle :
  shuffle [2%nat; 0%nat] ["a"; "b"; "c"] = ["b"; "a"; "c"]
  /\ shuffle [] ["a"; "b"; "c"] = ["b"; "c"; "a"].
Proof. split; reflexivity. Qed.

Example ex_get_proxy_skips_failed :
  fst (get_proxy (mkWorld ["http://a"; "http://b"; "http://c"] 0 {[ "http://a" ]} 3 [] [] []))
  = Ret (Some "http://b").
Proof. vm_compute. reflexivity. Qed.

Example ex_request_429_429_200 :
  let '(r, w) := _make_request "get" "u" None
     (idle_world 0 [Answers (plain_response 429); Answers (plain_response 429);
                    Answers (plain_response 200)]) in
  r = Ret (plain_response 200) /\ rate_limit_count w = 1
  /\ trace w = [EvCounter 1; EvSend SessionGet "u" None 2;
                EvSleep 2000 5000; EvCounter 2; EvSend SessionGet "u" None 1;
                EvSleep 2000 5000; EvCounter 1; EvSend SessionGet "u" None 0].
Proof. vm_compute. repeat split; reflexivity. Qed.

Example ex_normalize_url :
  _normalize_url "" = "" /\ _normalize_url "//x/y.jpg" = "https://x/y.jpg"
  /\ _normalize_url "x/y.jpg" = "https://x/y.jpg"
  /\ _normalize_url "http://x/y.jpg" = "http://x/y.jpg"
  /\ _normalize_url "ftp://x/y.jpg" = "https://ftp://x/y.jpg".
Proof. repeat split; reflexivity. Qed.

Example ex_http_error_message :
  http_error_message (mkResponse 404 "Not Found" "https://duckduckgo.com/i.js" None None)
  = "404 Client Error: Not Found for url: https://duckduckgo.com/i.js"
  /\ http_error_message (mkResponse 503 "Busy" "https://x/" None None)
     = "503 Server Error: Busy for url: https://x/".
Proof. split; reflexivity. Qed.

(** a status 429 on the last attempt is counted twice: once for the
    status, once more by the handler that takes the HTTP error *)
Example ex_request_three_times_429 :
  let '(r, w) := _make_request "GET" "u" None
     (idle_world 0 [Answers (plain_response 429); Answers (plain_response 429);
                    Answers (plain_response 429)]) in
  r = Raise (RequestException "429 Client Error:  for url: https://duckduckgo.com/")
  /\ rate_limit_count w = 4.
Proof. vm_compute. split; reflexivity. Qed.

Example ex_method2 :
  map image (fst (bing_method2 "cats" 5 sample_page))
  = ["https://cdn.example/cat.jpg"; "https://cdn.example/wide.jpg";
     "https://cdn.example/seventh.jpg"]
  /\ snd (bing_method2 "cats" 5 sample_page) = 7%nat
  /\ map image (fst (bing_method2 "cats" 2 sample_page)) = ["https://cdn.example/cat.jpg"]
  /\ snd (bing_method2 "cats" 2 sample_page) = 4%nat.
Proof. vm_compute. repeat split; reflexivity. Qed.

(** the element without [width] and with the height [auto] is returned,
    with both dimensions 0 *)
Example ex_method2_missing_width :
  nth_error (fst (bing_method2 "cats" 5 sample_page)) 1
  = Some (mkImageResult "cats image" "https://cdn.example/wide.jpg"
                        "https://cdn.example/wide.jpg" search_url 0 0 "Bing (fallback)").
Proof. reflexivity. Qed.

Example ex_search_fallback :
  let '(r, w) := search_images (H := plain_lib) "cats" 5 (fallback_world sample_page) in
  (exists results, r = Ret (results, "Bing") /\ length results = 3%nat)
  /\ extractor_calls w = [EvFallback; EvPrimary].
Proof. vm_compute. split; [eexists; split; reflexivity|reflexivity]. Qed.

Example ex_search_method1 :
  fst (search_images (H := media_lib) "cats" 5 (fallback_world media_page))
  = Ret ([mkImageResult "cats image" "https://img.example/a.jpg?w=1&h=2"
                        "https://tn.example/a.jpg" search_url 0 0 "Bing"], "Bing").
Proof. vm_compute. reflexivity. Qed.

Example ex_search_nothing :
  fst (search_images (H := plain_lib) "cats" 5 (idle_world 0 [])) = Ret ([], "None").
Proof. vm_compute. reflexivity. Qed.

(** a row that raises ends its page: the first row is kept, the third is
    never looked at, and the second page is still read *)
Example ex_broken_row :
  match fst (search_images (H := plain_lib) "cats" 5
               (primary_world broken_page [entry "https://img.example/2.jpg";
                                           entry "https://img.example/4.jpg"])) with
  | Ret (results, engine) =>
      map image results = ["https://img.example/1.jpg"; "https://img.example/4.jpg"]
      /\ engine = "DuckDuckGo"
  | Raise _ => False
  end.
Proof. vm_compute. split; reflexivity. Qed.

(** ** Strings *)

Lemma startswith_inv (p s : string) :
  Py.startswith s p = true -> exists t, s = p +:+ t.
Proof.
  revert s; induction p as [|a p IH]; intros s Hp.
  - exists s. reflexivity.
  - destruct s as [|b s]; [discriminate|]. simpl in Hp.
    apply andb_true_iff in Hp as [Hab Hp]. apply Ascii.eqb_eq in Hab as ->.
    destruct (IH _ Hp) as [t ->]. exists t. reflexivity.
Qed.

(** ** _normalize_url *)

Lemma normalize_cases (u : string) :
  (u = "" /\ _normalize_url u = "")
  \/ (exists t, u = "//" +:+ t /\ _normalize_url u = "https://" +:+ t)
  \/ (Py.startswith u "http://" = true /\ _normalize_url u = u)
  \/ (Py.startswith u "https://" = true /\ _normalize_url u = u)
  \/ (Py.nonempty u = true /\ _normalize_url u = "https://" +:+ u).
Proof.
  unfold _normalize_url.
  destruct u as [|a u]; [left; split; reflexivity|right].
  change (Py.nonempty (String a u)) with true. cbv beta iota delta [negb].
  destruct (Py.startswith (String a u) "//") eqn:H2.
  - left. destruct (startswith_inv _ _ H2) as [t Ht]. exists t. rewrite Ht. split; reflexivity.
  - right. destruct (Py.startswith (String a u) "http://") eqn:H3; [left; split; reflexivity|].
    right. destruct (Py.startswith (String a u) "https://") eqn:H4; [left; split; reflexivity|].
    right. split; reflexivity.
Qed.

Lemma normalize_idempotent (u : string) :
  _normalize_url (_normalize_url u) = _normalize_url u.
Proof.
  destruct (normalize_cases u) as [[_ ->]|[(t & _ & ->)|[[H ->]|[[H ->]|[_ ->]]]]];
    try reflexivity.
  all: destruct (startswith_inv _ _ H) as [t Ht];
    rewrite Ht; reflexivity.
Qed.

Lemma normalize_url_ok (u : string) : url_ok (_normalize_url u) = true.
Proof.
  unfold url_ok.
  destruct (normalize_cases u) as [[_ ->]|[(t & _ & ->)|[[H ->]|[[H ->]|[_ ->]]]]];
    try reflexivity.
  - rewrite H. apply orb_true_iff. left. apply orb_true_r.
  - rewrite H. apply orb_true_r.
Qed.

Lemma normalize_absolute (u : string) :
  Py.startswith u "https://" = true \/ Py.startswith u "http://" = true ->
  _normalize_url u = u.
Proof.
  intros [Hp|Hp]; destruct (startswith_inv _ _ Hp) as [t ->]; reflexivity.
Qed.

(** ** ProxyManager *)

Arguments scan_proxies : simpl never.
Arguments load_proxies : simpl never.

Lemma load_proxies_eq (w : World) :
  exists l rest,
    load_proxies w
    = (Ret tt, mkWorld l (current_proxy_index w) (failed_proxies w)
                       (rate_limit_count w) (upstream w) rest
                       (EvLoadProxies (failed_proxies w) :: trace w)).
Proof.
  unfold load_proxies, bind, get_world, log, modify, next_feed. simpl.
  destruct (proxy_source w) as [|o rest]; simpl.
  - eexists _, _. reflexivity.
  - destruct o as [|status text draws]; simpl.
    + eexists _, _. reflexivity.
    + destruct (is_http_error status); eexists _, _; reflexivity.
Qed.

(** The scan leaves everything but the cursor alone; it returns an
    endpoint that is not failed, or has found every endpoint it looked at
    failed, or has read past the end of the list. *)
Lemma scan_proxies_spec (n : nat) (w : World) :
  same_but_index w (snd (scan_proxies n w))
  /\ (match fst (scan_proxies n w) with
      | Ret (Some p) => (p ∉ failed_proxies w) /\ p ∈ proxies w
      | Ret None =>
          forall k, (k < n)%nat ->
            exists q, proxies w !! ((current_proxy_index w + k) mod length (proxies w))%nat
                      = Some q
                      /\ q ∈ failed_proxies w
      | Raise e => e = IndexError
      end).
Proof.
  revert w. induction n as [|n IH]; intros w.
  - unfold scan_proxies; simpl. split; [repeat split|]. intros k Hk. lia.
  - unfold scan_proxies; fold scan_proxies. unfold bind, get_world; simpl.
    destruct (proxies w !! current_proxy_index w) as [proxy|] eqn:Hlook; simpl.
    2:{ split; [repeat split|reflexivity]. }
    destruct (bool_decide (proxy ∈ failed_proxies w)) eqn:Hfailed; simpl.
    2:{ split; [repeat split|]. split.
        - apply bool_decide_eq_false in Hfailed. exact Hfailed.
        - eapply list_elem_of_lookup_2. exact Hlook. }
    apply bool_decide_eq_true in Hfailed.
    set (w1 := mkWorld _ _ _ _ _ _ _).
    specialize (IH w1). destruct IH as [Hsame IH].
    split.
    { destruct Hsame as (?&?&?&?&?&?). repeat split; etransitivity; eauto. }
    destruct (fst (scan_proxies n w1)) as [[p|]|e]; auto.
    intros k Hk. pose proof (lookup_lt_Some _ _ _ Hlook) as Hlt.
    destruct k as [|k].
    + exists proxy. rewrite Nat.add_0_r, Nat.mod_small by lia. auto.
    + destruct (IH k ltac:(lia)) as (q & Hq & Hqf). exists q. split; [|exact Hqf].
      subst w1; simpl in Hq.
      rewrite Nat.Div0.add_mod_idemp_l in Hq.
      replace (current_proxy_index w + S k)%nat with (current_proxy_index w + 1 + k)%nat by lia.
      exact Hq.
Qed.

(** A scan of [len] steps from any cursor sees every position. *)
Lemma full_scan_all_failed (l : list string) (s : gset string) (i : nat) :
  (forall k, (k < length l)%nat ->
     exists q, l !! ((i + k) mod length l)%nat = Some q /\ q ∈ s) ->
  forall q, q ∈ l -> q ∈ s.
Proof.
  intros Hall q Hq.
  apply list_elem_of_lookup in Hq as [j Hj].
  pose proof (lookup_lt_Some _ _ _ Hj) as Hlt.
  pose proof (Nat.mod_upper_bound i (length l) ltac:(lia)) as Hi.
  destruct (Hall ((j + length l - i mod length l) mod length l)%nat) as (q' & Hq' & Hs).
  { apply Nat.mod_upper_bound. lia. }
  rewrite Nat.Div0.add_mod_idemp_r, <- Nat.Div0.add_mod_idemp_l in Hq'.
  replace (i mod length l + (j + length l - i mod length l))%nat
    with (j + 1 * length l)%nat in Hq' by lia.
  rewrite Nat.Div0.mod_add, Nat.mod_small in Hq' by lia.
  congruence.
Qed.

Ltac loads_empty H :=
  repeat match type of H with
         | _ ∈ _ :: _ => apply elem_of_cons in H as [H|H]
         | _ ∈ [] => apply elem_of_nil in H; contradiction
         | EvLoadProxies _ = EvLoadProxies _ => injection H as ->; reflexivity
         | _ = _ => discriminate H
         end.

(** C3 (as amended). Whatever the pool, every download of the list that
    [get_proxy] makes runs under an emptied failed set; and when it
    returns an endpoint, that endpoint is not in the failed set the call
    leaves, and it was in the failed set the call found only if the call
    reloaded: more than 80 percent as many endpoints were failed as were
    loaded, or every loaded endpoint was failed. *)
Theorem get_proxy_failed_set (w : World) :
  (exists evs, trace (snd (get_proxy w)) = evs ++ trace w
               /\ forall f, EvLoadProxies f ∈ evs -> f = ∅)
  /\ forall p, fst (get_proxy w) = Ret (Some p) ->
       (p ∉ failed_proxies (snd (get_proxy w)))
       /\ (p ∈ failed_proxies w ->
           too_many_failed w = true \/ forall q, q ∈ proxies w -> q ∈ failed_proxies w).
Proof.
  unfold get_proxy, bind, get_world, log, modify; simpl.
  destruct (proxies w) as [|p0 l0] eqn:Hprox.
  { simpl. split.
    - exists []. split; [reflexivity|].
      intros f Hf. apply elem_of_nil in Hf. contradiction.
    - intros p Hp. discriminate. }
  unfold when.
  destruct (too_many_failed w) eqn:Htoo.
  - simpl.
    match goal with |- context [load_proxies ?w0] =>
      destruct (load_proxies_eq w0) as (l1 & rest1 & ->) end. simpl.
    match goal with |- context [scan_proxies ?n ?w0] =>
      pose proof (scan_proxies_spec n w0) as [Hsame Hscan];
      destruct (scan_proxies n w0) as [[[p|]|e] w2] end; simpl in *.
    + destruct Hsame as (_ & Hf & _ & _ & _ & Ht). split.
      * eexists [_]. split; [rewrite Ht; reflexivity|].
        intros f Hf'. loads_empty Hf'.
      * intros p' [= <-]. split; [|auto]. rewrite Hf. set_solver.
    + destruct Hsame as (_ & Hf & _ & _ & _ & Ht).
      simpl.
      match goal with |- context [load_proxies ?w0] =>
        destruct (load_proxies_eq w0) as (l3 & rest3 & ->) end. simpl.
      split.
      * eexists [_; _]. split; [rewrite Ht; reflexivity|].
        intros f Hf'. loads_empty Hf'.
      * intros p' _. split; [set_solver|auto].
    + split.
      * destruct Hsame as (_ & Hf & _ & _ & _ & Ht).
        eexists [_]. split; [rewrite Ht; reflexivity|].
        intros f Hf'. loads_empty Hf'.
      * intros p' Hp'. discriminate.
  - simpl.
    match goal with |- context [scan_proxies ?n ?w0] =>
      pose proof (scan_proxies_spec n w0) as [Hsame Hscan];
      destruct (scan_proxies n w0) as [[[p|]|e] w2] end; simpl in *.
    + destruct Hsame as (_ & Hf & _ & _ & _ & Ht). split.
      * eexists []. split; [rewrite Ht; reflexivity|].
        intros f Hf'. loads_empty Hf'.
      * intros p' [= <-]. split; [rewrite Hf; tauto|]. tauto.
    + destruct Hsame as (_ & Hf & _ & _ & _ & Ht).
      simpl.
      match goal with |- context [load_proxies ?w0] =>
        destruct (load_proxies_eq w0) as (l3 & rest3 & ->) end. simpl.
      split.
      * eexists [_]. split; [rewrite Ht; reflexivity|].
        intros f Hf'. loads_empty Hf'.
      * intros p' _. split; [set_solver|]. intros _. right.
        intros q Hq.
        apply (full_scan_all_failed (proxies w) _ (current_proxy_index w));
          [exact Hscan|rewrite Hprox; exact Hq].
    + split.
      * destruct Hsame as (_ & Hf & _ & _ & _ & Ht).
        eexists []. split; [rewrite Ht; reflexivity|].
        intros f Hf'. loads_empty Hf'.
      * intros p' Hp'. discriminate.
Qed.

Lemma get_proxy_failed_set_witness :
  fst (get_proxy pool_one_of_two) = Ret (Some "http://b")
  /\ "http://b" ∉ failed_proxies (snd (get_proxy pool_one_of_two)).
Proof.
  split; [vm_compute; reflexivity|].
  apply (get_proxy_failed_set pool_one_of_two). vm_compute. reflexivity.
Defined.

(** C3 as stated fails. With five of six endpoints failed the pool is not
    entirely failed, yet the 80 percent rule reloads, and the call returns
    the endpoint under the cursor, which was in the failed set. *)
Lemma get_proxy_returns_failed_endpoint :
  fst (get_proxy pool_five_of_six) = Ret (Some "http://e")
  /\ "http://e" ∈ failed_proxies pool_five_of_six
  /\ "http://f" ∈ proxies pool_five_of_six
  /\ ("http://f" ∉ failed_proxies pool_five_of_six)
  /\ proxies (snd (get_proxy pool_five_of_six)) = proxies pool_five_of_six.
Proof.
  split; [vm_compute; reflexivity|]. split; [|split; [|split]].
  - apply (bool_decide_unpack _). vm_compute. exact I.
  - apply (bool_decide_unpack _). vm_compute. exact I.
  - apply (bool_decide_unpack _). vm_compute. exact I.
  - vm_compute. reflexivity.
Qed.

(** C4 fails on the code. A reload that brings a list shorter than the
    cursor makes the next subscript raise: directly on a pool whose three
    endpoints are all failed, and in a process that is throttled from its
    start, on its third request. *)
Theorem get_proxy_raises_index_error :
  fst (get_proxy pool_all_failed) = Raise IndexError
  /\ (let w1 := snd (_make_request "GET" "https://duckduckgo.com" None throttled_process) in
      let w2 := snd (_make_request "GET" "https://duckduckgo.com" None w1) in
      proxies w2 = ["http://a"; "http://b"; "http://c"]
      /\ current_proxy_index w2 = 1%nat
      /\ (forall p, p ∈ proxies w2 -> p ∈ failed_proxies w2)
      /\ fst (_make_request "GET" "https://duckduckgo.com" None w2) = Raise IndexError).
Proof.
  split; [vm_compute; reflexivity|].
  cbv zeta. split; [vm_compute; reflexivity|]. split; [vm_compute; reflexivity|]. split.
  - intros p Hp.
    assert (Hl : proxies (snd (_make_request "GET" "https://duckduckgo.com" None
                    (snd (_make_request "GET" "https://duckduckgo.com" None throttled_process))))
                 = ["http://a"; "http://b"; "http://c"]) by (vm_compute; reflexivity).
    rewrite Hl in Hp.
    repeat (apply elem_of_cons in Hp as [->|Hp];
            [apply (bool_decide_unpack _); vm_compute; exact I|]).
    apply elem_of_nil in Hp. contradiction.
  - vm_compute. reflexivity.
Qed.

(** ** _make_request: the rate-limit counter *)

Arguments get_proxy : simpl never.

Ltac break_match :=
  match goal with
  | |- context [if ?b then _ else _] => destruct b eqn:?
  | |- context [match ?x with _ => _ end] =>
      lazymatch type of x with
      | prod _ _ => fail
      | _ => first [ is_var x; destruct x | destruct x eqn:? ]
      end
  end.

Ltac frame_done :=
  simpl in *;
  repeat match goal with H : _ = _ |- _ => rewrite H end;
  repeat split; auto; repeat constructor; simpl; auto; try lia.

Lemma get_proxy_healthy (w : World) :
  healthy w ->
  healthy (snd (get_proxy w))
  /\ rate_limit_count (snd (get_proxy w)) = rate_limit_count w
  /\ upstream (snd (get_proxy w)) = upstream w.
Proof.
  intros [Hc Ht].
  unfold get_proxy, bind, get_world, log, modify, when, healthy; simpl.
  destruct (proxies w) as [|p0 l0] eqn:Hprox; simpl.
  { repeat split; auto. }
  destruct (too_many_failed w); simpl.
  - match goal with |- context [load_proxies ?w0] =>
      destruct (load_proxies_eq w0) as (l1 & rest1 & ->) end. simpl.
    match goal with |- context [scan_proxies ?n ?w0] =>
      pose proof (scan_proxies_spec n w0) as [Hsame _];
      destruct (scan_proxies n w0) as [[[p|]|e] w2] end; simpl in *;
      destruct Hsame as (_ & _ & Hcount & Hup & _ & Htr).
    + frame_done.
    + match goal with |- context [load_proxies ?w0] =>
        destruct (load_proxies_eq w0) as (l3 & rest3 & ->) end. simpl.
      frame_done.
    + frame_done.
  - match goal with |- context [scan_proxies ?n ?w0] =>
      pose proof (scan_proxies_spec n w0) as [Hsame _];
      destruct (scan_proxies n w0) as [[[p|]|e] w2] end; simpl in *;
      destruct Hsame as (_ & _ & Hcount & Hup & _ & Htr).
    + frame_done.
    + match goal with |- context [load_proxies ?w0] =>
        destruct (load_proxies_eq w0) as (l3 & rest3 & ->) end. simpl.
      frame_done.
    + frame_done.
Qed.

Lemma choose_proxy_healthy (cur kw : option string) (w : World) :
  healthy w -> (is_Some kw -> 2 < rate_limit_count w) ->
  healthy (snd (choose_proxy cur kw w))
  /\ rate_limit_count (snd (choose_proxy cur kw w)) = rate_limit_count w
  /\ upstream (snd (choose_proxy cur kw w)) = upstream w
  /\ (forall cur' kw', fst (choose_proxy cur kw w) = Ret (cur', kw') ->
        is_Some kw' -> 2 < rate_limit_count w).
Proof.
  intros Hh Hkw. unfold choose_proxy, bind, get_world, log, modify; simpl.
  destruct (2 <? rate_limit_count w) eqn:Hgt; simpl.
  - apply Z.ltb_lt in Hgt.
    set (w0 := mkWorld _ _ _ _ _ _ (EvGetProxy (rate_limit_count w) :: trace w)).
    assert (Hh0 : healthy w0).
    { destruct Hh as [Hc Ht]. split; [exact Hc|]. constructor; [exact Hgt|exact Ht]. }
    destruct (get_proxy_healthy w0 Hh0) as (H1 & H2 & H3).
    destruct (get_proxy w0) as [[p|e] w1]; simpl in *.
    + destruct (proxy_truthy p); simpl; (split; [exact H1|split; [exact H2|split; [exact H3|intros; lia]]]).
    + split; [exact H1|split; [exact H2|split; [exact H3|intros; discriminate]]].
  - split; [exact Hh|split; [reflexivity|split; [reflexivity|]]].
    intros cur' kw' [= <- <-]. exact Hkw.
Qed.

Lemma mark_proxy_failed_frame (p : option string) (w : World) :
  fst (mark_proxy_failed p w) = Ret tt
  /\ rate_limit_count (snd (mark_proxy_failed p w)) = rate_limit_count w
  /\ upstream (snd (mark_proxy_failed p w)) = upstream w
  /\ trace (snd (mark_proxy_failed p w)) = trace w.
Proof.
  unfold mark_proxy_failed. destruct p as [s|]; [destruct (Py.nonempty s)|];
    repeat split.
Qed.

Lemma rotate_proxy_frame (w : World) :
  fst (rotate_proxy w) = Ret tt
  /\ rate_limit_count (snd (rotate_proxy w)) = rate_limit_count w
  /\ upstream (snd (rotate_proxy w)) = upstream w
  /\ trace (snd (rotate_proxy w)) = trace w.
Proof.
  unfold rotate_proxy, bind, get_world. simpl. destruct (proxies w); repeat split.
Qed.

Arguments mark_proxy_failed : simpl never.
Arguments rotate_proxy : simpl never.

Ltac step_frame :=
  match goal with
  | |- context [mark_proxy_failed ?p ?w] =>
      let H := fresh "Hmark" in
      pose proof (mark_proxy_failed_frame p w) as H;
      destruct (mark_proxy_failed p w) as [[[]|?] ?]; simpl in H;
      destruct H as (? & ? & ? & ?); try discriminate
  | |- context [rotate_proxy ?w] =>
      let H := fresh "Hrot" in
      pose proof (rotate_proxy_frame w) as H;
      destruct (rotate_proxy w) as [[[]|?] ?]; simpl in H;
      destruct H as (? & ? & ? & ?); try discriminate
  end.

Lemma ok_is_no_http_error (status : Z) :
  (status =? 200) = true -> is_http_error status = false.
Proof. intros H%Z.eqb_eq. subst. reflexivity. Qed.

Ltac healthy_leaf :=
  try match goal with
      | H1 : (?s =? 200) = true, H2 : is_http_error ?s = true |- _ =>
          rewrite (ok_is_no_http_error s H1) in H2; discriminate H2
      end;
  unfold healthy in *; simpl in *;
  repeat match goal with
         | H : rate_limit_count _ = _ |- _ => rewrite H in *; clear H
         | H : trace _ = _ |- _ => rewrite H in *; clear H
         end;
  repeat match goal with
         | |- _ /\ _ => split
         | |- Forall _ (_ :: _) => constructor
         | |- _ = _ -> _ => let E := fresh in intros E; try discriminate E
         | |- is_Some _ -> _ => intros ?
         end;
  simpl; try tauto; try lia.

Lemma guarded_attempt_healthy (verb : Verb) (target : string) (attempt : Z)
    (cur kw : option string) (w : World) :
  healthy w -> (is_Some kw -> 2 < rate_limit_count w) ->
  healthy (snd (try_except (send_and_check verb target attempt cur kw)
                           (on_exception attempt cur) w))
  /\ (fst (try_except (send_and_check verb target attempt cur kw)
                      (on_exception attempt cur) w) = Ret Continue ->
      rate_limit_count w
      <= rate_limit_count (snd (try_except (send_and_check verb target attempt cur kw)
                                           (on_exception attempt cur) w))).
Proof.
  intros [Hc Ht] Hkw.
  assert (Hsend : ev_ok (EvSend verb target kw (rate_limit_count w))).
  { destruct kw; simpl; eauto. }
  unfold try_except, send_and_check, on_exception, raise_for_status, when,
    set_rate_limit_count, sleep, log, bind, ret, raise, get_world, modify, next_answer.
  simpl.
  destruct (upstream w) as [|o rest]; simpl.
  - repeat (first [step_frame | break_match; simpl]); healthy_leaf.
  - destruct o as [response|e]; simpl.
    + repeat (first [step_frame | break_match; simpl]); healthy_leaf.
    + destruct e; simpl;
        repeat (first [step_frame | break_match; simpl]); healthy_leaf.
Qed.

Arguments choose_proxy : simpl never.
Arguments send_and_check : simpl never.
Arguments try_except : simpl never.

Lemma make_request_from_healthy (attempts : list Z) (verb : Verb) (target : string)
    (cur kw : option string) (w : World) :
  healthy w -> (is_Some kw -> 2 < rate_limit_count w) ->
  healthy (snd (make_request_from attempts verb target cur kw w)).
Proof.
  revert cur kw w. induction attempts as [|attempt rest IH]; intros cur kw w Hh Hkw.
  - exact Hh.
  - simpl. unfold attempt_once, bind.
    destruct (choose_proxy_healthy cur kw w Hh Hkw) as (Hh1 & Hc1 & _ & Hkw1).
    destruct (choose_proxy cur kw w) as [[[cur' kw']|e] w1]; simpl in *; [|exact Hh1].
    specialize (Hkw1 _ _ eq_refl). rewrite <- Hc1 in Hkw1.
    destruct (guarded_attempt_healthy verb target attempt cur' kw' w1 Hh1 Hkw1)
      as [Hh2 Hc2].
    destruct (try_except _ _ w1) as [[[response|]|e] w2]; simpl in *; auto.
    apply IH; [exact Hh2|]. intros Hs. specialize (Hkw1 Hs). specialize (Hc2 eq_refl). lia.
Qed.

Lemma make_request_healthy (method target : string) (w : World) :
  healthy w -> healthy (snd (_make_request method target None w)).
Proof.
  intros Hh. apply make_request_from_healthy; [exact Hh|].
  intros [x Hx]. discriminate.
Qed.

Lemma after_requests_healthy (calls : list (string * string)) (w : World) :
  healthy w -> healthy (after_requests calls w).
Proof.
  revert w. induction calls as [|c calls IH]; intros w Hh; [exact Hh|].
  simpl. apply IH. apply make_request_healthy. exact Hh.
Qed.

Lemma initial_world_healthy (net : list NetOutcome) (feed : list FeedOutcome) :
  healthy (initial_world net feed).
Proof.
  unfold initial_world.
  match goal with |- context [load_proxies ?w0] =>
    destruct (load_proxies_eq w0) as (l & rest & ->) end.
  split; simpl; [lia|]. repeat constructor.
Qed.

(** C5. From the start of a process and across every sequence of
    requests: the counter is not negative, no value ever written to it is
    negative, and [get_proxy] is called, and a request carries a proxy,
    only in an attempt that finds the counter above 2 (the counter logged
    with a request is the one the attempt started with: the proxy check,
    the only step in between, leaves it as it is). *)
Theorem rate_limit_counter_invariant
    (net : list NetOutcome) (feed : list FeedOutcome) (calls : list (string * string)) :
  let w := after_requests calls (initial_world net feed) in
  0 <= rate_limit_count w
  /\ (forall v, EvCounter v ∈ trace w -> 0 <= v)
  /\ (forall c, EvGetProxy c ∈ trace w -> 2 < c)
  /\ (forall verb target proxy c,
        EvSend verb target (Some proxy) c ∈ trace w -> 2 < c).
Proof.
  intros w.
  destruct (after_requests_healthy calls _ (initial_world_healthy net feed)) as [Hc Ht].
  fold w in Hc, Ht. rewrite Forall_forall in Ht.
  split; [exact Hc|]. repeat split; intros.
  - apply (Ht (EvCounter v)). assumption.
  - apply (Ht (EvGetProxy c)). assumption.
  - apply (Ht (EvSend verb target (Some proxy) c)). assumption.
Qed.

(** ** _make_request: what a response leads to *)

Ltac answer_leaf :=
  unfold max_retries in *; simpl in *;
  repeat match goal with
         | H : (_ <? _) = true |- _ => apply Z.ltb_lt in H
         | H : (_ <? _) = false |- _ => apply Z.ltb_ge in H
         | H : upstream _ = _ |- _ => rewrite H in *; clear H
         end;
  repeat match goal with
         | |- _ /\ _ => split
         | |- _ -> _ => intros ?
         end;
  try reflexivity; try contradiction; try discriminate; try lia.

Lemma not_limited_200 (status : Z) : status = 200 -> is_rate_limited status = false.
Proof. intros ->. reflexivity. Qed.

(** what the guarded part of an attempt (lines 157-210) does with an
    answer whose status is not 429, 403 or 503 *)
Lemma guarded_attempt_answer (verb : Verb) (target : string) (attempt : Z)
    (cur kw : option string) (w : World) (r : Response) (rest : list NetOutcome) :
  upstream w = Answers r :: rest ->
  is_rate_limited (status_code r) = false ->
  let run := try_except (send_and_check verb target attempt cur kw)
                        (on_exception attempt cur) w in
  upstream (snd run) = rest
  /\ (status_code r = 200 ->
      fst run = Ret (Return r)
      /\ rate_limit_count (snd run) = Z.max 0 (rate_limit_count w - 1))
  /\ (status_code r <> 200 -> is_http_error (status_code r) = false ->
      fst run = Ret (Return r) /\ rate_limit_count (snd run) = rate_limit_count w)
  /\ (is_http_error (status_code r) = true ->
      (attempt < max_retries - 1 -> fst run = Ret Continue)
      /\ (max_retries - 1 <= attempt ->
          fst run = Raise (RequestException (http_error_message r)))).
Proof.
  intros Hup Hlim.
  unfold try_except, send_and_check, on_exception, raise_for_status, when,
    set_rate_limit_count, sleep, log, bind, ret, raise, get_world, modify, next_answer.
  simpl. rewrite Hup. simpl. rewrite Hlim.
  destruct (status_code r =? 200) eqn:H200.
  - rewrite (ok_is_no_http_error _ H200). simpl.
    apply Z.eqb_eq in H200.
    split; [reflexivity|]. split; [intros _; split; reflexivity|].
    split; [intros Hne; contradiction|]. intros Hf; discriminate.
  - apply Z.eqb_neq in H200. simpl.
    destruct (is_http_error (status_code r)) eqn:Herr; simpl.
    + repeat (first [step_frame | break_match; simpl]); answer_leaf.
    + split; [reflexivity|]. split; [intros; contradiction|].
      split; [intros; split; reflexivity|]. intros; discriminate.
Qed.

Lemma get_proxy_frame (w : World) :
  rate_limit_count (snd (get_proxy w)) = rate_limit_count w
  /\ upstream (snd (get_proxy w)) = upstream w.
Proof.
  unfold get_proxy, bind, get_world, log, modify, when; simpl.
  destruct (proxies w) as [|p0 l0] eqn:Hprox; simpl; [split; reflexivity|].
  destruct (too_many_failed w); simpl.
  - match goal with |- context [load_proxies ?w0] =>
      destruct (load_proxies_eq w0) as (l1 & rest1 & ->) end. simpl.
    match goal with |- context [scan_proxies ?n ?w0] =>
      pose proof (scan_proxies_spec n w0) as [Hsame _];
      destruct (scan_proxies n w0) as [[[p|]|e] w2] end; simpl in *;
      destruct Hsame as (_ & _ & Hcount & Hup & _ & _); auto.
    match goal with |- context [load_proxies ?w0] =>
      destruct (load_proxies_eq w0) as (l3 & rest3 & ->) end. simpl. auto.
  - match goal with |- context [scan_proxies ?n ?w0] =>
      pose proof (scan_proxies_spec n w0) as [Hsame _];
      destruct (scan_proxies n w0) as [[[p|]|e] w2] end; simpl in *;
      destruct Hsame as (_ & _ & Hcount & Hup & _ & _); auto.
    match goal with |- context [load_proxies ?w0] =>
      destruct (load_proxies_eq w0) as (l3 & rest3 & ->) end. simpl. auto.
Qed.

Lemma choose_proxy_frame (cur kw : option string) (w : World) :
  rate_limit_count (snd (choose_proxy cur kw w)) = rate_limit_count w
  /\ upstream (snd (choose_proxy cur kw w)) = upstream w.
Proof.
  unfold choose_proxy, bind, get_world, log, modify; simpl.
  destruct (2 <? rate_limit_count w); simpl; [|split; reflexivity].
  set (w0 := mkWorld _ _ _ _ _ _ (EvGetProxy (rate_limit_count w) :: trace w)).
  pose proof (get_proxy_frame w0) as Hf.
  destruct (get_proxy w0) as [[p|e] w1]; simpl in *; [|exact Hf].
  destruct (proxy_truthy p); exact Hf.
Qed.

(** C6 (as amended). In an attempt of [_make_request] whose proxy check
    returns and whose request is answered with a status other than 429,
    403 and 503: a status 200 takes one off the counter, not below 0, and
    the response is returned; any other status outside 400-599 (the other
    2xx among them) is returned with the counter as it was; a status in
    400-599 makes [raise_for_status] raise, which the function's own
    handler takes: before the last attempt the loop goes on with the next
    attempt, on the last attempt the HTTP error is raised to the caller. *)
Theorem response_handling (attempt : Z) (more : list Z) (verb : Verb) (target : string)
    (cur kw cur' kw' : option string) (w w1 : World)
    (r : Response) (rest : list NetOutcome) :
  choose_proxy cur kw w = (Ret (cur', kw'), w1) ->
  upstream w = Answers r :: rest ->
  is_rate_limited (status_code r) = false ->
  let run := make_request_from (attempt :: more) verb target cur kw w in
  (status_code r = 200 ->
   fst run = Ret r /\ rate_limit_count (snd run) = Z.max 0 (rate_limit_count w - 1))
  /\ (status_code r <> 200 -> is_http_error (status_code r) = false ->
      fst run = Ret r /\ rate_limit_count (snd run) = rate_limit_count w)
  /\ (is_http_error (status_code r) = true ->
      (attempt < max_retries - 1 ->
       exists w2, upstream w2 = rest
                  /\ run = make_request_from more verb target cur' kw' w2)
      /\ (max_retries - 1 <= attempt ->
          fst run = Raise (RequestException (http_error_message r)))).
Proof.
  intros Hchoose Hup Hlim.
  destruct (choose_proxy_frame cur kw w) as [Hc1 Hu1].
  rewrite Hchoose in Hc1, Hu1. simpl in Hc1, Hu1. rewrite Hup in Hu1.
  destruct (guarded_attempt_answer verb target attempt cur' kw' w1 r rest Hu1 Hlim)
    as (Hrest & H200 & Hother & Herr).
  simpl. unfold attempt_once, bind. rewrite Hchoose. simpl.
  destruct (try_except _ _ w1) as [res w2]; simpl in *.
  split; [|split].
  - intros Hs. destruct (H200 Hs) as [-> Hc]. simpl. rewrite Hc, Hc1. auto.
  - intros Hs Hne. destruct (Hother Hs Hne) as [-> Hc]. simpl. rewrite Hc, Hc1. auto.
  - intros He. destruct (Herr He) as [Hretry Hraise]. split.
    + intros Hlt. rewrite (Hretry Hlt). simpl. exists w2. auto.
    + intros Hge. rewrite (Hraise Hge). reflexivity.
Qed.

Lemma response_handling_witness :
  fst (_make_request "GET" "https://duckduckgo.com" None
         (idle_world 1 [Answers (plain_response 200)])) = Ret (plain_response 200)
  /\ rate_limit_count (snd (_make_request "GET" "https://duckduckgo.com" None
         (idle_world 1 [Answers (plain_response 200)]))) = 0.
Proof.
  apply (response_handling 0 [1; 2] SessionGet "https://duckduckgo.com" None None None None
           (idle_world 1 [Answers (plain_response 200)])
           (idle_world 1 [Answers (plain_response 200)])
           (plain_response 200) []); reflexivity.
Defined.

(** C6 as stated fails: a 201 is returned without the counter being
    touched, a 404 followed by a 200 ends in the 200 being returned, and
    a 304 is returned, not raised. *)
Lemma make_request_201_and_404 :
  (fst (_make_request "GET" "https://duckduckgo.com" None
          (idle_world 1 [Answers (plain_response 201)])) = Ret (plain_response 201)
   /\ rate_limit_count (snd (_make_request "GET" "https://duckduckgo.com" None
          (idle_world 1 [Answers (plain_response 201)]))) = 1)
  /\ fst (_make_request "GET" "https://duckduckgo.com" None
          (idle_world 0 [Answers (plain_response 404); Answers (plain_response 200)]))
     = Ret (plain_response 200)
  /\ fst (_make_request "GET" "https://duckduckgo.com" None
          (idle_world 0 [Answers (plain_response 304)])) = Ret (plain_response 304).
Proof. vm_compute. repeat split; reflexivity. Qed.

(** ** search_bing_images, method 2 *)

Arguments Py.startswith : simpl never.
Arguments Py.contains : simpl never.

Lemma geb_false (a b : Z) : (a >=? b) = false -> a < b.
Proof. rewrite Z.geb_leb. apply Z.leb_gt. Qed.

Lemma geb_true (a b : Z) : (a >=? b) = true -> b <= a.
Proof. rewrite Z.geb_leb. apply Z.leb_le. Qed.

Lemma geb_true_intro (a b : Z) : b <= a -> (a >=? b) = true.
Proof. rewrite Z.geb_leb. apply Z.leb_le. Qed.

Lemma geb_false_intro (a b : Z) : a < b -> (a >=? b) = false.
Proof. rewrite Z.geb_leb. apply Z.leb_gt. Qed.

Lemma bing_imgs_spec (keywords : string) (max_results : Z) (imgs : list ImgTag)
    (results : list ImageResult) (examined : nat) :
  exists sel,
    fst (bing_imgs keywords max_results imgs results examined)
    = results ++ map (img_result keywords) sel
    /\ sel `sublist_of` imgs
    /\ Forall (fun img => skipped img = false) sel
    /\ (snd (bing_imgs keywords max_results imgs results examined)
        <= examined + length imgs)%nat
    /\ (max_results <= 0 ->
        snd (bing_imgs keywords max_results imgs results examined) = examined).
Proof.
  revert results examined. induction imgs as [|img rest IH]; intros results examined.
  - exists []. simpl. rewrite app_nil_r. repeat split; auto; try lia.
  - simpl. destruct (Z.of_nat (length results) >=? max_results) eqn:Hfull.
    + exists []. simpl. rewrite app_nil_r. repeat split; auto; try lia.
      all: try apply sublist_nil_l.
    + destruct (skipped img) eqn:Hskip.
      * destruct (IH results (S examined)) as (sel & Hres & Hsub & Hsel & Hex & Hneg).
        exists sel. repeat split; auto; try lia.
        -- apply sublist_cons_r. left. exact Hsub.
        -- intros Hle. apply geb_false in Hfull. lia.
      * destruct (IH (results ++ [img_result keywords img]) (S examined))
          as (sel & Hres & Hsub & Hsel & Hex & Hneg).
        exists (img :: sel). repeat split; auto; try lia.
        -- rewrite Hres, <- app_assoc. reflexivity.
        -- apply sublist_skip. exact Hsub.
        -- intros Hle. apply geb_false in Hfull. lia.
Qed.

Lemma slice_to_sublist {A} (stop : Z) (l : list A) : Py.slice_to stop l `sublist_of` l.
Proof. unfold Py.slice_to. destruct (0 <=? stop); apply sublist_take. Qed.

Lemma slice_to_length {A} (stop : Z) (l : list A) :
  0 <= stop -> Z.of_nat (length (Py.slice_to stop l)) <= stop.
Proof.
  intros Hs. unfold Py.slice_to. destruct (0 <=? stop) eqn:E.
  - rewrite length_take. lia.
  - apply Z.leb_gt in E. lia.
Qed.

(** Method 2 builds its results, in document order, from elements the
    loop does not skip, and runs its body on at most [2 * max_results]
    elements. *)
Lemma bing_method2_selected (keywords : string) (max_results : Z) (page : Soup) :
  exists sel,
    fst (bing_method2 keywords max_results page) = map (img_result keywords) sel
    /\ sel `sublist_of` img_tags page
    /\ Forall (fun img => skipped img = false) sel
    /\ Z.of_nat (snd (bing_method2 keywords max_results page)) <= Z.max 0 (2 * max_results).
Proof.
  unfold bing_method2.
  destruct (bing_imgs_spec keywords max_results
              (Py.slice_to (max_results * 2) (img_tags page)) [] O)
    as (sel & Hres & Hsub & Hsel & Hex & Hneg).
  exists sel. split; [exact Hres|]. split.
  { etransitivity; [exact Hsub|apply slice_to_sublist]. }
  split; [exact Hsel|].
  destruct (Z_le_gt_dec max_results 0) as [Hle|Hgt].
  - rewrite (Hneg Hle). lia.
  - pose proof (slice_to_length (max_results * 2) (img_tags page) ltac:(lia)). lia.
Qed.

Lemma skipped_false (img : ImgTag) :
  skipped img = false ->
  Py.nonempty (img_src img) = true
  /\ Py.startswith (img_src img) "data:" = false
  /\ (Py.isdigit (declared_width img) = true ->
      Py.isdigit (declared_height img) = true ->
      100 <= Py.int_of_digits (declared_width img)
      /\ 100 <= Py.int_of_digits (declared_height img)).
Proof.
  unfold skipped.
  destruct (Py.nonempty (img_src img)); cbn [negb orb]; [|intros Hx; discriminate Hx].
  destruct (Py.startswith (img_src img) "data:"); cbn [negb orb];
    [intros Hx; discriminate Hx|].
  match goal with |- context [existsb ?f blacklist] => destruct (existsb f blacklist) end;
    [intros Hx; discriminate Hx|].
  intros Hdim. split; [reflexivity|]. split; [reflexivity|].
  intros Hw Hh. rewrite Hw, Hh in Hdim. simpl in Hdim.
  apply orb_false_iff in Hdim as [H1 H2].
  apply Z.ltb_ge in H1, H2. split; assumption.
Qed.

Lemma normalized_not_data (u : string) :
  Py.startswith (_normalize_url u) "data:" = false.
Proof.
  destruct (normalize_cases u) as [[_ ->]|[(t & _ & ->)|[[Hp ->]|[[Hp ->]|[_ ->]]]]];
    try reflexivity.
  all: destruct (startswith_inv _ _ Hp) as [t ->]; reflexivity.
Qed.

(** C9. Method 2 of [search_bing_images] builds its results, in document
    order, from elements of the page whose [src] does not start with
    [data:] and whose declared width and height, when both are numeric,
    are both at least 100; no result has an image URL that starts with
    [data:]; and the body of its loop runs on at most [2 * max_results]
    elements. *)
Theorem method2_filters (keywords : string) (max_results : Z) (page : Soup) :
  0 <= max_results ->
  (exists sel,
     fst (bing_method2 keywords max_results page) = map (img_result keywords) sel
     /\ sel `sublist_of` img_tags page
     /\ Forall (fun img =>
                  Py.startswith (img_src img) "data:" = false
                  /\ (Py.isdigit (declared_width img) = true ->
                      Py.isdigit (declared_height img) = true ->
                      100 <= Py.int_of_digits (declared_width img)
                      /\ 100 <= Py.int_of_digits (declared_height img)
                      /\ 100 <= width (img_result keywords img)
                      /\ 100 <= height (img_result keywords img))) sel)
  /\ Forall (fun r => Py.startswith (image r) "data:" = false)
            (fst (bing_method2 keywords max_results page))
  /\ Z.of_nat (snd (bing_method2 keywords max_results page)) <= 2 * max_results.
Proof.
  intros Hmax.
  destruct (bing_method2_selected keywords max_results page)
    as (sel & Hres & Hsub & Hsel & Hex).
  split; [|split].
  - exists sel. split; [exact Hres|]. split; [exact Hsub|].
    eapply Forall_impl; [exact Hsel|]. intros img Hskip.
    destruct (skipped_false img Hskip) as (_ & Hdata & Hdim).
    split; [exact Hdata|]. intros Hw Hh. destruct (Hdim Hw Hh) as [H1 H2].
    unfold img_result; simpl. rewrite Hw, Hh. auto.
  - rewrite Hres. apply Forall_forall. intros r Hr.
    apply list_elem_of_fmap in Hr as (img & -> & _). apply normalized_not_data.
  - lia.
Qed.

Lemma method2_filters_witness :
  Forall (fun r => Py.startswith (image r) "data:" = false)
         (fst (bing_method2 "cats" 5 sample_page))
  /\ Z.of_nat (snd (bing_method2 "cats" 5 sample_page)) <= 2 * 5.
Proof.
  destruct (method2_filters "cats" 5 sample_page) as (_ & Hdata & Hcount).
  - lia.
  - split; [exact Hdata|exact Hcount].
Defined.

(** C10. Missing dimension attributes read as the string 0, which is
    numeric and below 100.  Method 2 therefore builds its results from
    elements none of which lacks both attributes, and each of which either
    declares (or defaults to) a numeric width and a numeric height of at
    least 100 each, or declares a non-numeric width or height. *)
Theorem method2_needs_dimensions (keywords : string) (max_results : Z) (page : Soup) :
  (forall img, img_width img = None ->
     declared_width img = "0" /\ Py.isdigit (declared_width img) = true
     /\ Py.int_of_digits (declared_width img) < 100)
  /\ (forall img, img_height img = None ->
     declared_height img = "0" /\ Py.isdigit (declared_height img) = true
     /\ Py.int_of_digits (declared_height img) < 100)
  /\ exists sel,
       fst (bing_method2 keywords max_results page) = map (img_result keywords) sel
       /\ sel `sublist_of` img_tags page
       /\ Forall (fun img =>
                    ~ (img_width img = None /\ img_height img = None)
                    /\ ((exists sw sh,
                           img_width img = Some sw /\ img_height img = Some sh
                           /\ Py.isdigit sw = true /\ Py.isdigit sh = true
                           /\ 100 <= Py.int_of_digits sw
                           /\ 100 <= Py.int_of_digits sh)
                        \/ (exists s, (img_width img = Some s \/ img_height img = Some s)
                                      /\ Py.isdigit s = false))) sel.
Proof.
  split; [|split].
  - intros img Hw. unfold declared_width. rewrite Hw. repeat split.
  - intros img Hh. unfold declared_height. rewrite Hh. repeat split.
  - destruct (bing_method2_selected keywords max_results page)
      as (sel & Hres & Hsub & Hsel & _).
    exists sel. split; [exact Hres|]. split; [exact Hsub|].
    eapply Forall_impl; [exact Hsel|]. intros img Hskip.
    destruct (skipped_false img Hskip) as (_ & _ & Hdim).
    unfold declared_width, declared_height in *.
    destruct (img_width img) as [sw|] eqn:Ew, (img_height img) as [sh|] eqn:Eh;
      simpl in *.
    + split; [intros [? _]; discriminate|].
      destruct (Py.isdigit sw) eqn:Dw; [|right; exists sw; auto].
      destruct (Py.isdigit sh) eqn:Dh; [|right; exists sh; auto].
      left. destruct (Hdim eq_refl eq_refl). exists sw, sh. auto 10.
    + split; [intros [? _]; discriminate|].
      destruct (Py.isdigit sw) eqn:Dw; [|right; exists sw; auto].
      exfalso. destruct (Hdim eq_refl eq_refl) as [_ Hh]. vm_compute in Hh. auto.
    + split; [intros [_ ?]; discriminate|].
      destruct (Py.isdigit sh) eqn:Dh; [|right; exists sh; auto].
      exfalso. destruct (Hdim eq_refl eq_refl) as [Hw _]. vm_compute in Hw. auto.
    + exfalso. destruct (Hdim eq_refl eq_refl) as [Hw _]. vm_compute in Hw. auto.
Qed.

(** ** search_duckduckgo_images *)

Arguments ddg_pages : simpl never.
Arguments ddg_page : simpl never.
Arguments _get_vqd : simpl never.
Arguments _make_request : simpl never.

Lemma make_request_ok (method target : string) (w : World)
    (r : Response) (rest : list NetOutcome) :
  rate_limit_count w <= 2 ->
  upstream w = Answers r :: rest ->
  status_code r = 200 ->
  _make_request method target None w = (Ret r, after_ok (verb_of method) target w rest).
Proof.
  intros Hc Hup H200.
  unfold _make_request.
  change (range max_retries) with [0; 1; 2].
  cbn [make_request_from].
  unfold attempt_once, choose_proxy, try_except, send_and_check, raise_for_status, when,
    set_rate_limit_count, log, bind, ret, get_world, modify, next_answer.
  cbn [fst snd rate_limit_count upstream].
  apply Z.ltb_ge in Hc. rewrite Hc. cbn [fst snd rate_limit_count upstream].
  rewrite Hup, H200. reflexivity.
Qed.

Section Primary.
Context `{PyLib}.

Lemma ddg_rows_length (max_results : Z) (rows : list JValue)
    (results : list ImageResult) (cache : gset Key) :
  Z.of_nat (length results) <= Z.max 0 max_results ->
  Z.of_nat (length (fst (snd (ddg_rows max_results rows results cache))))
  <= Z.max 0 max_results.
Proof.
  revert results cache. induction rows as [|row rest IH]; intros results cache Hlen.
  - exact Hlen.
  - simpl. destruct (Z.of_nat (length results) >=? max_results) eqn:Hfull; [exact Hlen|].
    apply geb_false in Hfull.
    destruct row; try exact Hlen.
    destruct (truthy _); [|apply IH; exact Hlen].
    destruct (hash_key _) as [k|]; [|exact Hlen].
    destruct (bool_decide _); [apply IH; exact Hlen|].
    destruct (ddg_result _ _) as [result|]; [|exact Hlen].
    apply IH. rewrite length_app. simpl. lia.
Qed.

(** Whatever the rows of a page are, the loop adds the results of rows it
    selects in order, skipping a row without an image URL or with a raw
    image URL seen before. *)
Lemma ddg_rows_selects (max_results : Z) (rows : list JValue)
    (results : list ImageResult) (cache : gset Key) :
  exists sel built,
    fst (snd (ddg_rows max_results rows results cache)) = results ++ built
    /\ selected_from rows cache sel built.
Proof.
  unfold selected_from.
  revert results cache. induction rows as [|row rest IH]; intros results cache.
  - exists [], []. simpl. rewrite app_nil_r. repeat split; constructor.
  - assert (Hnone : exists sel built,
              results = results ++ built
              /\ Forall2 (fun row r => row_result row = Some r) sel built
              /\ sel `sublist_of` row :: rest
              /\ Forall (fun row => has_image row = true
                                   /\ exists k, row_key row = Some k /\ k ∉ cache) sel
              /\ NoDup (map row_key sel)).
    { exists [], []. rewrite app_nil_r. repeat split; try constructor.
      apply sublist_nil_l. }
    assert (Hskip : forall results' : list ImageResult,
              (exists sel built,
                 results' = results ++ built
                 /\ Forall2 (fun row r => row_result row = Some r) sel built
                 /\ sel `sublist_of` rest
                 /\ Forall (fun row => has_image row = true
                                      /\ exists k, row_key row = Some k /\ k ∉ cache) sel
                 /\ NoDup (map row_key sel)) ->
              exists sel built,
                 results' = results ++ built
                 /\ Forall2 (fun row r => row_result row = Some r) sel built
                 /\ sel `sublist_of` row :: rest
                 /\ Forall (fun row => has_image row = true
                                      /\ exists k, row_key row = Some k /\ k ∉ cache) sel
                 /\ NoDup (map row_key sel)).
    { intros results' (sel & built & H1 & H2 & H3 & H4 & H5).
      exists sel, built. repeat split; auto. apply sublist_cons_r. left. exact H3. }
    simpl. destruct (_ >=? _); [exact Hnone|].
    destruct row as [| | | | |fields]; try exact Hnone.
    destruct (truthy (dict_get fields "image" JNull)) eqn:Htruthy;
      [|apply Hskip; apply IH].
    destruct (hash_key (dict_get fields "image" JNull)) as [k|] eqn:Hkey;
      [|exact Hnone].
    destruct (bool_decide (k ∈ cache)) eqn:Hseen; [apply Hskip; apply IH|].
    apply bool_decide_eq_false in Hseen.
    destruct (ddg_result fields (dict_get fields "image" JNull)) as [result|] eqn:Hres;
      [|exact Hnone].
    destruct (IH (results ++ [result]) ({[k]} ∪ cache))
      as (sel & built & H1 & H2 & H3 & H4 & H5).
    exists (JObj fields :: sel), (result :: built).
    split; [rewrite H1, <- app_assoc; reflexivity|].
    split; [constructor; [exact Hres|exact H2]|].
    split; [apply sublist_skip; exact H3|].
    split.
    { constructor.
      - split; [exact Htruthy|]. exists k. split; [exact Hkey|exact Hseen].
      - eapply Forall_impl; [exact H4|]. intros row' [Himg (k' & Hk' & Hnot)].
        split; [exact Himg|]. exists k'. split; [exact Hk'|].
        intros Hin. apply Hnot. apply elem_of_union. right. exact Hin. }
    simpl. constructor; [|exact H5].
    intros Hin. apply list_elem_of_fmap in Hin as (row' & Hrow' & Hin).
    rewrite Forall_forall in H4. destruct (H4 row' Hin) as [_ (k' & Hk' & Hnot)].
    unfold row_key at 1 in Hrow'. simpl in Hrow'. rewrite Hkey in Hrow'.
    rewrite Hk' in Hrow'. injection Hrow' as ->.
    apply Hnot. apply elem_of_union. left. apply elem_of_singleton. reflexivity.
Qed.

Lemma ddg_rows_well_formed (max_results : Z) (rows : list JValue)
    (results : list ImageResult) (cache : gset Key) :
  Forall well_formed rows ->
  let out := ddg_rows max_results rows results cache in
  let built := omap row_result (kept rows cache) in
  fst out = RowsDone
  /\ fst (snd out)
     = results ++ take (Z.to_nat (max_results - Z.of_nat (length results))) built
  /\ (Z.of_nat (length results + length built) < max_results ->
      snd (snd out) = seen_after rows cache).
Proof.
  intros Hwf. revert results cache.
  induction Hwf as [|row rest [[fields ->] Himg] _ IH]; intros results cache.
  - simpl. rewrite take_nil, app_nil_r. auto.
  - cbn [ddg_rows kept seen_after row_image] in *.
    destruct (Z.of_nat (length results) >=? max_results) eqn:Hfull.
    { apply geb_true in Hfull. cbn [fst snd].
      replace (Z.to_nat (max_results - Z.of_nat (length results))) with O by lia.
      rewrite take_0, app_nil_r. split; [reflexivity|]. split; [reflexivity|].
      rewrite Nat2Z.inj_add. lia. }
    apply geb_false in Hfull.
    destruct (truthy (dict_get fields "image" JNull)) eqn:Htruthy.
    2:{ destruct (dict_get fields "image" JNull) as [| | |s| |] eqn:Eimg;
          try apply IH.
        simpl in Htruthy. rewrite Htruthy. simpl. apply IH. }
    destruct (Himg eq_refl) as [[s Hs] [result Hresult]].
    rewrite Hs in *. simpl in Htruthy. rewrite Htruthy.
    cbn [hash_key andb].
    destruct (bool_decide (Some (inl s) ∈ cache)) eqn:Hseen; cbn [negb].
    { apply IH. }
    cbn [row_result] in Hresult. rewrite Hs in Hresult. rewrite Hresult.
    specialize (IH (results ++ [result]) ({[Some (inl s)]} ∪ cache)).
    cbv zeta in IH. destruct IH as (IH1 & IH2 & IH3).
    cbv zeta. split; [exact IH1|]. split.
    + rewrite IH2. cbn [omap list_omap row_result]. rewrite Hs, Hresult.
      rewrite length_app. simpl length.
      replace (Z.to_nat (max_results - Z.of_nat (length results)))
        with (S (Z.to_nat (max_results - Z.of_nat (length results + 1)))) by lia.
      rewrite <- app_assoc. reflexivity.
    + intros Hlt. apply IH3. cbn [omap list_omap row_result] in Hlt. rewrite Hs, Hresult in Hlt.
      rewrite length_app. simpl length in *. lia.
Qed.

Lemma kept_app (p1 p2 : list JValue) (seen : gset Key) :
  kept (p1 ++ p2) seen = kept p1 seen ++ kept p2 (seen_after p1 seen).
Proof.
  revert seen. induction p1 as [|row rest IH]; intros seen; [reflexivity|].
  simpl. destruct (row_image row); try apply IH.
  destruct (Py.nonempty s && negb (bool_decide (Some (inl s) ∈ seen))); [|apply IH].
  simpl. rewrite IH. reflexivity.
Qed.

Lemma ddg_pages_cons (max_results page : Z) (rest : list Z)
    (results : list ImageResult) (cache : gset Key) :
  ddg_pages max_results (page :: rest) results cache
  = if Z.of_nat (length results) >=? max_results then ret (results, cache)
    else (st <- ddg_page max_results results cache ;;
          ddg_pages max_results rest (fst st) (snd st)).
Proof. reflexivity. Qed.

Section ResultInvariant.
Variable max_results : Z.
Variable P : list ImageResult -> Prop.
Hypothesis P_rows :
  forall rows results cache,
    P results -> P (fst (snd (ddg_rows max_results rows results cache))).

Lemma ddg_page_invariant (results : list ImageResult) (cache : gset Key) (w : World) :
  P results ->
  exists st, fst (ddg_page max_results results cache w) = Ret st /\ P (fst st).
Proof.
  intros HP. unfold ddg_page, try_except, bind.
  destruct (_make_request _ _ _ w) as [[response|e] w1]; simpl; [|eauto].
  destruct (page_rows response) as [rows|]; simpl; [|eauto].
  specialize (P_rows rows results cache HP).
  destruct (ddg_rows max_results rows results cache) as [[|] st]; simpl in *; eauto.
Qed.

Lemma ddg_pages_invariant (pages : list Z) (results : list ImageResult)
    (cache : gset Key) (w : World) :
  P results ->
  exists st, fst (ddg_pages max_results pages results cache w) = Ret st /\ P (fst st).
Proof.
  revert results cache w. induction pages as [|page rest IH]; intros results cache w HP.
  - unfold ddg_pages. simpl. eauto.
  - rewrite ddg_pages_cons. destruct (_ >=? _); [simpl; eauto|].
    unfold bind. destruct (ddg_page_invariant results cache w HP) as (st & Hst & HPst).
    destruct (ddg_page max_results results cache w) as [r w1]. simpl in Hst. subst r.
    apply IH. exact HPst.
Qed.

Lemma search_duckduckgo_invariant (keywords : string) (w : World) :
  P [] ->
  exists results,
    fst (search_duckduckgo_images keywords max_results w) = Ret results /\ P results.
Proof.
  intros HP. unfold search_duckduckgo_images, try_except, bind.
  destruct (log EvPrimary w) as [[[]|e] w1]; simpl;
    [|exists []; split; [reflexivity|exact HP]].
  destruct (_get_vqd keywords w1) as [[[]|e] w2]; simpl;
    [|exists []; split; [reflexivity|exact HP]].
  destruct (ddg_pages_invariant [0; 100] [] ∅ w2 HP) as (st & Hst & HPst).
  destruct (ddg_pages max_results [0; 100] [] ∅ w2) as [r w3]. simpl in Hst. subst r.
  simpl. exists (fst st). split; [reflexivity|exact HPst].
Qed.

End ResultInvariant.

Lemma ddg_page_served (max_results : Z) (results : list ImageResult) (cache : gset Key)
    (w : World) (r : Response) (rest : list NetOutcome) (rows : list JValue) :
  rate_limit_count w <= 2 ->
  upstream w = Answers r :: rest ->
  status_code r = 200 ->
  page_rows r = Some rows ->
  Forall well_formed rows ->
  exists w',
    ddg_page max_results results cache w
    = (Ret (snd (ddg_rows max_results rows results cache)), w')
    /\ rate_limit_count w' <= 2 /\ upstream w' = rest.
Proof.
  intros Hc Hup H200 Hrows Hwf.
  unfold ddg_page, try_except, bind.
  rewrite (make_request_ok _ _ w r rest Hc Hup H200). rewrite Hrows.
  destruct (ddg_rows_well_formed max_results rows results cache Hwf) as (Hdone & _).
  destruct (ddg_rows max_results rows results cache) as [e st]. simpl in Hdone. subst e.
  simpl. eexists. split; [reflexivity|]. simpl. split; [lia|reflexivity].
Qed.

Lemma search_duckduckgo_served (keywords : string) (max_results : Z) (w : World)
    (r0 r1 r2 : Response) (rest : list NetOutcome) (p1 p2 : list JValue) :
  rate_limit_count w <= 2 ->
  upstream w = Answers r0 :: Answers r1 :: Answers r2 :: rest ->
  status_code r0 = 200 -> status_code r1 = 200 -> status_code r2 = 200 ->
  page_rows r1 = Some p1 -> page_rows r2 = Some p2 ->
  Forall well_formed p1 -> Forall well_formed p2 ->
  fst (search_duckduckgo_images keywords max_results w)
  = Ret (take (Z.to_nat max_results) (omap row_result (kept (p1 ++ p2) ∅))).
Proof.
  intros Hc Hup H0 H1 H2 Hp1 Hp2 Hwf1 Hwf2.
  unfold search_duckduckgo_images, try_except, bind.
  cbn [log modify fst snd].
  unfold _get_vqd, try_except, bind.
  match goal with |- context [_make_request ?m ?u None ?w0] =>
    rewrite (make_request_ok m u w0 r0 (Answers r1 :: Answers r2 :: rest))
      by (simpl; auto) end.
  cbn [ret fst snd].
  set (w1 := after_ok _ _ _ _).
  assert (Hc1 : rate_limit_count w1 <= 2) by (subst w1; simpl; lia).
  assert (Hup1 : upstream w1 = Answers r1 :: Answers r2 :: rest) by reflexivity.
  clearbody w1.
  rewrite kept_app, omap_app.
  set (X1 := omap row_result (kept p1 ∅)).
  set (X2 := omap row_result (kept p2 (seen_after p1 ∅))).
  rewrite ddg_pages_cons.
  destruct (Z_le_gt_dec max_results 0) as [Hzero|Hzero].
  { rewrite geb_true_intro by (simpl; lia). simpl.
    replace (Z.to_nat max_results) with O by lia. reflexivity. }
  rewrite geb_false_intro by (simpl; lia). unfold bind.
  destruct (ddg_page_served max_results [] ∅ w1 r1 (Answers r2 :: rest) p1
              Hc1 Hup1 H1 Hp1 Hwf1) as (w2 & -> & Hc2 & Hup2).
  destruct (ddg_rows_well_formed max_results p1 [] ∅ Hwf1) as (_ & Hres1 & Hcache1).
  fold X1 in Hres1, Hcache1. cbv zeta in Hres1, Hcache1.
  simpl in Hres1, Hcache1. rewrite Z.sub_0_r in Hres1.
  destruct (ddg_rows max_results p1 [] ∅) as [e1 [results1 cache1]].
  simpl in Hres1, Hcache1. subst results1. cbn [fst snd].
  rewrite ddg_pages_cons.
  destruct (Z_le_gt_dec max_results (Z.of_nat (length (take (Z.to_nat max_results) X1))))
    as [Hfull|Hfull].
  - rewrite geb_true_intro by exact Hfull. simpl. f_equal.
    rewrite length_take in Hfull. rewrite take_app_le by lia. reflexivity.
  - rewrite geb_false_intro by lia. rewrite length_take in Hfull.
    assert (Hshort : (length X1 < Z.to_nat max_results)%nat) by lia.
    rewrite take_ge in * by lia.
    rewrite Hcache1 by lia.
    unfold bind.
    destruct (ddg_page_served max_results X1 (seen_after p1 ∅) w2 r2 rest p2
                Hc2 Hup2 H2 Hp2 Hwf2) as (w3 & -> & _ & _).
    destruct (ddg_rows_well_formed max_results p2 X1 (seen_after p1 ∅) Hwf2)
      as (_ & Hres2 & _).
    fold X2 in Hres2. cbv zeta in Hres2.
    destruct (ddg_rows max_results p2 X1 (seen_after p1 ∅)) as [e2 [results2 cache2]].
    simpl in Hres2. subst results2. cbn [fst snd].
    unfold ddg_pages. simpl. f_equal.
    rewrite take_app_ge by lia. f_equal. f_equal. lia.
Qed.

Lemma kept_sublist (rows : list JValue) (seen : gset Key) :
  kept rows seen `sublist_of` rows.
Proof.
  revert seen. induction rows as [|row rest IH]; intros seen; [constructor|].
  simpl. destruct (row_image row); try (apply sublist_cons_r; left; apply IH).
  destruct (_ && _); [apply sublist_skip; apply IH|apply sublist_cons_r; left; apply IH].
Qed.

Lemma kept_unseen (rows : list JValue) (seen : gset Key) (row : JValue) :
  row ∈ kept rows seen ->
  exists s, row_image row = JStr s /\ Py.nonempty s = true /\ Some (inl s) ∉ seen.
Proof.
  revert seen. induction rows as [|row' rest IH]; intros seen Hin.
  - apply elem_of_nil in Hin. contradiction.
  - simpl in Hin. destruct (row_image row') as [| | |s'| |] eqn:Eimg; try (apply IH; exact Hin).
    destruct (Py.nonempty s') eqn:Hne; simpl in Hin; [|apply IH; exact Hin].
    destruct (bool_decide (Some (inl s') ∈ seen)) eqn:Hseen; simpl in Hin;
      [apply IH; exact Hin|].
    apply bool_decide_eq_false in Hseen.
    apply elem_of_cons in Hin as [->|Hin].
    + exists s'. auto.
    + destruct (IH _ Hin) as (s & Hs & Hn & Hnot). exists s. split; [exact Hs|].
      split; [exact Hn|]. set_solver.
Qed.

Lemma kept_nodup (rows : list JValue) (seen : gset Key) :
  NoDup (map row_image (kept rows seen)).
Proof.
  revert seen. induction rows as [|row rest IH]; intros seen; [constructor|].
  simpl. destruct (row_image row) as [| | |s| |] eqn:Eimg; try apply IH.
  destruct (Py.nonempty s && negb (bool_decide (Some (inl s) ∈ seen))); [|apply IH].
  simpl. constructor; [|apply IH].
  rewrite Eimg. intros Hin. apply list_elem_of_fmap in Hin as (row' & Hrow' & Hin).
  destruct (kept_unseen _ _ _ Hin) as (s' & Hs' & _ & Hnot).
  rewrite Hs' in Hrow'. injection Hrow' as ->. set_solver.
Qed.

(** rows whose image URLs are pairwise different strings are all kept,
    but for the one that may have an empty URL *)
Lemma kept_distinct (rows : list JValue) (seen : gset Key) :
  string_images rows ->
  NoDup (map row_image rows) ->
  (forall row s, row ∈ rows -> row_image row = JStr s -> Some (inl s) ∉ seen) ->
  kept rows seen = List.filter has_image rows.
Proof.
  intros Hstr. revert seen. induction Hstr as [|row rest [s Hs] _ IH]; intros seen Hnd Hseen;
    [reflexivity|].
  simpl in Hnd. apply NoDup_cons in Hnd as [Hnotin Hnd].
  simpl. unfold has_image at 1. rewrite Hs. simpl.
  destruct (Py.nonempty s) eqn:Hne; simpl.
  - rewrite bool_decide_eq_false_2 by (apply (Hseen row s); [left|exact Hs]).
    simpl. f_equal. apply IH; [exact Hnd|].
    intros row' s' Hin' Hs'. specialize (Hseen row' s' ltac:(right; exact Hin') Hs').
    assert (s' <> s).
    { intros ->. apply Hnotin. rewrite Hs, <- Hs'. apply list_elem_of_fmap. eauto. }
    apply not_elem_of_union. split; [|exact Hseen].
    apply not_elem_of_singleton. congruence.
  - apply IH; [exact Hnd|].
    intros row' s' Hin' Hs'. apply (Hseen row' s'); [right; exact Hin'|exact Hs'].
Qed.

Lemma filter_has_image_length (rows : list JValue) :
  string_images rows ->
  NoDup (map row_image rows) ->
  (length rows <= S (length (List.filter has_image rows)))%nat.
Proof.
  intros Hstr. induction Hstr as [|row rest [s Hs] Hrest IH]; intros Hnd; [simpl; lia|].
  simpl in Hnd. apply NoDup_cons in Hnd as [Hnotin Hnd].
  simpl. unfold has_image at 1. rewrite Hs. simpl.
  destruct (Py.nonempty s) eqn:Hne; simpl; [specialize (IH Hnd); lia|].
  destruct s; [|discriminate].
  (* the empty URL is this one: every other row has one *)
  assert (Hall : List.filter has_image rest = rest).
  { clear IH. induction Hrest as [|row' rest' [s' Hs'] _ IH']; [reflexivity|].
    simpl. unfold has_image at 1. rewrite Hs'. simpl.
    destruct s' as [|a s'].
    - exfalso. apply Hnotin. simpl. rewrite Hs, Hs'. left.
    - simpl. f_equal. apply IH'.
      + intros Hin. apply Hnotin. simpl. right. exact Hin.
      + simpl in Hnd. apply NoDup_cons in Hnd as [_ Hnd]. exact Hnd. }
  rewrite Hall. lia.
Qed.

Lemma row_result_image (row : JValue) (r : ImageResult) (s : string) :
  row_result row = Some r -> row_image row = JStr s -> image r = _normalize_url s
  \/ (s = "" /\ image r = "").
Proof.
  destruct row as [| | | | |fields]; try discriminate. simpl. intros Hr Hs.
  rewrite Hs in Hr. unfold ddg_result in Hr.
  destruct (normalize_value (JStr s)) as [img|] eqn:Himg; [|discriminate].
  simpl in Hr.
  repeat match type of Hr with
         | context [mbind _ ?o] => destruct o; simpl in Hr; [|discriminate]
         end.
  injection Hr as <-. simpl.
  unfold normalize_value in Himg. simpl in Himg.
  destruct (Py.nonempty s) eqn:Hne.
  - injection Himg as <-. left. reflexivity.
  - injection Himg as <-. destruct s; [|discriminate]. right. auto.
Qed.

Lemma omap_all_some (l : list JValue) :
  Forall (fun row => is_Some (row_result row)) l ->
  Forall2 (fun row r => row_result row = Some r) l (omap row_result l).
Proof.
  induction 1 as [|row rest [r Hr] _ IH]; [constructor|].
  cbn [omap list_omap]. rewrite Hr. constructor; assumption.
Qed.

Lemma omap_take_all_some (n : nat) (l : list JValue) :
  Forall (fun row => is_Some (row_result row)) l ->
  take n (omap row_result l) = omap row_result (take n l).
Proof.
  intros Hall. revert n. induction Hall as [|row rest [r Hr] _ IH]; intros n.
  - cbn [omap list_omap]. rewrite !take_nil. reflexivity.
  - destruct n as [|n]; [reflexivity|].
    cbn [omap list_omap take]. rewrite Hr. cbn [take]. f_equal. apply IH.
Qed.

Lemma well_formed_has_result (l : list JValue) :
  Forall well_formed l ->
  Forall (fun row => is_Some (row_result row)) (List.filter has_image l).
Proof.
  induction 1 as [|row rest [_ Hrow] _ IH]; [constructor|].
  simpl. destruct (has_image row) eqn:Himg; [|exact IH].
  constructor; [|exact IH]. apply Hrow. exact Himg.
Qed.

Lemma filter_sublist (f : JValue -> bool) (l : list JValue) :
  List.filter f l `sublist_of` l.
Proof.
  induction l as [|x l IH]; [constructor|]. simpl.
  destruct (f x); [apply sublist_skip|apply sublist_cons_r; left]; exact IH.
Qed.

Lemma absolute_images_nodup (sel : list JValue) (results : list ImageResult) :
  Forall2 (fun row r => row_result row = Some r) sel results ->
  Forall absolute_image sel ->
  NoDup (map row_image sel) ->
  NoDup (map image results).
Proof.
  intros Hres Habs Hnd.
  assert (Heq : map JStr (map image results) = map row_image sel).
  { clear Hnd. induction Hres as [|row r sel' results' Hr _ IH]; [reflexivity|].
    apply Forall_cons in Habs as [(s & Hs & Hstart) Habs].
    simpl. rewrite (IH Habs). f_equal. rewrite Hs. f_equal.
    destruct (row_result_image row r s Hr Hs) as [->|[-> _]].
    - apply normalize_absolute. exact Hstart.
    - destruct Hstart; discriminate. }
  rewrite <- Heq in Hnd. eapply NoDup_fmap_1. exact Hnd.
Qed.

Lemma search_images_primary (keywords : string) (max_results : Z) (w : World)
    (r : ImageResult) (results : list ImageResult) :
  fst (search_duckduckgo_images keywords max_results w) = Ret (r :: results) ->
  fst (search_images keywords max_results w) = Ret (r :: results, "DuckDuckGo").
Proof.
  intros Hprimary. unfold search_images, bind.
  destruct (search_duckduckgo_images keywords max_results w) as [res w1].
  simpl in Hprimary. subst res. reflexivity.
Qed.

(** C8 (as amended). For every state of the world and every bound that
    is not negative the primary extractor returns, and returns at most
    [max_results] results.  Whatever the rows of a page, its loop adds
    results of rows of the page in their order, never of a row whose
    image URL is empty or whose raw image URL was seen before.  When the
    provider serves its two pages with well-formed rows, the
    results are built, in provider order, from the first [max_results]
    entries that are kept, an entry being skipped when its image URL is
    empty or its raw image URL was already seen.  In particular, with 6
    and 4 entries whose raw image URLs are pairwise different strings and
    [max_results = 8], the outcome has the primary engine and exactly 8
    results, built from 8 entries with pairwise different raw image URLs;
    the image URLs of the results themselves are pairwise different when
    every raw URL is absolute. *)
Theorem primary_extractor_results :
  (forall keywords max_results w, 0 <= max_results ->
     exists results,
       fst (search_duckduckgo_images keywords max_results w) = Ret results
       /\ Z.of_nat (length results) <= max_results)
  /\ (forall max_results rows results cache,
       exists sel built,
         fst (snd (ddg_rows max_results rows results cache)) = results ++ built
         /\ selected_from rows cache sel built)
  /\ (forall keywords max_results w p1 p2, serves_two_pages w p1 p2 ->
       fst (search_duckduckgo_images keywords max_results w)
       = Ret (take (Z.to_nat max_results) (omap row_result (kept (p1 ++ p2) ∅)))
       /\ kept (p1 ++ p2) ∅ `sublist_of` (p1 ++ p2)
       /\ NoDup (map row_image (kept (p1 ++ p2) ∅))
       /\ Forall (fun row => has_image row = true) (kept (p1 ++ p2) ∅))
  /\ (forall keywords w p1 p2, serves_two_pages w p1 p2 ->
       length p1 = 6%nat -> length p2 = 4%nat ->
       string_images (p1 ++ p2) -> NoDup (map row_image (p1 ++ p2)) ->
       exists sel results,
         fst (search_images keywords 8 w) = Ret (results, "DuckDuckGo")
         /\ length results = 8%nat
         /\ sel `sublist_of` (p1 ++ p2)
         /\ Forall2 (fun row r => row_result row = Some r) sel results
         /\ NoDup (map row_image sel)
         /\ (Forall absolute_image (p1 ++ p2) -> NoDup (map image results))).
Proof.
  split; [|split; [exact ddg_rows_selects|split]].
  - intros keywords max_results w Hmax.
    destruct (search_duckduckgo_invariant max_results
                (fun results => Z.of_nat (length results) <= Z.max 0 max_results)
                (ddg_rows_length max_results) keywords w ltac:(simpl; lia))
      as (results & Hres & Hlen).
    exists results. split; [exact Hres|lia].
  - intros keywords max_results w p1 p2 (Hc & Hwf & r0 & r1 & r2 & rest & Hup & H0 & H1 & H2 & Hp1 & Hp2).
    apply Forall_app in Hwf as [Hwf1 Hwf2].
    split; [eapply search_duckduckgo_served; eauto|].
    split; [apply kept_sublist|]. split; [apply kept_nodup|].
    apply Forall_forall. intros row Hrow.
    destruct (kept_unseen _ _ _ Hrow) as (s & Hs & Hne & _).
    unfold has_image. rewrite Hs. exact Hne.
  - intros keywords w p1 p2 Hserved Hl1 Hl2 Hstr Hnd.
    pose proof Hserved as (Hc & Hwf & r0 & r1 & r2 & rest & Hup & H0 & H1 & H2 & Hp1 & Hp2).
    pose proof Hwf as Hwf'. apply Forall_app in Hwf' as [Hwf1 Hwf2].
    pose proof (search_duckduckgo_served keywords 8 w r0 r1 r2 rest p1 p2
                  Hc Hup H0 H1 H2 Hp1 Hp2 Hwf1 Hwf2) as Hrun.
    rewrite kept_distinct in Hrun by (auto; intros; set_solver).
    pose proof (well_formed_has_result _ Hwf) as Hsome.
    rewrite omap_take_all_some in Hrun by exact Hsome.
    set (sel := take (Z.to_nat 8) (List.filter has_image (p1 ++ p2))) in *.
    assert (Hsel : Forall (fun row => is_Some (row_result row)) sel).
    { apply Forall_take. exact Hsome. }
    pose proof (omap_all_some sel Hsel) as Hres.
    assert (Hlen : length sel = 8%nat).
    { subst sel. rewrite length_take.
      pose proof (filter_has_image_length _ Hstr Hnd) as Hlong.
      rewrite length_app, Hl1, Hl2 in Hlong. lia. }
    assert (Hlenr : length (omap row_result sel) = 8%nat).
    { rewrite <- (Forall2_length _ _ _ Hres). exact Hlen. }
    assert (Hsub : sel `sublist_of` (p1 ++ p2)).
    { subst sel. etransitivity; [apply sublist_take|apply filter_sublist]. }
    assert (Hnds : NoDup (map row_image sel)).
    { eapply sublist_NoDup; [exact Hnd|apply fmap_sublist; exact Hsub]. }
    exists sel, (omap row_result sel).
    split.
    { destruct (omap row_result sel) as [|r results] eqn:E; [discriminate|].
      apply search_images_primary. exact Hrun. }
    split; [exact Hlenr|]. split; [exact Hsub|]. split; [exact Hres|].
    split; [exact Hnds|].
    intros Habs. eapply absolute_images_nodup; [exact Hres| |exact Hnds].
    rewrite Forall_forall in Habs |- *. intros row Hrow. apply Habs.
    eapply elem_of_sublist; [exact Hrow|exact Hsub].
Qed.

End Primary.

(** ** The scenario of two pages *)

Lemma entries_well_formed (us : list string) :
  Forall (well_formed (H := plain_lib)) (map entry us).
Proof.
  induction us as [|u us IH]; [constructor|].
  constructor; [|exact IH]. split; [eexists; reflexivity|].
  intros Htruthy. split; [eexists; reflexivity|].
  unfold entry, row_result, ddg_result. simpl dict_get.
  unfold normalize_value. simpl in Htruthy. simpl truthy. rewrite Htruthy.
  simpl. eauto.
Qed.

Lemma entries_string_images (us : list string) : string_images (map entry us).
Proof.
  induction us as [|u us IH]; [constructor|].
  constructor; [eexists; reflexivity|exact IH].
Qed.

Lemma entries_distinct (us : list string) :
  NoDup us -> NoDup (map row_image (map entry us)).
Proof.
  intros Hnd. rewrite <- list_fmap_compose.
  apply (NoDup_fmap_2 (A := string) (B := JValue)); [|exact Hnd].
  intros u1 u2 Heq. injection Heq as ->. reflexivity.
Qed.

Lemma primary_world_serves (us1 us2 : list string) :
  serves_two_pages (H := plain_lib) (primary_world (map entry us1) (map entry us2))
                   (map entry us1) (map entry us2).
Proof.
  split; [simpl; lia|]. split.
  - rewrite <- fmap_app. apply entries_well_formed.
  - eexists _, _, _, _. repeat split.
Qed.

Lemma primary_extractor_results_witness :
  exists results,
    fst (search_images (H := plain_lib) "cats" 8 (primary_world six_absolute four_absolute))
    = Ret (results, "DuckDuckGo")
    /\ length results = 8%nat
    /\ NoDup (map image results).
Proof.
  destruct (proj2 (proj2 (proj2 (primary_extractor_results (H := plain_lib))))
              "cats" (primary_world six_absolute four_absolute)
              six_absolute four_absolute)
    as (sel & results & Hrun & Hlen & _ & _ & _ & Hnodup).
  - apply (primary_world_serves
             ["https://img.example/1.jpg"; "https://img.example/2.jpg";
              "https://img.example/3.jpg"; "https://img.example/4.jpg";
              "https://img.example/5.jpg"; "https://img.example/6.jpg"]
             ["https://img.example/7.jpg"; "https://img.example/8.jpg";
              "https://img.example/9.jpg"; "http://img.example/10.jpg"]).
  - reflexivity.
  - reflexivity.
  - apply (entries_string_images
             ["https://img.example/1.jpg"; "https://img.example/2.jpg";
              "https://img.example/3.jpg"; "https://img.example/4.jpg";
              "https://img.example/5.jpg"; "https://img.example/6.jpg";
              "https://img.example/7.jpg"; "https://img.example/8.jpg";
              "https://img.example/9.jpg"; "http://img.example/10.jpg"]).
  - apply (entries_distinct
             ["https://img.example/1.jpg"; "https://img.example/2.jpg";
              "https://img.example/3.jpg"; "https://img.example/4.jpg";
              "https://img.example/5.jpg"; "https://img.example/6.jpg";
              "https://img.example/7.jpg"; "https://img.example/8.jpg";
              "https://img.example/9.jpg"; "http://img.example/10.jpg"]).
    apply (bool_decide_unpack _). vm_compute. exact I.
  - exists results. split; [exact Hrun|]. split; [exact Hlen|].
    apply Hnodup. repeat constructor; eexists; (split; [reflexivity|]);
      first [left; reflexivity|right; reflexivity].
Defined.

(** C8 as stated fails in its scenario. The two pages hold 6 and 4 entries
    whose ten image URLs are pairwise different, the bound is 8, and the
    outcome has 8 results of the primary engine, but the first two carry
    the same image URL: their raw URLs differ and normalise to one. *)
Lemma primary_returns_duplicate_image :
  NoDup (map row_image (six_mixed ++ four_absolute))
  /\ length six_mixed = 6%nat /\ length four_absolute = 4%nat
  /\ exists results,
       fst (search_images (H := plain_lib) "cats" 8 (primary_world six_mixed four_absolute))
       = Ret (results, "DuckDuckGo")
       /\ length results = 8%nat
       /\ map image results
          = ["https://img.example/1.jpg"; "https://img.example/1.jpg";
             "https://img.example/3.jpg"; "https://img.example/4.jpg";
             "https://img.example/5.jpg"; "https://img.example/6.jpg";
             "https://img.example/7.jpg"; "https://img.example/8.jpg"]
       /\ ~ NoDup (map image results).
Proof.
  split.
  { apply (entries_distinct
             ["img.example/1.jpg"; "https://img.example/1.jpg";
              "https://img.example/3.jpg"; "https://img.example/4.jpg";
              "https://img.example/5.jpg"; "https://img.example/6.jpg";
              "https://img.example/7.jpg"; "https://img.example/8.jpg";
              "https://img.example/9.jpg"; "http://img.example/10.jpg"]).
    apply (bool_decide_unpack _). vm_compute. exact I. }
  split; [reflexivity|]. split; [reflexivity|].
  eexists. split; [vm_compute; reflexivity|]. split; [reflexivity|].
  split; [reflexivity|].
  simpl. intros Hnd. apply NoDup_cons in Hnd as [Hnotin _].
  apply Hnotin. left.
Qed.

(** ** The URLs of the results *)

Arguments search_duckduckgo_images : simpl never.
Arguments search_bing_images : simpl never.

Section Urls.
Context `{PyLib}.

Lemma normalize_value_ok (v : JValue) (u : string) :
  normalize_value v = Some u -> url_ok u = true.
Proof.
  unfold normalize_value. destruct (truthy v); [|intros [= <-]; reflexivity].
  destruct v; try discriminate. intros [= <-]. apply normalize_url_ok.
Qed.

Lemma ddg_result_urls (fields : list (string * JValue)) (image_url : JValue)
    (r : ImageResult) :
  ddg_result fields image_url = Some r -> urls_ok r.
Proof.
  unfold ddg_result. intros Hr.
  destruct (normalize_value image_url) as [img|] eqn:Himg; [|discriminate].
  simpl in Hr.
  destruct (normalize_value (dict_get fields "thumbnail" (JStr ""))) as [thumb|] eqn:Hthumb;
    [|discriminate].
  simpl in Hr.
  destruct (normalize_value (dict_get fields "url" (JStr ""))) as [page|] eqn:Hpage;
    [|discriminate].
  simpl in Hr.
  repeat match type of Hr with
         | context [mbind _ ?o] => destruct o; simpl in Hr; [|discriminate]
         end.
  injection Hr as <-. unfold urls_ok; simpl.
  repeat split; eapply normalize_value_ok; eassumption.
Qed.

Lemma ddg_rows_urls (max_results : Z) (rows : list JValue)
    (results : list ImageResult) (cache : gset Key) :
  Forall urls_ok results ->
  Forall urls_ok (fst (snd (ddg_rows max_results rows results cache))).
Proof.
  revert results cache. induction rows as [|row rest IH]; intros results cache Hok.
  - exact Hok.
  - simpl. destruct (_ >=? _); [exact Hok|].
    destruct row; try exact Hok.
    destruct (truthy _); [|apply IH; exact Hok].
    destruct (hash_key _) as [k|]; [|exact Hok].
    destruct (bool_decide _); [apply IH; exact Hok|].
    destruct (ddg_result _ _) as [result|] eqn:Hres; [|exact Hok].
    apply IH. apply Forall_app. split; [exact Hok|].
    constructor; [|constructor]. eapply ddg_result_urls. exact Hres.
Qed.

Lemma search_url_ok : url_ok search_url = true.
Proof. reflexivity. Qed.

Lemma bing_matches_urls (keywords : string) (max_results : Z)
    (matches : list (string * string * string)) (results : list ImageResult) :
  Forall urls_ok results ->
  Forall urls_ok (bing_matches keywords max_results matches results).
Proof.
  revert results. induction matches as [|[[murl turl] t] rest IH]; intros results Hok.
  - exact Hok.
  - simpl. destruct (_ >=? _); [exact Hok|].
    apply IH. apply Forall_app. split; [exact Hok|].
    constructor; [|constructor]. unfold urls_ok; simpl.
    auto using normalize_url_ok, search_url_ok.
Qed.

Lemma bing_scripts_urls (keywords : string) (max_results : Z)
    (scripts : list (option string)) (results : list ImageResult) :
  Forall urls_ok results ->
  Forall urls_ok (bing_scripts keywords max_results scripts results).
Proof.
  revert results. induction scripts as [|script rest IH]; intros results Hok.
  - exact Hok.
  - simpl. destruct script as [content|]; [|apply IH; exact Hok].
    destruct (_ && _); [|apply IH; exact Hok].
    pose proof (bing_matches_urls keywords max_results
                  (Py.slice_to max_results (re_findall_murl content)) results Hok) as Hm.
    destruct (bing_matches _ _ _ _); [apply IH; constructor|exact Hm].
Qed.

Lemma bing_method2_urls (keywords : string) (max_results : Z) (page : Soup) :
  Forall urls_ok (fst (bing_method2 keywords max_results page)).
Proof.
  destruct (bing_method2_selected keywords max_results page) as (sel & -> & _).
  apply Forall_forall. intros r Hr.
  apply list_elem_of_fmap in Hr as (img & -> & _).
  unfold urls_ok, img_result; simpl. auto using normalize_url_ok, search_url_ok.
Qed.

Lemma search_bing_urls (keywords : string) (max_results : Z) (w : World)
    (results : list ImageResult) :
  fst (search_bing_images keywords max_results w) = Ret results ->
  Forall urls_ok results.
Proof.
  unfold search_bing_images, try_except, bind.
  cbn [log modify fst snd].
  destruct (_make_request _ _ _ _) as [[response|e] w2]; simpl;
    [|intros [= <-]; constructor].
  destruct (soup response) as [page|]; simpl; [|intros [= <-]; constructor].
  pose proof (bing_scripts_urls keywords max_results (script_tags page) []
                ltac:(constructor)) as Hs.
  destruct (bing_scripts _ _ _ _) as [|r rs]; simpl; intros [= <-].
  - apply bing_method2_urls.
  - exact Hs.
Qed.

Lemma search_duckduckgo_urls (keywords : string) (max_results : Z) (w : World)
    (results : list ImageResult) :
  fst (search_duckduckgo_images keywords max_results w) = Ret results ->
  Forall urls_ok results.
Proof.
  intros Hres.
  destruct (search_duckduckgo_invariant max_results (Forall urls_ok)
              (ddg_rows_urls max_results) keywords w ltac:(constructor))
    as (results' & Hres' & Hok).
  congruence.
Qed.

End Urls.

(** C7 (as amended). [_normalize_url] is idempotent; it returns an
    absolute https URL, and an absolute http URL, unchanged; it maps a
    protocol-relative URL to the https URL of the same host and path, and
    a bare host-relative string to the string behind [https://]; it maps
    the empty string to itself.  Every URL field (image, thumbnail, source
    page) of every result of either extractor is empty or starts with
    [http://] or [https://]. *)
Theorem normalize_url_forms :
  (forall u, _normalize_url (_normalize_url u) = _normalize_url u)
  /\ (forall u, Py.startswith u "https://" = true -> _normalize_url u = u)
  /\ (forall t, _normalize_url ("//" +:+ t) = "https://" +:+ t)
  /\ _normalize_url "//x/y.jpg" = "https://x/y.jpg"
  /\ (forall u, Py.nonempty u = true -> Py.startswith u "//" = false ->
                Py.startswith u "http://" = false ->
                Py.startswith u "https://" = false ->
                _normalize_url u = "https://" +:+ u)
  /\ _normalize_url "x/y.jpg" = "https://x/y.jpg"
  /\ (forall u, Py.startswith u "http://" = true -> _normalize_url u = u)
  /\ _normalize_url "" = ""
  /\ (forall (lib : PyLib) keywords max_results w results,
        fst (search_duckduckgo_images keywords max_results w) = Ret results ->
        Forall urls_ok results)
  /\ (forall (lib : PyLib) keywords max_results w results,
        fst (search_bing_images keywords max_results w) = Ret results ->
        Forall urls_ok results).
Proof.
  split; [exact normalize_idempotent|].
  split; [intros u Hu; apply normalize_absolute; left; exact Hu|].
  split; [reflexivity|]. split; [reflexivity|].
  split.
  { intros u Hn H2 H3 H4. unfold _normalize_url. rewrite Hn, H2, H3, H4. reflexivity. }
  split; [reflexivity|].
  split; [intros u Hu; apply normalize_absolute; right; exact Hu|].
  split; [reflexivity|].
  split.
  - intros lib keywords max_results w results. apply search_duckduckgo_urls.
  - intros lib keywords max_results w results. apply search_bing_urls.
Qed.

Lemma normalize_url_forms_witness :
  _normalize_url "https://x/y.jpg" = "https://x/y.jpg"
  /\ Forall urls_ok [mkImageResult "" "http://img.example/1.jpg" "" "" 0 0 "DuckDuckGo"].
Proof.
  split.
  - apply (proj1 (proj2 normalize_url_forms)). reflexivity.
  - apply (proj1 (proj2 (proj2 (proj2 (proj2 (proj2 (proj2 (proj2 (proj2
             normalize_url_forms))))))))
             plain_lib "cats" 3 http_row_world).
    vm_compute. reflexivity.
Defined.

(** C7 as stated fails in its last part: the primary extractor returns a
    result whose image URL is an http URL, returned as it came, and whose
    thumbnail and source page URLs are empty. *)
Lemma extractor_returns_http_and_empty_urls :
  fst (search_duckduckgo_images (H := plain_lib) "cats" 3 http_row_world)
  = Ret [mkImageResult "" "http://img.example/1.jpg" "" "" 0 0 "DuckDuckGo"]
  /\ is_https "http://img.example/1.jpg" = false
  /\ is_https "" = false.
Proof. vm_compute. repeat split; reflexivity. Qed.

(** ** search_images *)

Section Quiet.

Lemma quiet_ret {A} (a : A) : quiet (ret a).
Proof. intros w. reflexivity. Qed.

Lemma quiet_raise {A} (e : Exn) : quiet (@raise A e).
Proof. intros w. reflexivity. Qed.

Lemma quiet_get_world : quiet get_world.
Proof. intros w. reflexivity. Qed.

Lemma quiet_bind {A B} (m : M A) (k : A -> M B) :
  quiet m -> (forall a, quiet (k a)) -> quiet (bind m k).
Proof.
  intros Hm Hk w. unfold bind. specialize (Hm w).
  destruct (m w) as [[a|e] w1]; simpl in *; [|exact Hm].
  rewrite (Hk a w1). exact Hm.
Qed.

Lemma quiet_try_except {A} (m : M A) (h : Exn -> option (M A)) :
  quiet m -> (forall e k, h e = Some k -> quiet k) -> quiet (try_except m h).
Proof.
  intros Hm Hh w. unfold try_except. specialize (Hm w).
  destruct (m w) as [[a|e] w1]; simpl in *; [exact Hm|].
  destruct (h e) as [k|] eqn:Hk; [|exact Hm].
  rewrite (Hh e k Hk w1). exact Hm.
Qed.

Lemma quiet_log (e : Event) : extractor_event e = false -> quiet (log e).
Proof. intros He w. unfold extractor_calls. simpl. rewrite He. reflexivity. Qed.

Lemma quiet_sleep (lo hi : Z) : quiet (sleep lo hi).
Proof. apply quiet_log. reflexivity. Qed.

Lemma quiet_set_rate_limit_count (c : Z) : quiet (set_rate_limit_count c).
Proof. intros w. reflexivity. Qed.

Lemma quiet_set_proxies (l : list string) : quiet (set_proxies l).
Proof. intros w. reflexivity. Qed.

Lemma quiet_set_current_proxy_index (i : nat) : quiet (set_current_proxy_index i).
Proof. intros w. reflexivity. Qed.

Lemma quiet_set_failed_proxies (s : gset string) : quiet (set_failed_proxies s).
Proof. intros w. reflexivity. Qed.

Lemma quiet_next_feed : quiet next_feed.
Proof. intros w. unfold next_feed. destruct (proxy_source w); reflexivity. Qed.

Lemma quiet_next_answer : quiet next_answer.
Proof. intros w. unfold next_answer. destruct (upstream w); reflexivity. Qed.

Lemma quiet_when (b : bool) (m : M unit) : quiet m -> quiet (when b m).
Proof. intros Hm. destruct b; [exact Hm|apply quiet_ret]. Qed.

End Quiet.

Ltac quiet_step :=
  first
    [ match goal with Hq : _ |- _ => apply Hq end
    | apply quiet_ret | apply quiet_raise | apply quiet_get_world
    | apply quiet_sleep | apply quiet_set_rate_limit_count | apply quiet_set_proxies
    | apply quiet_set_current_proxy_index | apply quiet_set_failed_proxies
    | apply quiet_next_feed | apply quiet_next_answer
    | apply quiet_log; reflexivity
    | apply quiet_when
    | apply quiet_bind; [|intros ?]
    | match goal with
      | |- quiet (if ?b then _ else _) => destruct b
      | |- quiet (match ?x with _ => _ end) => destruct x
      end ].

Ltac quiet_auto := repeat quiet_step.

Lemma quiet_load_proxies : quiet load_proxies.
Proof. unfold load_proxies. quiet_auto. Qed.

Lemma quiet_scan_proxies (n : nat) : quiet (scan_proxies n).
Proof.
  induction n as [|n IH]; unfold scan_proxies; [apply quiet_ret|fold scan_proxies].
  quiet_auto.
Qed.

Lemma quiet_get_proxy : quiet get_proxy.
Proof.
  pose proof quiet_load_proxies. pose proof quiet_scan_proxies.
  unfold get_proxy. quiet_auto.
Qed.

Lemma quiet_mark_proxy_failed (p : option string) : quiet (mark_proxy_failed p).
Proof. unfold mark_proxy_failed. quiet_auto. Qed.

Lemma quiet_rotate_proxy : quiet rotate_proxy.
Proof. unfold rotate_proxy. quiet_auto. Qed.

Lemma quiet_choose_proxy (cur kw : option string) : quiet (choose_proxy cur kw).
Proof. pose proof quiet_get_proxy. unfold choose_proxy. quiet_auto. Qed.

Lemma quiet_raise_for_status (r : Response) : quiet (raise_for_status r).
Proof. unfold raise_for_status. quiet_auto. Qed.

Lemma quiet_send_and_check (verb : Verb) (target : string) (attempt : Z)
    (cur kw : option string) : quiet (send_and_check verb target attempt cur kw).
Proof.
  pose proof quiet_mark_proxy_failed. pose proof quiet_rotate_proxy.
  pose proof quiet_raise_for_status.
  unfold send_and_check. quiet_auto.
Qed.

Lemma quiet_on_exception (attempt : Z) (cur : option string) (e : Exn) (k : M Step) :
  on_exception attempt cur e = Some k -> quiet k.
Proof.
  pose proof quiet_mark_proxy_failed. pose proof quiet_rotate_proxy.
  destruct e; simpl; intros Hk; try discriminate; injection Hk as <-; quiet_auto.
Qed.

Lemma quiet_attempt_once (verb : Verb) (target : string) (attempt : Z)
    (cur kw : option string) : quiet (attempt_once verb target attempt cur kw).
Proof.
  unfold attempt_once. apply quiet_bind; [apply quiet_choose_proxy|intros locals].
  apply quiet_bind; [|intros step; apply quiet_ret].
  apply quiet_try_except; [apply quiet_send_and_check|].
  intros e k. apply quiet_on_exception.
Qed.

Lemma quiet_make_request_from (attempts : list Z) (verb : Verb) (target : string)
    (cur kw : option string) : quiet (make_request_from attempts verb target cur kw).
Proof.
  revert cur kw. induction attempts as [|attempt rest IH]; intros cur kw; simpl.
  - apply quiet_raise.
  - apply quiet_bind; [apply quiet_attempt_once|intros r].
    destruct (fst r); [apply quiet_ret|apply IH].
Qed.

Lemma quiet_make_request (method target : string) (kw : option string) :
  quiet (_make_request method target kw).
Proof. apply quiet_make_request_from. Qed.

Lemma quiet_get_vqd (keywords : string) : quiet (_get_vqd keywords).
Proof.
  unfold _get_vqd. apply quiet_try_except.
  - apply quiet_bind; [apply quiet_make_request|intros; apply quiet_ret].
  - intros e k [= <-]. apply quiet_ret.
Qed.

(** ** When the network is down *)

Lemma guarded_attempt_down (verb : Verb) (target : string) (attempt : Z)
    (cur kw : option string) (w : World) :
  upstream w = [] ->
  let run := try_except (send_and_check verb target attempt cur kw)
                        (on_exception attempt cur) w in
  upstream (snd run) = []
  /\ (fst run = Ret Continue \/ exists e, fst run = Raise e)
  /\ (max_retries - 1 <= attempt -> exists e, fst run = Raise e).
Proof.
  intros Hup.
  unfold try_except, send_and_check, on_exception, sleep, log, bind, ret, raise,
    get_world, modify, next_answer.
  simpl. rewrite Hup. simpl.
  change (Py.contains "429" "" || Py.contains "rate limit" (Py.lower "")) with false.
  cbv iota.
  destruct (attempt <? max_retries - 1) eqn:Hlt; simpl.
  - split; [reflexivity|]. split; [left; reflexivity|]. apply Z.ltb_lt in Hlt. lia.
  - split; [reflexivity|]. split; [right|]; eauto.
Qed.

Lemma make_request_from_down (attempts : list Z) (verb : Verb) (target : string)
    (cur kw : option string) (w : World) :
  upstream w = [] ->
  (forall a, last attempts = Some a -> max_retries - 1 <= a) ->
  upstream (snd (make_request_from attempts verb target cur kw w)) = []
  /\ exists e, fst (make_request_from attempts verb target cur kw w) = Raise e.
Proof.
  revert cur kw w. induction attempts as [|attempt rest IH]; intros cur kw w Hup Hlast.
  - simpl. split; [exact Hup|]. eauto.
  - simpl. unfold attempt_once, bind.
    destruct (choose_proxy_frame cur kw w) as [_ Hup1]. rewrite Hup in Hup1.
    destruct (choose_proxy cur kw w) as [[locals|e] w1]; simpl in *; [|eauto].
    destruct (guarded_attempt_down verb target attempt (fst locals) (snd locals) w1 Hup1)
      as (Hup2 & Hres & Hfinal).
    destruct (try_except _ _ w1) as [[[response|]|e] w2]; simpl in *.
    + destruct Hres as [Hres|[e Hres]]; discriminate.
    + destruct rest as [|next rest'].
      * destruct (Hfinal (Hlast attempt eq_refl)) as [e He]. discriminate.
      * apply IH; [exact Hup2|]. intros a Ha. apply Hlast. exact Ha.
    + eauto.
Qed.

Lemma make_request_down (method target : string) (w : World) :
  upstream w = [] ->
  upstream (snd (_make_request method target None w)) = []
  /\ exists e, fst (_make_request method target None w) = Raise e.
Proof.
  intros Hup. apply make_request_from_down; [exact Hup|].
  intros a [= <-]. reflexivity.
Qed.

Lemma get_vqd_down (keywords : string) (w : World) :
  upstream w = [] -> upstream (snd (_get_vqd keywords w)) = [].
Proof.
  intros Hup. unfold _get_vqd, try_except, bind.
  destruct (make_request_down "GET" "https://duckduckgo.com" w Hup) as (Hup1 & e & He).
  destruct (_make_request _ _ _ w) as [r w1]. simpl in *. subst r. simpl. exact Hup1.
Qed.

Section Orchestrator.
Context `{PyLib}.

Lemma quiet_ddg_page (max_results : Z) (results : list ImageResult) (cache : gset Key) :
  quiet (ddg_page max_results results cache).
Proof.
  unfold ddg_page. apply quiet_try_except.
  - apply quiet_bind; [apply quiet_make_request|intros response].
    quiet_auto.
  - intros e k [= <-]. apply quiet_ret.
Qed.

Lemma quiet_ddg_pages (max_results : Z) (pages : list Z)
    (results : list ImageResult) (cache : gset Key) :
  quiet (ddg_pages max_results pages results cache).
Proof.
  revert results cache. induction pages as [|page rest IH]; intros results cache.
  - apply quiet_ret.
  - unfold ddg_pages; fold ddg_pages. pose proof quiet_ddg_page. quiet_auto.
Qed.

(** an extractor is entered once in a call of it, and the other not at all *)
Lemma search_duckduckgo_calls (keywords : string) (max_results : Z) (w : World) :
  extractor_calls (snd (search_duckduckgo_images keywords max_results w))
  = EvPrimary :: extractor_calls w.
Proof.
  unfold search_duckduckgo_images, try_except, bind.
  cbn [log modify fst snd].
  set (w1 := mkWorld _ _ _ _ _ _ (EvPrimary :: trace w)).
  assert (Hw1 : extractor_calls w1 = EvPrimary :: extractor_calls w) by reflexivity.
  rewrite <- Hw1. clearbody w1.
  pose proof (quiet_get_vqd keywords w1) as Hvqd.
  destruct (_get_vqd keywords w1) as [[[]|e] w2]; simpl in *; [|exact Hvqd].
  pose proof (quiet_ddg_pages max_results [0; 100] [] ∅ w2) as Hpages.
  destruct (ddg_pages max_results [0; 100] [] ∅ w2) as [[st|e] w3]; simpl in *;
    congruence.
Qed.

Lemma search_bing_calls (keywords : string) (max_results : Z) (w : World) :
  extractor_calls (snd (search_bing_images keywords max_results w))
  = EvFallback :: extractor_calls w.
Proof.
  unfold search_bing_images, try_except, bind.
  cbn [log modify fst snd].
  set (w1 := mkWorld _ _ _ _ _ _ (EvFallback :: trace w)).
  assert (Hw1 : extractor_calls w1 = EvFallback :: extractor_calls w) by reflexivity.
  rewrite <- Hw1. clearbody w1.
  pose proof (quiet_make_request "GET" search_url None w1) as Hreq.
  destruct (_make_request "GET" search_url None w1) as [[response|e] w2]; simpl in *;
    [|exact Hreq].
  destruct (soup response) as [page|]; simpl; [|exact Hreq].
  destruct (bing_scripts _ _ _ _); simpl; exact Hreq.
Qed.

Lemma ddg_page_down (max_results : Z) (results : list ImageResult) (cache : gset Key)
    (w : World) :
  upstream w = [] ->
  fst (ddg_page max_results results cache w) = Ret (results, cache)
  /\ upstream (snd (ddg_page max_results results cache w)) = [].
Proof.
  intros Hup. unfold ddg_page, try_except, bind.
  destruct (make_request_down "GET" "https://duckduckgo.com/i.js" w Hup) as (Hup1 & e & He).
  destruct (_make_request _ _ _ w) as [r w1]. simpl in *. subst r. simpl. auto.
Qed.

Lemma ddg_pages_down (max_results : Z) (pages : list Z) (results : list ImageResult)
    (cache : gset Key) (w : World) :
  upstream w = [] ->
  fst (ddg_pages max_results pages results cache w) = Ret (results, cache)
  /\ upstream (snd (ddg_pages max_results pages results cache w)) = [].
Proof.
  revert w. induction pages as [|page rest IH]; intros w Hup.
  - split; [reflexivity|exact Hup].
  - unfold ddg_pages; fold ddg_pages.
    destruct (_ >=? _); [split; [reflexivity|exact Hup]|].
    unfold bind. destruct (ddg_page_down max_results results cache w Hup) as [Hres Hup1].
    destruct (ddg_page max_results results cache w) as [r w1]. simpl in *. subst r.
    simpl. apply IH. exact Hup1.
Qed.

Lemma search_duckduckgo_down (keywords : string) (max_results : Z) (w : World) :
  upstream w = [] ->
  fst (search_duckduckgo_images keywords max_results w) = Ret []
  /\ upstream (snd (search_duckduckgo_images keywords max_results w)) = [].
Proof.
  intros Hup. unfold search_duckduckgo_images, try_except, bind.
  cbn [log modify fst snd].
  set (w1 := mkWorld _ _ _ _ _ _ (EvPrimary :: trace w)).
  assert (Hup1 : upstream w1 = []) by exact Hup. clearbody w1.
  pose proof (get_vqd_down keywords w1 Hup1) as Hup2.
  destruct (_get_vqd keywords w1) as [[[]|e] w2]; simpl in *; [|auto].
  destruct (ddg_pages_down max_results [0; 100] [] ∅ w2 Hup2) as [Hres Hup3].
  destruct (ddg_pages max_results [0; 100] [] ∅ w2) as [r w3]. simpl in *. subst r.
  simpl. auto.
Qed.

Lemma search_bing_down (keywords : string) (max_results : Z) (w : World) :
  upstream w = [] ->
  fst (search_bing_images keywords max_results w) = Ret [].
Proof.
  intros Hup. unfold search_bing_images, try_except, bind.
  cbn [log modify fst snd].
  set (w1 := mkWorld _ _ _ _ _ _ (EvFallback :: trace w)).
  assert (Hup1 : upstream w1 = []) by exact Hup. clearbody w1.
  destruct (make_request_down "GET" search_url w1 Hup1) as (_ & e & He).
  destruct (_make_request _ _ _ w1) as [r w2]. simpl in *. subst r. reflexivity.
Qed.

(** both extractors absorb every exception *)
Lemma search_duckduckgo_returns (keywords : string) (max_results : Z) (w : World) :
  exists results, fst (search_duckduckgo_images keywords max_results w) = Ret results.
Proof.
  unfold search_duckduckgo_images, try_except.
  match goal with |- context [bind ?m ?k w] => destruct (bind m k w) as [[results|e] w1] end;
    simpl; eauto.
Qed.

Lemma search_bing_returns (keywords : string) (max_results : Z) (w : World) :
  exists results, fst (search_bing_images keywords max_results w) = Ret results.
Proof.
  unfold search_bing_images, try_except.
  match goal with |- context [bind ?m ?k w] => destruct (bind m k w) as [[results|e] w1] end;
    simpl; eauto.
Qed.

(** C1. [search_images] enters the primary extractor once; when that
    returns results they are the outcome, with the primary engine, and the
    state is the one the primary extractor left, the fallback extractor
    not having been entered; otherwise it enters the fallback extractor
    once, on the state the primary left, and the outcome is the fallback's
    results with the fallback engine, or no results with the engine
    None. *)
Theorem search_images_protocol (keywords : string) (max_results : Z) (w : World) :
  let p := search_duckduckgo_images keywords max_results w in
  let f := search_bing_images keywords max_results (snd p) in
  let run := search_images keywords max_results w in
  exists primary,
    fst p = Ret primary
    /\ match primary with
       | _ :: _ =>
           run = (Ret (primary, "DuckDuckGo"), snd p)
           /\ extractor_calls (snd run) = EvPrimary :: extractor_calls w
       | [] =>
           exists fallback,
             fst f = Ret fallback
             /\ snd run = snd f
             /\ extractor_calls (snd run) = EvFallback :: EvPrimary :: extractor_calls w
             /\ match fallback with
                | _ :: _ => fst run = Ret (fallback, "Bing")
                | [] => fst run = Ret ([], "None")
                end
       end.
Proof.
  cbv zeta.
  pose proof (search_duckduckgo_calls keywords max_results w) as Hcalls.
  destruct (search_duckduckgo_returns keywords max_results w) as [primary Hp].
  exists primary. split; [exact Hp|].
  unfold search_images, bind.
  destruct (search_duckduckgo_images keywords max_results w) as [rp w1].
  simpl in Hp, Hcalls. subst rp. cbn [fst snd].
  destruct primary as [|r primary].
  - pose proof (search_bing_calls keywords max_results w1) as Hcalls2.
    destruct (search_bing_returns keywords max_results w1) as [fallback Hf].
    exists fallback. split; [exact Hf|].
    destruct (search_bing_images keywords max_results w1) as [rf w2].
    simpl in Hf, Hcalls2. subst rf. cbn [fst snd].
    destruct fallback as [|r fallback]; simpl; (split; [reflexivity|]);
      (split; [|reflexivity]); rewrite Hcalls2, Hcalls; reflexivity.
  - simpl. split; [reflexivity|exact Hcalls].
Qed.

(** C2. [search_images] returns for every query, bound and state of the
    world, whatever the outside answers and whatever raises inside the
    extractors: the outcome is the primary engine with results, the
    fallback engine with results, or the engine None with none. *)
Theorem search_images_total (keywords : string) (max_results : Z) (w : World) :
  exists results engine w',
    search_images keywords max_results w = (Ret (results, engine), w')
    /\ ((engine = "DuckDuckGo" /\ results <> [])
        \/ (engine = "Bing" /\ results <> [])
        \/ (engine = "None" /\ results = []))
    /\ (upstream w = [] -> results = [] /\ engine = "None").
Proof.
  assert (Hdown : upstream w = [] ->
                  fst (search_images keywords max_results w) = Ret ([], "None")).
  { intros Hup. unfold search_images, bind.
    destruct (search_duckduckgo_down keywords max_results w Hup) as [Hp Hup1].
    destruct (search_duckduckgo_images keywords max_results w) as [rp w1].
    simpl in *. subst rp.
    pose proof (search_bing_down keywords max_results w1 Hup1) as Hf.
    destruct (search_bing_images keywords max_results w1) as [rf w2].
    simpl in *. subst rf. reflexivity. }
  revert Hdown.
  unfold search_images, bind.
  destruct (search_duckduckgo_returns keywords max_results w) as [primary Hp].
  destruct (search_duckduckgo_images keywords max_results w) as [rp w1].
  simpl in Hp. subst rp.
  destruct primary as [|r primary].
  - destruct (search_bing_returns keywords max_results w1) as [fallback Hf].
    destruct (search_bing_images keywords max_results w1) as [rf w2].
    simpl in Hf. subst rf.
    destruct fallback as [|r fallback]; simpl; intros Hdown; eexists _, _, _;
      (split; [reflexivity|]).
    + split; [right; right; split; reflexivity|]. intros _. split; reflexivity.
    + split; [right; left; split; [reflexivity|discriminate]|].
      intros Hup. specialize (Hdown Hup). discriminate.
  - simpl. intros Hdown. eexists _, _, _. split; [reflexivity|].
    split; [left; split; [reflexivity|discriminate]|].
    intros Hup. specialize (Hdown Hup). discriminate.
Qed.

End Orchestrator.

(** * Further properties of the code *)

Ltac open_guarded :=
  unfold guarded, try_except, send_and_check, on_exception, raise_for_status, when,
    mark_proxy_failed, rotate_proxy,
    set_rate_limit_count, set_failed_proxies, set_current_proxy_index,
    sleep, log, bind, ret, raise, get_world, modify, next_answer;
  simpl.

Ltac break_run :=
  match goal with
  | |- context [if ?b then _ else _] => destruct b eqn:?
  | |- context [match ?x with _ => _ end] =>
      lazymatch type of x with
      | prod _ _ => fail
      | Res _ => fail
      | _ => first [ is_var x; destruct x | destruct x eqn:? ]
      end
  end.

Ltac grows :=
  let x := fresh "x" in let Hx := fresh "Hx" in
  intros x Hx;
  repeat first [ exact Hx | apply elem_of_union; right ].

Ltac marked :=
  let p := fresh "p" in let Hp := fresh "Hp" in
  intros p Hp;
  repeat match type of Hp with
         | _ ∈ _ ∪ _ => apply elem_of_union in Hp as [Hp|Hp]
         | _ ∈ {[ _ ]} => apply elem_of_singleton in Hp; subst p; right; split; [reflexivity|assumption]
         end;
  try (left; exact Hp).

Ltac pool_leaf :=
  repeat match goal with
         | |- _ /\ _ => split
         | |- _ = _ => reflexivity
         | |- _ ⊆ _ => grows
         | |- forall p, _ ∈ _ -> _ => marked
         end.

Lemma guarded_pool verb target attempt cur kw w :
  let run := guarded verb target attempt cur kw w in
  proxies (snd run) = proxies w /\ proxy_source (snd run) = proxy_source w
  /\ upstream (snd run) = tail (upstream w)
  /\ failed_proxies w ⊆ failed_proxies (snd run)
  /\ (forall p, p ∈ failed_proxies (snd run) ->
        p ∈ failed_proxies w \/ (cur = Some p /\ Py.nonempty p = true)).
Proof.
  open_guarded.
  destruct (upstream w) as [|[response|e] rest]; simpl.
  - repeat (break_match; simpl); pool_leaf.
  - repeat (break_match; simpl); pool_leaf.
  - destruct e; simpl; repeat (break_match; simpl); pool_leaf.
Qed.

Ltac statuses :=
  unfold is_rate_limited, is_http_error, max_retries in *;
  repeat match goal with
         | H : (_ || _) = true |- _ => apply orb_true_iff in H
         | H : (_ || _) = false |- _ => apply orb_false_iff in H as [? ?]
         | H : (_ && _) = true |- _ => apply andb_true_iff in H as [? ?]
         | H : (_ && _) = false |- _ => apply andb_false_iff in H
         | H : (_ =? _) = true |- _ => apply Z.eqb_eq in H
         | H : (_ =? _) = false |- _ => apply Z.eqb_neq in H
         | H : (_ <? _) = true |- _ => apply Z.ltb_lt in H
         | H : (_ <? _) = false |- _ => apply Z.ltb_ge in H
         | H : (_ <=? _) = true |- _ => apply Z.leb_le in H
         | H : (_ <=? _) = false |- _ => apply Z.leb_gt in H
         end.

Lemma guarded_counter verb target attempt cur kw w :
  let run := guarded verb target attempt cur kw w in
  let c := rate_limit_count w in
  let c' := rate_limit_count (snd run) in
  match fst run with
  | Ret Continue => c <= c' <= c + 1
  | Ret (Return r) => c' = if status_code r =? 200 then Z.max 0 (c - 1) else c
  | Raise e => c <= c' <= c + 2
  end.
Proof.
  open_guarded.
  destruct (upstream w) as [|[response|e] rest]; simpl.
  - repeat (break_run; simpl); try lia.
  - repeat (break_run; simpl); try reflexivity; statuses; lia.
  - destruct e; simpl; repeat (break_run; simpl); try lia.
Qed.

Lemma guarded_result verb target attempt cur kw w :
  let run := guarded verb target attempt cur kw w in
  match fst run with
  | Ret (Return r) =>
      head (upstream w) = Some (Answers r) /\ is_http_error (status_code r) = false
  | Ret Continue => attempt < max_retries - 1
  | Raise e =>
      (head (upstream w) = Some (Fails e)
       \/ (exists r, head (upstream w) = Some (Answers r)
                     /\ is_http_error (status_code r) = true
                     /\ e = RequestException (http_error_message r))
       \/ (upstream w = [] /\ e = RequestException ""))
      /\ (max_retries - 1 <= attempt
          \/ e = IndexError \/ exists msg, e = OtherException msg)
  end.
Proof.
  open_guarded.
  destruct (upstream w) as [|[response|e] rest]; simpl.
  - repeat (break_run; simpl);
      first [ apply Z.ltb_lt; assumption
            | split; [right; right; split; reflexivity| left; apply Z.ltb_ge; assumption] ].
  - repeat (break_run; simpl);
      first [ apply Z.ltb_lt; assumption
            | split; [reflexivity|assumption]
            | split; [right; left; eexists; repeat split; eauto
                     | left; apply Z.ltb_ge; assumption]
            | exfalso; statuses; lia ].
  - destruct e; simpl; repeat (break_run; simpl);
      first [ apply Z.ltb_lt; assumption
            | split; [left; reflexivity
                     | first [ left; apply Z.ltb_ge; assumption
                             | right; left; reflexivity
                             | right; right; eexists; reflexivity ] ] ].
Qed.

(** ** What a request costs *)

Lemma sends_app (l1 l2 : list Event) : sends (l1 ++ l2) = (sends l1 + sends l2)%nat.
Proof. unfold sends. rewrite List.filter_app, length_app. reflexivity. Qed.

Lemma slept_app (l1 l2 : list Event) : slept (l1 ++ l2) = slept l1 + slept l2.
Proof.
  induction l1 as [|e l1 IH]; [reflexivity|].
  destruct e; simpl; rewrite IH; lia.
Qed.

Lemma bookkeeping_sends (l : list Event) :
  Forall (fun e => is_bookkeeping e = true) l -> sends l = O.
Proof.
  induction 1 as [|e l He _ IH]; [reflexivity|].
  unfold sends in *. destruct e; simpl in *; try discriminate; exact IH.
Qed.

Lemma bookkeeping_slept (l : list Event) :
  Forall (fun e => is_bookkeeping e = true) l -> slept l = 0.
Proof.
  induction 1 as [|e l He _ IH]; [reflexivity|].
  destruct e; simpl in *; try discriminate; exact IH.
Qed.

Lemma requests_of_app (l1 l2 : list Event) :
  requests_of (l1 ++ l2) = requests_of l2 ++ requests_of l1.
Proof. unfold requests_of. rewrite rev_app_distr, omap_app. reflexivity. Qed.

Lemma requests_of_cons (e : Event) (l : list Event) :
  requests_of (e :: l) = requests_of l ++ from_option (fun r => [r]) [] (request_of e).
Proof.
  unfold requests_of. simpl. rewrite omap_app. simpl.
  destruct (request_of e); reflexivity.
Qed.

Lemma requests_length (l : list Event) : length (requests_of l) = sends l.
Proof.
  induction l as [|e l IH]; [reflexivity|].
  rewrite requests_of_cons, length_app, IH. unfold sends.
  destruct e; simpl; lia.
Qed.

Lemma bookkeeping_requests (l : list Event) :
  Forall (fun e => is_bookkeeping e = true) l -> requests_of l = [].
Proof.
  intros Hl. apply length_zero_iff_nil. rewrite requests_length.
  apply bookkeeping_sends. exact Hl.
Qed.

Lemma bookkeeping_paced (b : bool) (l l' : list Event) :
  Forall (fun e => is_bookkeeping e = true) l -> paced b (l ++ l') = paced b l'.
Proof.
  induction 1 as [|e l He _ IH]; [reflexivity|].
  destruct e; simpl in *; try discriminate; exact IH.
Qed.

Ltac segment :=
  first [ exists []; split; [reflexivity|]
        | eexists [_]; split; [reflexivity|]
        | eexists [_; _]; split; [reflexivity|]
        | eexists [_; _; _]; split; [reflexivity|]
        | eexists [_; _; _; _]; split; [reflexivity|] ].

Ltac all_bookkeeping := repeat constructor.

Ltac trace_leaf :=
  segment;
  first [ solve [all_bookkeeping]
        | eexists _, _, _; split; [reflexivity|]; split; [lia|]; split; [lia|];
          solve [all_bookkeeping] ].

Lemma guarded_trace verb target attempt cur kw w :
  let run := guarded verb target attempt cur kw w in
  exists evs,
    trace (snd run) = evs ++ EvSend verb target kw (rate_limit_count w) :: trace w
    /\ match fst run with
       | Ret Continue =>
           exists lo hi evs',
             evs = EvSleep lo hi :: evs' /\ 1000 <= lo /\ hi <= 7000
             /\ Forall (fun e => is_bookkeeping e = true) evs'
       | _ => Forall (fun e => is_bookkeeping e = true) evs
       end.
Proof.
  open_guarded.
  destruct (upstream w) as [|[response|e] rest]; simpl.
  - repeat (break_run; simpl); trace_leaf.
  - repeat (break_run; simpl); trace_leaf.
  - destruct e; simpl; repeat (break_run; simpl); trace_leaf.
Qed.

(** ** The pool *)

Ltac reload :=
  match goal with |- context [load_proxies ?w0] =>
    let l := fresh "l" in let rest := fresh "rest" in
    destruct (load_proxies_eq w0) as (l & rest & ->); simpl
  end.

Ltac scan :=
  match goal with |- context [scan_proxies ?n ?w0] =>
    let Hsame := fresh "Hsame" in let Hscan := fresh "Hscan" in
    pose proof (scan_proxies_spec n w0) as [Hsame Hscan];
    destruct (scan_proxies n w0) as [[[?p|]|?e] ?w]; simpl in Hsame, Hscan |- *;
    destruct Hsame as (?Hprox & ?Hfail & ?Hcount & ?Hup & ?Hsrc & ?Htr)
  end.

Ltac open_get_proxy :=
  unfold get_proxy, bind, get_world, log, modify, when, set_failed_proxies, ret; simpl.

Lemma get_proxy_trace (w : World) :
  exists evs, trace (snd (get_proxy w)) = evs ++ trace w
              /\ Forall (fun e => is_bookkeeping e = true) evs.
Proof.
  open_get_proxy.
  destruct (proxies w) as [|p0 l0] eqn:Hprox; simpl.
  { exists []. split; [reflexivity|constructor]. }
  destruct (too_many_failed w); simpl.
  - reload. scan; try reload; rewrite ?Htr; simpl; segment; all_bookkeeping.
  - scan; try reload; rewrite ?Htr; simpl; segment; all_bookkeeping.
Qed.

Lemma get_proxy_loaded (w : World) :
  failed_are_loaded w ->
  failed_are_loaded (snd (get_proxy w))
  /\ forall p, fst (get_proxy w) = Ret (Some p) -> p ∈ proxies (snd (get_proxy w)).
Proof.
  intros Hinv. unfold failed_are_loaded in *.
  open_get_proxy.
  destruct (proxies w) as [|p0 l0] eqn:Hprox; simpl.
  { split; [rewrite Hprox; exact Hinv|]. intros p Hp; discriminate Hp. }
  destruct (too_many_failed w); simpl.
  - reload. scan; try reload.
    + split.
      * intros q Hq. rewrite Hfail in Hq. simpl in Hq. apply elem_of_empty in Hq. contradiction.
      * intros q [= <-]. rewrite Hprox0. apply Hscan.
    + split.
      * intros q Hq. apply elem_of_empty in Hq. contradiction.
      * intros q Hq. injection Hq as Hq. apply head_Some_elem_of. exact Hq.
    + split.
      * intros q Hq. rewrite Hfail in Hq. simpl in Hq. apply elem_of_empty in Hq. contradiction.
      * intros q Hq. discriminate Hq.
  - scan; try reload.
    + split.
      * intros q Hq. rewrite Hfail in Hq. rewrite Hprox0, Hprox. apply Hinv. exact Hq.
      * intros q [= <-]. rewrite Hprox0. apply Hscan.
    + split.
      * intros q Hq. apply elem_of_empty in Hq. contradiction.
      * intros q Hq. injection Hq as Hq. apply head_Some_elem_of. exact Hq.
    + split.
      * intros q Hq. rewrite Hfail in Hq. rewrite Hprox0, Hprox. apply Hinv. exact Hq.
      * intros q Hq. discriminate Hq.
Qed.

Lemma get_proxy_empty (w : World) :
  proxies w = [] -> get_proxy w = (Ret None, w).
Proof. intros Hp. unfold get_proxy, bind, get_world. simpl. rewrite Hp. reflexivity. Qed.

Lemma get_proxy_raises (w : World) (e : Exn) :
  fst (get_proxy w) = Raise e -> e = IndexError.
Proof.
  open_get_proxy.
  destruct (proxies w) as [|p0 l0] eqn:Hprox; simpl; [intros He; discriminate He|].
  destruct (too_many_failed w); simpl.
  - reload. scan; try reload; intros He; try discriminate He.
    injection He as <-. exact Hscan.
  - scan; try reload; intros He; try discriminate He.
    injection He as <-. exact Hscan.
Qed.

Lemma attempt_once_eq verb target attempt cur kw :
  attempt_once verb target attempt cur kw
  = (locals <- choose_proxy cur kw ;;
     step <- guarded verb target attempt (fst locals) (snd locals) ;;
     ret (step, locals)).
Proof. reflexivity. Qed.

Lemma choose_proxy_trace (cur kw : option string) (w : World) :
  exists evs, trace (snd (choose_proxy cur kw w)) = evs ++ trace w
              /\ Forall (fun e => is_bookkeeping e = true) evs.
Proof.
  unfold choose_proxy, bind, get_world, log, modify; simpl.
  destruct (2 <? rate_limit_count w); simpl.
  - set (w0 := mkWorld _ _ _ _ _ _ (EvGetProxy (rate_limit_count w) :: trace w)).
    destruct (get_proxy_trace w0) as (evs & Hevs & Hall).
    exists (evs ++ [EvGetProxy (rate_limit_count w)]).
    split.
    + rewrite <- app_assoc. simpl.
      destruct (get_proxy w0) as [[p|e] w1]; simpl in *; [|exact Hevs].
      destruct (proxy_truthy p); exact Hevs.
    + apply Forall_app. split; [exact Hall|]. repeat constructor.
  - exists []. split; [reflexivity|constructor].
Qed.

(** what the proxy check leaves in the two locals *)
Lemma choose_proxy_locals (cur kw : option string) (w : World) :
  match fst (choose_proxy cur kw w) with
  | Ret (cur', kw') =>
      if 2 <? rate_limit_count w
      then (proxy_truthy cur' = true -> kw' = cur')
           /\ (proxy_truthy cur' = false -> kw' = kw)
      else cur' = cur /\ kw' = kw
  | Raise e => e = IndexError
  end.
Proof.
  unfold choose_proxy, bind, get_world, log, modify; simpl.
  destruct (2 <? rate_limit_count w); simpl; [|split; reflexivity].
  set (w0 := mkWorld _ _ _ _ _ _ (EvGetProxy (rate_limit_count w) :: trace w)).
  pose proof (get_proxy_raises w0) as Hraise.
  destruct (get_proxy w0) as [[p|e] w1]; simpl in *.
  - destruct (proxy_truthy p) eqn:Hp; simpl; rewrite Hp; split; intros; congruence.
  - apply Hraise. reflexivity.
Qed.

Arguments guarded : simpl never.

Lemma slept_nonneg_bookkeeping (l : list Event) :
  Forall (fun e => is_bookkeeping e = true) l -> slept l = 0 /\ sends l = O.
Proof. intros Hl. split; [apply bookkeeping_slept|apply bookkeeping_sends]; exact Hl. Qed.

Lemma tail_consumed {A} (l : list A) :
  exists consumed, l = consumed ++ tail l /\ (length consumed <= 1)%nat.
Proof.
  destruct l as [|a l]; [exists []|exists [a]]; split; simpl; auto.
Qed.

Lemma paced_last_attempt (cevs gevs : list Event) (send : Event) :
  Forall (fun e => is_bookkeeping e = true) cevs ->
  Forall (fun e => is_bookkeeping e = true) gevs ->
  is_send send = true ->
  paced true (rev (gevs ++ send :: cevs)) = true.
Proof.
  intros Hc Hg Hs. rewrite rev_app_distr. simpl. rewrite <- app_assoc. simpl.
  rewrite bookkeeping_paced by (apply Forall_rev; exact Hc).
  simpl. rewrite Hs. simpl.
  rewrite <- (app_nil_r (rev gevs)).
  rewrite bookkeeping_paced by (apply Forall_rev; exact Hg). reflexivity.
Qed.

Lemma paced_retry (more cevs gevs : list Event) (send : Event) (lo hi : Z) :
  Forall (fun e => is_bookkeeping e = true) cevs ->
  Forall (fun e => is_bookkeeping e = true) gevs ->
  is_send send = true ->
  1000 <= lo ->
  paced true (rev (more ++ (EvSleep lo hi :: gevs) ++ send :: cevs))
  = paced true (rev more).
Proof.
  intros Hc Hg Hs Hlo. rewrite !rev_app_distr. simpl. rewrite <- !app_assoc. simpl.
  rewrite bookkeeping_paced by (apply Forall_rev; exact Hc).
  simpl. rewrite Hs. simpl.
  rewrite bookkeeping_paced by (apply Forall_rev; exact Hg).
  simpl. apply Z.leb_le in Hlo. rewrite Hlo. reflexivity.
Qed.

Lemma sends_cons_send (e : Event) (l : list Event) :
  is_send e = true -> sends (e :: l) = S (sends l).
Proof. intros He. unfold sends. simpl. rewrite He. reflexivity. Qed.

Lemma make_request_from_cost (attempts : list Z) (verb : Verb) (target : string)
    (cur kw : option string) (w : World) :
  let w' := snd (make_request_from attempts verb target cur kw w) in
  exists evs,
    trace w' = evs ++ trace w
    /\ (sends evs <= length attempts)%nat
    /\ slept evs
       <= 7000 * Z.of_nat (length (List.filter (fun a => a <? max_retries - 1) attempts))
    /\ paced true (rev evs) = true
    /\ requests_of evs = replicate (sends evs) (verb, target)
    /\ exists consumed,
         upstream w = consumed ++ upstream w' /\ (length consumed <= sends evs)%nat.
Proof.
  revert cur kw w. induction attempts as [|attempt rest IH]; intros cur kw w.
  - exists []. simpl. split; [reflexivity|]. split; [unfold sends; simpl; lia|].
    split; [lia|]. split; [reflexivity|]. split; [reflexivity|].
    exists []. split; [reflexivity|simpl; lia].
  - cbn [make_request_from]. rewrite attempt_once_eq. unfold bind.
    destruct (choose_proxy_trace cur kw w) as (cevs & Hc & Hcb).
    destruct (choose_proxy_frame cur kw w) as (_ & Hcup).
    destruct (choose_proxy cur kw w) as [[[cur' kw']|e] w1]; simpl in Hc, Hcup |- *.
    2:{ exists cevs. destruct (slept_nonneg_bookkeeping _ Hcb) as [Hs0 Hn0].
        split; [exact Hc|]. rewrite Hs0, Hn0.
        split; [lia|]. split; [lia|]. split; [|split].
        - rewrite <- (app_nil_r (rev cevs)). rewrite bookkeeping_paced; [reflexivity|].
          apply Forall_rev. exact Hcb.
        - rewrite bookkeeping_requests by exact Hcb. reflexivity.
        - exists []. split; [symmetry; exact Hcup|simpl; lia]. }
    destruct (guarded_trace verb target attempt cur' kw' w1) as (gevs & Hg & Hgb).
    destruct (guarded_pool verb target attempt cur' kw' w1) as (_ & _ & Hgup & _).
    pose proof (guarded_result verb target attempt cur' kw' w1) as Hres.
    cbv zeta in Hg, Hgb, Hgup, Hres.
    destruct (slept_nonneg_bookkeeping _ Hcb) as [Hs0 Hn0].
    destruct (tail_consumed (upstream w)) as (consumed & Hcons & Hlen).
    rewrite Hcup in Hgup.
    set (send := EvSend verb target kw' (rate_limit_count w1)) in *.
    assert (Hsend : is_send send = true) by reflexivity.
    assert (Hlast : Forall (fun e => is_bookkeeping e = true) gevs ->
              let evs := gevs ++ send :: cevs in
              (sends evs <= S (length rest))%nat
              /\ slept evs
                 <= 7000 * Z.of_nat (length (List.filter (fun a => a <? max_retries - 1)
                                                          (attempt :: rest)))
              /\ paced true (rev evs) = true
              /\ requests_of evs = replicate (sends evs) (verb, target)
              /\ exists consumed0,
                   upstream w = consumed0 ++ tail (upstream w)
                   /\ (length consumed0 <= sends evs)%nat).
    { intros Hgb'. destruct (slept_nonneg_bookkeeping _ Hgb') as [Hs1 Hn1].
      cbv zeta. rewrite requests_of_app, requests_of_cons.
      rewrite sends_app, slept_app, sends_cons_send by exact Hsend.
      change (slept (send :: cevs)) with (slept cevs).
      rewrite (bookkeeping_requests cevs), (bookkeeping_requests gevs) by assumption.
      rewrite Hs0, Hn0, Hs1, Hn1.
      split; [lia|]. split; [lia|].
      split; [apply paced_last_attempt; assumption|].
      split; [reflexivity|].
      exists consumed. split; [exact Hcons|lia]. }
    destruct (guarded verb target attempt cur' kw' w1) as [[[response|]|e] w2];
      simpl in Hg, Hgb, Hgup, Hres |- *.
    + exists (gevs ++ send :: cevs).
      split; [rewrite Hg, Hc, <- app_assoc; reflexivity|].
      rewrite Hgup. apply Hlast. exact Hgb.
    + destruct Hgb as (lo & hi & gevs' & -> & Hlo & Hhi & Hgb).
      destruct (slept_nonneg_bookkeeping _ Hgb) as [Hs1 Hn1].
      destruct (IH cur' kw' w2)
        as (more & Hm & Hmn & Hms & Hmp & Hmr & (used & Hused & Hul)).
      cbv zeta in Hm, Hused.
      exists (more ++ (EvSleep lo hi :: gevs') ++ send :: cevs).
      split; [rewrite Hm, Hg, Hc, <- !app_assoc; reflexivity|].
      rewrite !requests_of_app, (requests_of_cons send), (requests_of_cons (EvSleep lo hi)).
      rewrite (bookkeeping_requests cevs), (bookkeeping_requests gevs'), Hmr by assumption.
      rewrite !sends_app, !slept_app, (sends_cons_send send) by exact Hsend.
      change (sends (EvSleep lo hi :: gevs')) with (sends gevs').
      change (slept (EvSleep lo hi :: gevs')) with (hi + slept gevs').
      change (slept (send :: cevs)) with (slept cevs).
      rewrite Hs0, Hn0, Hs1, Hn1.
      apply Z.ltb_lt in Hres. cbn [List.filter]. rewrite Hres. cbn [length].
      split; [lia|]. split; [lia|].
      split; [rewrite paced_retry by assumption; exact Hmp|].
      split; [simpl; rewrite Nat.add_1_r; reflexivity|].
      exists (consumed ++ used). split.
      * rewrite <- app_assoc, <- Hused, Hgup. exact Hcons.
      * rewrite length_app. lia.
    + exists (gevs ++ send :: cevs).
      split; [rewrite Hg, Hc, <- app_assoc; reflexivity|].
      rewrite Hgup. apply Hlast. exact Hgb.
Qed.

Lemma make_request_from_counter (attempts : list Z) (verb : Verb) (target : string)
    (cur kw : option string) (w : World) :
  let run := make_request_from attempts verb target cur kw w in
  let c := rate_limit_count w in
  let c' := rate_limit_count (snd run) in
  match fst run with
  | Ret r =>
      exists k, 0 <= k <= Z.of_nat (length attempts) - 1
                /\ c' = if status_code r =? 200 then Z.max 0 (c + k - 1) else c + k
  | Raise e => c <= c' <= c + Z.of_nat (length attempts) + 1
  end.
Proof.
  revert cur kw w. induction attempts as [|attempt rest IH]; intros cur kw w.
  - simpl. lia.
  - cbn [make_request_from]. rewrite attempt_once_eq. unfold bind.
    destruct (choose_proxy_frame cur kw w) as (Hcc & _).
    destruct (choose_proxy cur kw w) as [[[cur' kw']|e] w1]; simpl in Hcc |- *.
    2:{ rewrite Hcc. lia. }
    pose proof (guarded_counter verb target attempt cur' kw' w1) as Hg.
    cbv zeta in Hg. rewrite Hcc in Hg.
    destruct (guarded verb target attempt cur' kw' w1) as [[[response|]|e] w2];
      simpl in Hg |- *.
    + exists 0. split; [lia|]. rewrite Hg. rewrite Z.add_0_r. reflexivity.
    + specialize (IH cur' kw' w2). cbv zeta in IH.
      destruct (make_request_from rest verb target cur' kw' w2) as [[r|e] w3];
        simpl in IH |- *.
      * destruct IH as (k & Hk & ->).
        exists (k + (rate_limit_count w2 - rate_limit_count w)).
        split; [lia|]. destruct (status_code r =? 200); lia.
      * lia.
    + lia.
Qed.

Lemma make_request_from_result (attempts : list Z) (verb : Verb) (target : string)
    (cur kw : option string) (w : World) :
  let run := make_request_from attempts verb target cur kw w in
  match fst run with
  | Ret r =>
      is_http_error (status_code r) = false
      /\ exists skipped,
           upstream w = skipped ++ Answers r :: upstream (snd run)
           /\ (length skipped < length attempts)%nat
  | Raise e =>
      e = IndexError
      \/ Fails e ∈ upstream w
      \/ (exists r, Answers r ∈ upstream w
                    /\ is_http_error (status_code r) = true
                    /\ e = RequestException (http_error_message r))
      \/ (e = RequestException "" /\ upstream (snd run) = [])
      \/ (e = OtherException "Failed to make request after 3 attempts"
          /\ Forall (fun a => a < max_retries - 1) attempts)
  end.
Proof.
  revert cur kw w. induction attempts as [|attempt rest IH]; intros cur kw w.
  - simpl. right. right. right. right. split; [reflexivity|constructor].
  - cbn [make_request_from]. rewrite attempt_once_eq. unfold bind.
    destruct (choose_proxy_frame cur kw w) as (_ & Hcup).
    pose proof (choose_proxy_locals cur kw w) as Hloc.
    destruct (choose_proxy cur kw w) as [[[cur' kw']|e] w1]; simpl in Hcup, Hloc |- *.
    2:{ left. exact Hloc. }
    clear Hloc.
    destruct (guarded_pool verb target attempt cur' kw' w1) as (_ & _ & Hgup & _).
    pose proof (guarded_result verb target attempt cur' kw' w1) as Hres.
    cbv zeta in Hgup, Hres. rewrite Hcup in Hgup, Hres.
    destruct (guarded verb target attempt cur' kw' w1) as [[[response|]|e] w2];
      simpl in Hgup, Hres |- *.
    + destruct Hres as [Hhead Herr]. split; [exact Herr|].
      exists []. rewrite Hgup. simpl. split; [|lia].
      destruct (upstream w) as [|o l]; [discriminate Hhead|].
      simpl in Hhead. injection Hhead as ->. reflexivity.
    + specialize (IH cur' kw' w2). cbv zeta in IH.
      assert (Hin : forall o, o ∈ upstream w2 -> o ∈ upstream w).
      { intros o Ho. rewrite Hgup in Ho. destruct (upstream w); [exact Ho|].
        apply elem_of_cons. right. exact Ho. }
      destruct (make_request_from rest verb target cur' kw' w2) as [[r|e] w3];
        simpl in IH |- *.
      * destruct IH as (Herr & skipped & Hup & Hlen). split; [exact Herr|].
        destruct (upstream w) as [|o l] eqn:Hw.
        -- simpl in Hgup. rewrite Hgup in Hup. destruct skipped; discriminate Hup.
        -- simpl in Hgup. exists (o :: skipped). simpl. rewrite <- Hup, Hgup.
           split; [reflexivity|lia].
      * destruct IH as [IH|[IH|[IH|[IH|IH]]]].
        -- left. exact IH.
        -- right. left. apply Hin. exact IH.
        -- right. right. left. destruct IH as (r & Hr & Herr & He).
           exists r. split; [apply Hin; exact Hr|]. split; assumption.
        -- right. right. right. left. exact IH.
        -- right. right. right. right. destruct IH as [He Hall].
           split; [exact He|]. constructor; [exact Hres|exact Hall].
    + destruct Hres as [[Hhead|[Hhead|Hhead]] _].
      * right. left. destruct (upstream w) as [|o l]; [discriminate Hhead|].
        simpl in Hhead. injection Hhead as ->. apply elem_of_cons. left. reflexivity.
      * right. right. left. destruct Hhead as (r & Hhead & Herr & He).
        exists r. split; [|split; assumption].
        destruct (upstream w) as [|o l]; [discriminate Hhead|].
        simpl in Hhead. injection Hhead as ->. apply elem_of_cons. left. reflexivity.
      * right. right. right. left. destruct Hhead as [Hnil He].
        split; [exact He|]. rewrite Hgup, Hnil. reflexivity.
Qed.

Lemma size_list_to_set_le (l : list string) :
  (size (list_to_set l : gset string) <= length l)%nat.
Proof.
  induction l as [|a l IH].
  - change (list_to_set [] : gset string) with (∅ : gset string).
    rewrite size_empty. simpl. lia.
  - change (list_to_set (a :: l) : gset string)
      with ({[ a ]} ∪ (list_to_set l : gset string)).
    rewrite size_union_alt, size_singleton. simpl.
    pose proof (subseteq_size (list_to_set l ∖ {[a]}) (list_to_set l : gset string)
                  (subseteq_difference_l _ _ _ (reflexivity _))).
    lia.
Qed.

Lemma failed_are_loaded_size (w : World) :
  failed_are_loaded w -> (size (failed_proxies w) <= length (proxies w))%nat.
Proof.
  intros Hinv.
  etransitivity; [|apply size_list_to_set_le].
  apply subseteq_size. intros p Hp. apply elem_of_list_to_set. apply Hinv. exact Hp.
Qed.

Lemma choose_proxy_loaded (cur kw : option string) (w : World) :
  failed_are_loaded w -> (cur = None \/ 2 < rate_limit_count w) ->
  failed_are_loaded (snd (choose_proxy cur kw w))
  /\ forall cur' kw', fst (choose_proxy cur kw w) = Ret (cur', kw') ->
       forall p, cur' = Some p -> p ∈ proxies (snd (choose_proxy cur kw w)).
Proof.
  intros Hinv Hcur. unfold choose_proxy, bind, get_world, log, modify; simpl.
  destruct (2 <? rate_limit_count w) eqn:Hgt; simpl.
  - set (w0 := mkWorld _ _ _ _ _ _ (EvGetProxy (rate_limit_count w) :: trace w)).
    destruct (get_proxy_loaded w0 Hinv) as [Hinv1 Hp].
    destruct (get_proxy w0) as [[p|e] w1]; simpl in *.
    + destruct (proxy_truthy p); simpl; (split; [exact Hinv1|]);
        intros cur' kw' [= <- <-] q ->; apply Hp; reflexivity.
    + split; [exact Hinv1|]. intros cur' kw' Hd; discriminate Hd.
  - split; [exact Hinv|]. intros cur' kw' [= <- <-] q ->.
    apply Z.ltb_ge in Hgt. destruct Hcur as [Hcur|Hcur]; [discriminate Hcur|lia].
Qed.

Lemma guarded_loaded verb target attempt cur kw w :
  failed_are_loaded w -> (forall p, cur = Some p -> p ∈ proxies w) ->
  failed_are_loaded (snd (guarded verb target attempt cur kw w)).
Proof.
  intros Hinv Hcur.
  destruct (guarded_pool verb target attempt cur kw w) as (Hp & _ & _ & _ & Hf).
  intros p Hin. rewrite Hp. destruct (Hf p Hin) as [Hold|[Hc _]].
  - apply Hinv. exact Hold.
  - apply Hcur. exact Hc.
Qed.

Lemma make_request_from_loaded (attempts : list Z) (verb : Verb) (target : string)
    (cur kw : option string) (w : World) :
  failed_are_loaded w -> (cur = None \/ 2 < rate_limit_count w) ->
  failed_are_loaded (snd (make_request_from attempts verb target cur kw w)).
Proof.
  revert cur kw w. induction attempts as [|attempt rest IH]; intros cur kw w Hinv Hcur.
  - exact Hinv.
  - cbn [make_request_from]. rewrite attempt_once_eq. unfold bind.
    destruct (choose_proxy_loaded cur kw w Hinv Hcur) as [Hinv1 Hin].
    destruct (choose_proxy_frame cur kw w) as (Hcc & _).
    pose proof (choose_proxy_locals cur kw w) as Hloc.
    destruct (choose_proxy cur kw w) as [[[cur' kw']|e] w1];
      simpl in Hinv1, Hin, Hcc, Hloc |- *; [|exact Hinv1].
    specialize (Hin _ _ eq_refl).
    pose proof (guarded_loaded verb target attempt cur' kw' w1 Hinv1 Hin) as Hinv2.
    pose proof (guarded_counter verb target attempt cur' kw' w1) as Hcount.
    cbv zeta in Hcount.
    destruct (guarded verb target attempt cur' kw' w1) as [[[response|]|e] w2];
      simpl in Hinv2, Hcount |- *; try exact Hinv2.
    apply IH; [exact Hinv2|].
    destruct (2 <? rate_limit_count w) eqn:Hgt.
    + apply Z.ltb_lt in Hgt. right. lia.
    + destruct Hloc as [-> _]. destruct Hcur as [Hcur|Hcur]; [left; exact Hcur|].
      apply Z.ltb_ge in Hgt. lia.
Qed.

Lemma after_requests_loaded (calls : list (string * string)) (w : World) :
  failed_are_loaded w -> failed_are_loaded (after_requests calls w).
Proof.
  revert w. induction calls as [|c calls IH]; intros w Hinv; [exact Hinv|].
  simpl. apply IH. apply make_request_from_loaded; [exact Hinv|left; reflexivity].
Qed.

Lemma initial_world_loaded (net : list NetOutcome) (feed : list FeedOutcome) :
  failed_are_loaded (initial_world net feed).
Proof.
  unfold initial_world.
  match goal with |- context [load_proxies ?w0] =>
    destruct (load_proxies_eq w0) as (l & rest & ->) end.
  intros p Hp. simpl in Hp. apply elem_of_empty in Hp. contradiction.
Qed.

Lemma choose_proxy_no_pool (kw : option string) (w : World) :
  proxies w = [] ->
  exists evs,
    choose_proxy None kw w
    = (Ret (None, kw),
       mkWorld (proxies w) (current_proxy_index w) (failed_proxies w)
               (rate_limit_count w) (upstream w) (proxy_source w) (evs ++ trace w))
    /\ Forall without_proxy evs.
Proof.
  intros Hp. unfold choose_proxy, bind, get_world, log, modify; simpl.
  destruct (2 <? rate_limit_count w); simpl.
  - rewrite get_proxy_empty by exact Hp. simpl.
    exists [EvGetProxy (rate_limit_count w)]. split; [reflexivity|]. repeat constructor.
  - exists []. split; [destruct w; reflexivity|constructor].
Qed.

Lemma guarded_no_pool verb target attempt kw w :
  proxies w = [] ->
  let run := guarded verb target attempt None kw w in
  same_pool w (snd run)
  /\ exists evs, trace (snd run) = evs ++ trace w
                 /\ (kw = None -> Forall without_proxy evs).
Proof.
  intros Hp. unfold same_pool. open_guarded. rewrite Hp.
  destruct (upstream w) as [|[response|e] rest]; simpl.
  - repeat (break_run; simpl); (split; [repeat split|]);
      (segment; intros ->; repeat constructor).
  - repeat (break_run; simpl); (split; [repeat split|]);
      (segment; intros ->; repeat constructor).
  - destruct e; simpl; repeat (break_run; simpl); (split; [repeat split|]);
      (segment; intros ->; repeat constructor).
Qed.

Lemma make_request_from_no_pool (attempts : list Z) (verb : Verb) (target : string)
    (w : World) :
  proxies w = [] ->
  let w' := snd (make_request_from attempts verb target None None w) in
  same_pool w w'
  /\ exists evs, trace w' = evs ++ trace w /\ Forall without_proxy evs.
Proof.
  revert w. induction attempts as [|attempt rest IH]; intros w Hp.
  - simpl. split; [repeat split|]. exists []. split; [reflexivity|constructor].
  - cbn [make_request_from]. rewrite attempt_once_eq. unfold bind.
    destruct (choose_proxy_no_pool None w Hp) as (cevs & -> & Hcevs).
    cbn [fst snd].
    set (w1 := mkWorld _ _ _ _ _ _ (cevs ++ trace w)).
    assert (Hp1 : proxies w1 = []) by exact Hp.
    destruct (guarded_no_pool verb target attempt None w1 Hp1)
      as (Hsame & gevs & Hg & Hgevs).
    specialize (Hgevs eq_refl).
    assert (Hdone : same_pool w (snd (guarded verb target attempt None None w1))
              /\ exists evs, trace (snd (guarded verb target attempt None None w1))
                             = evs ++ trace w /\ Forall without_proxy evs).
    { split; [exact Hsame|]. exists (gevs ++ cevs).
      split; [rewrite Hg; simpl; rewrite app_assoc; reflexivity|].
      apply Forall_app. split; assumption. }
    destruct (guarded verb target attempt None None w1) as [[[response|]|e] w2];
      simpl in Hsame, Hg, Hdone |- *; try exact Hdone.
    destruct Hsame as (Hs1 & Hs2 & Hs3 & Hs4).
    assert (Hp2 : proxies w2 = []) by (rewrite Hs1; exact Hp).
    destruct (IH w2 Hp2) as ((Hr1 & Hr2 & Hr3 & Hr4) & more & Hm & Hmore).
    cbv zeta in Hm. split.
    + repeat split; etransitivity; eauto.
    + exists (more ++ gevs ++ cevs).
      split; [rewrite Hm, Hg; simpl; rewrite <- !app_assoc; reflexivity|].
      repeat (apply Forall_app; split); assumption.
Qed.

(** ** _make_request: what a call returns, raises and costs *)

(** X1. Whatever the outside answers, a response that [_make_request]
    returns is one the session was given, after at most two answers that
    were passed over, and its status is outside 400-599; an exception
    that it raises is the [IndexError] of the pool, an exception the
    session raised, or the HTTP error of an answer with a status in
    400-599 (with the network down, the error of a failed connection).
    The exception of line 212 is never raised by the function itself. *)
Theorem make_request_outcome (method target : string) (kw : option string) (w : World) :
  let run := _make_request method target kw w in
  match fst run with
  | Ret r =>
      is_http_error (status_code r) = false
      /\ exists skipped,
           upstream w = skipped ++ Answers r :: upstream (snd run)
           /\ (length skipped <= 2)%nat
  | Raise e =>
      e = IndexError
      \/ Fails e ∈ upstream w
      \/ (exists r, Answers r ∈ upstream w
                    /\ is_http_error (status_code r) = true
                    /\ e = RequestException (http_error_message r))
      \/ (e = RequestException "" /\ upstream (snd run) = [])
  end.
Proof.
  unfold _make_request.
  pose proof (make_request_from_result (range max_retries) (verb_of method) target
                None kw w) as Hres.
  cbv zeta in Hres |- *.
  destruct (make_request_from (range max_retries) (verb_of method) target None kw w)
    as [[r|e] w']; simpl in Hres |- *.
  - destruct Hres as (Herr & skipped & Hup & Hlen). split; [exact Herr|].
    exists skipped. split; [exact Hup|]. simpl in Hlen. lia.
  - destruct Hres as [H|[H|[H|[H|[_ H]]]]]; auto.
    exfalso. change (range max_retries) with [0; 1; 2] in H.
    inversion H as [|? ? _ H1]; subst. inversion H1 as [|? ? _ H2]; subst.
    inversion H2 as [|? ? H3 _]; subst. unfold max_retries in H3. lia.
Qed.

(** X2. A call of [_make_request] sends at most three requests, and
    takes at most one answer of the outside for each request it sends,
    in the order they come. *)
Theorem make_request_budget (method target : string) (kw : option string) (w : World) :
  let w' := snd (_make_request method target kw w) in
  exists evs consumed,
    trace w' = evs ++ trace w
    /\ upstream w = consumed ++ upstream w'
    /\ (length consumed <= sends evs)%nat
    /\ (sends evs <= 3)%nat.
Proof.
  unfold _make_request.
  destruct (make_request_from_cost (range max_retries) (verb_of method) target None kw w)
    as (evs & Htr & Hn & _ & _ & _ & consumed & Hup & Hlen).
  exists evs, consumed. auto.
Qed.

(** X3. Within a call of [_make_request] no request follows another
    without a sleep of at least one second in between, and the sleeps of
    a call last at most 14 seconds in all. *)
Theorem make_request_pacing (method target : string) (kw : option string) (w : World) :
  let w' := snd (_make_request method target kw w) in
  exists evs,
    trace w' = evs ++ trace w
    /\ paced true (rev evs) = true
    /\ slept evs <= 14000.
Proof.
  unfold _make_request.
  destruct (make_request_from_cost (range max_retries) (verb_of method) target None kw w)
    as (evs & Htr & _ & Hs & Hp & _ & _).
  exists evs. split; [exact Htr|]. split; [exact Hp|].
  change (range max_retries) with [0; 1; 2] in Hs. simpl in Hs. lia.
Qed.

(** X4. What a call of [_make_request] does to the rate-limit counter
    [c]: when it returns a response, the attempts before added [k], at
    most 2, and the counter is [c + k], less one and not below 0 when the
    status is 200; when it raises, the counter is between [c] and
    [c + 4]. *)
Theorem make_request_counter (method target : string) (kw : option string) (w : World) :
  let run := _make_request method target kw w in
  let c := rate_limit_count w in
  let c' := rate_limit_count (snd run) in
  match fst run with
  | Ret r =>
      exists k, 0 <= k <= 2
                /\ c' = if status_code r =? 200 then Z.max 0 (c + k - 1) else c + k
  | Raise e => c <= c' <= c + 4
  end.
Proof.
  unfold _make_request.
  pose proof (make_request_from_counter (range max_retries) (verb_of method) target
                None kw w) as Hc.
  cbv zeta in Hc |- *.
  destruct (make_request_from (range max_retries) (verb_of method) target None kw w)
    as [[r|e] w']; simpl in Hc |- *; [|lia].
  destruct Hc as (k & Hk & Hc). exists k. split; [lia|exact Hc].
Qed.

(** ** ProxyManager: loading, rotating, choosing *)

Lemma cons_insert_permutation (h b : string) (t : list string) (j : nat) :
  t !! j = Some b -> b :: <[j := h]> t ≡ₚ h :: t.
Proof.
  revert j. induction t as [|c t IH]; intros [|j] Hj; try discriminate Hj.
  - injection Hj as ->. simpl. apply perm_swap.
  - simpl in Hj |- *. etransitivity; [apply perm_swap|].
    etransitivity; [apply perm_skip, IH, Hj|]. apply perm_swap.
Qed.

Lemma swap_permutation (i j : nat) (x : list string) : swap i j x ≡ₚ x.
Proof.
  unfold swap.
  destruct (x !! i) as [a|] eqn:Hi; [|reflexivity].
  destruct (x !! j) as [b|] eqn:Hj; [|reflexivity].
  revert i j Hi Hj. induction x as [|h t IH]; intros [|i] [|j] Hi Hj;
    try discriminate Hi; try discriminate Hj; simpl in *.
  - injection Hi as ->. injection Hj as ->. reflexivity.
  - injection Hi as ->. apply cons_insert_permutation. exact Hj.
  - injection Hj as ->. apply cons_insert_permutation. exact Hi.
  - apply perm_skip. apply IH; assumption.
Qed.

Lemma shuffle_from_permutation (i : nat) (draws : list nat) (x : list string) :
  shuffle_from i draws x ≡ₚ x.
Proof.
  revert draws x. induction i as [|i IH]; intros draws x; [reflexivity|].
  simpl. etransitivity; [apply IH|]. apply swap_permutation.
Qed.

Lemma shuffle_permutation (draws : list nat) (x : list string) : shuffle draws x ≡ₚ x.
Proof. apply shuffle_from_permutation. Qed.

Lemma proxy_lines_http (text : string) :
  Forall (fun p => Py.startswith p "http://" = true) (proxy_lines text).
Proof.
  unfold proxy_lines. apply Forall_forall. intros p Hp.
  apply list_elem_of_In, filter_In in Hp as [_ Hp].
  apply andb_true_iff in Hp as [_ Hp]. exact Hp.
Qed.

(** X5. [load_proxies] never raises and touches nothing but the list of
    endpoints, which it replaces: by the empty list when the download
    fails or is answered with a status in 400-599, and otherwise by the
    lines of the answer that, stripped, start with [http://], in some
    order.  Every endpoint it loads starts with [http://]. *)
Theorem load_proxies_filters (w : World) :
  exists loaded w',
    load_proxies w = (Ret tt, w')
    /\ proxies w' = loaded
    /\ current_proxy_index w' = current_proxy_index w
    /\ failed_proxies w' = failed_proxies w
    /\ rate_limit_count w' = rate_limit_count w
    /\ upstream w' = upstream w
    /\ proxy_source w' = tail (proxy_source w)
    /\ Forall (fun p => Py.startswith p "http://" = true) loaded
    /\ match proxy_source w with
       | FeedAnswers status text draws :: _ =>
           if is_http_error status then loaded = [] else loaded ≡ₚ proxy_lines text
       | _ => loaded = []
       end.
Proof.
  unfold load_proxies, bind, get_world, log, modify, next_feed. simpl.
  destruct (proxy_source w) as [|[|status text draws] rest]; simpl.
  - eexists _, _. repeat split. constructor.
  - eexists _, _. repeat split. constructor.
  - destruct (is_http_error status); simpl.
    + eexists _, _. repeat split. constructor.
    + eexists _, _. split; [reflexivity|]. simpl. repeat split.
      * rewrite shuffle_permutation. apply proxy_lines_http.
      * apply shuffle_permutation.
Qed.

Lemma rotate_proxy_step (w : World) :
  proxies w <> [] ->
  rotate_proxy w
  = (Ret tt, with_cursor ((current_proxy_index w + 1) mod length (proxies w))%nat w).
Proof.
  intros Hne.
  unfold rotate_proxy, bind, get_world, set_current_proxy_index, modify, with_cursor.
  cbv beta iota. destruct (proxies w) as [|p l] eqn:Hp; [contradiction|].
  cbv beta iota. rewrite Hp. reflexivity.
Qed.

(** X6. On a pool that is not empty, one or more rotations bring the
    cursor to its position plus their number, modulo the length of the
    list: into the list, even when it was past its end, and back to
    where it was after as many rotations as there are endpoints.
    Nothing but the cursor changes. *)
Theorem rotate_proxy_cycle (n : nat) (w : World) :
  proxies w <> [] ->
  let len := length (proxies w) in
  rotations (S n) w = with_cursor ((current_proxy_index w + S n) mod len)%nat w
  /\ (current_proxy_index (rotations (S n) w) < len)%nat
  /\ ((current_proxy_index w < len)%nat ->
      current_proxy_index (rotations len w) = current_proxy_index w).
Proof.
  intros Hne len.
  assert (Hlen : (0 < len)%nat).
  { unfold len. destruct (proxies w); [contradiction|simpl; lia]. }
  assert (Hall : forall k,
            rotations (S k) w = with_cursor ((current_proxy_index w + S k) mod len)%nat w).
  { induction k as [|k IH].
    - unfold rotations. simpl. rewrite rotate_proxy_step by exact Hne. reflexivity.
    - change (rotations (S (S k)) w) with (snd (rotate_proxy (rotations (S k) w))).
      rewrite IH. rewrite rotate_proxy_step by exact Hne.
      unfold with_cursor. simpl. fold len.
      rewrite Nat.Div0.add_mod_idemp_l.
      replace (current_proxy_index w + S k + 1)%nat
        with (current_proxy_index w + S (S k))%nat by lia.
      reflexivity. }
  split; [apply Hall|]. split.
  - rewrite Hall. simpl. apply Nat.mod_upper_bound. lia.
  - intros Hin. destruct (Nat.lt_exists_pred 0 len Hlen) as (m & Hm & _).
    rewrite Hm at 1. rewrite Hall. simpl. rewrite <- Hm.
    replace (current_proxy_index w + len)%nat
      with (current_proxy_index w + 1 * len)%nat by lia.
    rewrite Nat.Div0.mod_add. apply Nat.mod_small. exact Hin.
Qed.

Lemma rotate_proxy_cycle_witness :
  proxies pool_all_failed <> []
  /\ rotations 1 pool_all_failed = with_cursor 0 pool_all_failed
  /\ current_proxy_index (rotations 3 pool_all_failed) = 2%nat.
Proof.
  assert (Hne : proxies pool_all_failed <> []) by (intros Hx; discriminate Hx).
  split; [exact Hne|].
  destruct (rotate_proxy_cycle 0 pool_all_failed Hne) as (Hone & _ & Hback).
  split; [exact Hone|]. apply Hback. simpl. lia.
Defined.

Lemma scan_proxies_raises (n : nat) (w : World) (e : Exn) :
  fst (scan_proxies n w) = Raise e ->
  proxies (snd (scan_proxies n w)) !! current_proxy_index (snd (scan_proxies n w)) = None.
Proof.
  revert w. induction n as [|n IH]; intros w; [intros Hx; discriminate Hx|].
  unfold scan_proxies; fold scan_proxies. unfold bind, get_world; simpl.
  destruct (proxies w !! current_proxy_index w) as [proxy|] eqn:Hlook; simpl.
  2:{ intros _. exact Hlook. }
  destruct (bool_decide (proxy ∈ failed_proxies w)); simpl.
  - apply IH.
  - intros Hx; discriminate Hx.
Qed.

(** X7. What [get_proxy] ends with, whatever the pool: an endpoint of
    the list it leaves that is not in the failed set it leaves; or
    [None], the list it leaves being empty; or the [IndexError] of a
    cursor that is past the end of a list that is not empty. *)
Theorem get_proxy_outcome (w : World) :
  let w' := snd (get_proxy w) in
  match fst (get_proxy w) with
  | Ret (Some p) => p ∈ proxies w' /\ (p ∉ failed_proxies w')
  | Ret None => proxies w' = []
  | Raise e =>
      e = IndexError /\ proxies w' <> []
      /\ (length (proxies w') <= current_proxy_index w')%nat
  end.
Proof.
  cbv zeta. open_get_proxy.
  destruct (proxies w) as [|p0 l0] eqn:Hprox; simpl; [exact Hprox|].
  assert (Hraise : forall n w1 e w2,
            scan_proxies n w1 = (Raise e, w2) -> n = length (proxies w1) ->
            e = IndexError /\ proxies w2 <> []
            /\ (length (proxies w2) <= current_proxy_index w2)%nat).
  { intros n w1 e w2 Hscan Hn.
    pose proof (scan_proxies_spec n w1) as [Hsame He].
    pose proof (scan_proxies_raises n w1 e) as Hnone.
    rewrite Hscan in Hsame, He, Hnone. simpl in Hsame, He, Hnone.
    destruct Hsame as (Hp & _).
    split; [exact He|]. split.
    - rewrite Hp. intros Hnil. rewrite Hnil in Hn. simpl in Hn. subst n.
      discriminate Hscan.
    - apply lookup_ge_None. apply Hnone. reflexivity. }
  assert (Hhead : forall (l : list string),
            match head l with
            | Some p => p ∈ l /\ (p ∉ (∅ : gset string))
            | None => l = []
            end).
  { intros [|a l]; simpl; [reflexivity|]. split; [apply elem_of_cons; left; reflexivity|].
    apply not_elem_of_empty. }
  destruct (too_many_failed w); simpl.
  - reload.
    match goal with |- context [scan_proxies ?n ?w0] =>
      pose proof (scan_proxies_spec n w0) as [Hsame Hscan];
      pose proof (Hraise n w0) as Hr;
      destruct (scan_proxies n w0) as [[[p|]|e] w2] end; simpl in Hsame, Hscan |- *.
    + destruct Hsame as (Hp & Hf & _). rewrite Hp, Hf. simpl. destruct Hscan; auto.
    + reload. apply Hhead.
    + apply (Hr e w2); reflexivity.
  - match goal with |- context [scan_proxies ?n ?w0] =>
      pose proof (scan_proxies_spec n w0) as [Hsame Hscan];
      pose proof (Hraise n w0) as Hr;
      destruct (scan_proxies n w0) as [[[p|]|e] w2] end; simpl in Hsame, Hscan |- *.
    + destruct Hsame as (Hp & Hf & _). rewrite Hp, Hf. destruct Hscan; auto.
    + reload. apply Hhead.
    + apply (Hr e w2); [reflexivity|]. simpl. rewrite Hprox. reflexivity.
Qed.

Lemma with_cursor_same (w : World) : with_cursor (current_proxy_index w) w = w.
Proof. destruct w; reflexivity. Qed.

Lemma scan_proxies_finds (k : nat) :
  forall (n : nat) (w : World) (p : string),
    (k < n)%nat ->
    (current_proxy_index w < length (proxies w))%nat ->
    proxies w !! ((current_proxy_index w + k) mod length (proxies w))%nat = Some p ->
    p ∉ failed_proxies w ->
    (forall j, (j < k)%nat ->
       exists q, proxies w !! ((current_proxy_index w + j) mod length (proxies w))%nat
                 = Some q /\ q ∈ failed_proxies w) ->
    scan_proxies n w
    = (Ret (Some p),
       with_cursor ((current_proxy_index w + k) mod length (proxies w))%nat w).
Proof.
  induction k as [|k IH]; intros n w p Hn Hin Hat Hp Hbefore.
  - destruct n as [|n]; [lia|].
    rewrite Nat.add_0_r, Nat.mod_small in Hat |- * by exact Hin.
    unfold scan_proxies; fold scan_proxies. unfold bind, get_world; simpl.
    rewrite Hat. rewrite bool_decide_eq_false_2 by exact Hp.
    rewrite with_cursor_same. reflexivity.
  - destruct n as [|n]; [lia|].
    destruct (Hbefore O ltac:(lia)) as (q & Hq & Hqf).
    rewrite Nat.add_0_r, Nat.mod_small in Hq by exact Hin.
    unfold scan_proxies; fold scan_proxies. unfold bind, get_world; simpl.
    rewrite Hq. rewrite bool_decide_eq_true_2 by exact Hqf.
    unfold set_current_proxy_index, modify. cbv beta iota.
    set (w1 := mkWorld _ _ _ _ _ _ _).
    assert (Hlen : (0 < length (proxies w))%nat) by lia.
    assert (Hshift : forall j,
              ((current_proxy_index w1 + j) mod length (proxies w1)
               = (current_proxy_index w + S j) mod length (proxies w))%nat).
    { intros j. subst w1. simpl. rewrite Nat.Div0.add_mod_idemp_l. f_equal. lia. }
    rewrite (IH n w1 p).
    + rewrite Hshift. reflexivity.
    + lia.
    + subst w1. simpl. apply Nat.mod_upper_bound. lia.
    + rewrite Hshift. exact Hat.
    + exact Hp.
    + intros j Hj. rewrite Hshift. apply Hbefore. lia.
Qed.

(** X8. When at most 80 percent as many endpoints are failed as are
    loaded and the cursor is inside the list, [get_proxy] returns the
    first endpoint that is not failed, going round the list from the
    cursor, and leaves the cursor on it; it downloads nothing and changes
    nothing else.  When the endpoint under the cursor is not failed, it
    returns that endpoint and changes nothing at all. *)
Theorem get_proxy_first_available (w : World) (k : nat) (p : string) :
  too_many_failed w = false ->
  (current_proxy_index w < length (proxies w))%nat ->
  (k < length (proxies w))%nat ->
  proxies w !! ((current_proxy_index w + k) mod length (proxies w))%nat = Some p ->
  p ∉ failed_proxies w ->
  (forall j, (j < k)%nat ->
     exists q, proxies w !! ((current_proxy_index w + j) mod length (proxies w))%nat
               = Some q /\ q ∈ failed_proxies w) ->
  get_proxy w
  = (Ret (Some p),
     with_cursor ((current_proxy_index w + k) mod length (proxies w))%nat w).
Proof.
  intros Hfew Hin Hk Hat Hp Hbefore.
  pose proof (scan_proxies_finds k (length (proxies w)) w p Hk Hin Hat Hp Hbefore) as Hscan.
  remember (with_cursor ((current_proxy_index w + k) mod length (proxies w))%nat w)
    as found eqn:Hfound.
  clear Hfound Hat Hbefore Hk.
  unfold get_proxy, bind, get_world, when. simpl.
  destruct (proxies w) as [|p0 l0] eqn:Hprox; [simpl in Hin; lia|].
  rewrite Hfew. simpl. rewrite <- Hprox in Hscan. rewrite Hscan. reflexivity.
Qed.

Lemma get_proxy_first_available_witness :
  get_proxy pool_one_of_three = (Ret (Some "http://b"), with_cursor 1 pool_one_of_three).
Proof.
  apply (get_proxy_first_available pool_one_of_three 1 "http://b").
  - vm_compute. reflexivity.
  - simpl. lia.
  - simpl. lia.
  - reflexivity.
  - apply (bool_decide_unpack _). vm_compute. exact I.
  - intros j Hj. assert (j = O) as -> by lia. exists "http://a". split; [reflexivity|].
    apply (bool_decide_unpack _). vm_compute. exact I.
Defined.

(** ** _make_request: errors and the counter *)

Lemma guarded_error_answer verb target attempt kw w r rest :
  proxies w = [] ->
  upstream w = Answers r :: rest ->
  is_http_error (status_code r) = true ->
  let run := guarded verb target attempt None kw w in
  let msg := http_error_message r in
  fst run = (if attempt <? max_retries - 1 then Ret Continue
             else Raise (RequestException msg))
  /\ proxies (snd run) = [] /\ upstream (snd run) = rest
  /\ rate_limit_count (snd run)
     = rate_limit_count w
       + (if is_rate_limited (status_code r) then 1 else 0)
       + (if mentions_rate_limit msg
          then (if is_rate_limited (status_code r) && (attempt <? max_retries - 1)
                then 0 else 1)
          else 0).
Proof.
  intros Hp Hup Herr. cbv zeta. unfold mentions_rate_limit.
  open_guarded. rewrite Hup, Hp. simpl.
  destruct (is_rate_limited (status_code r)) eqn:Hlim; simpl.
  - destruct (attempt <? max_retries - 1) eqn:Hatt; simpl.
    + rewrite ?Hp. simpl. repeat split; try lia.
      destruct (_ || _); lia.
    + assert (H200 : (status_code r =? 200) = false).
      { statuses. apply Z.eqb_neq. lia. }
      rewrite H200, Herr. simpl.
      destruct (_ || _); simpl; rewrite ?Hatt; simpl; repeat split; lia.
  - assert (H200 : (status_code r =? 200) = false).
    { statuses. apply Z.eqb_neq. lia. }
    rewrite H200, Herr. simpl.
    destruct (_ || _); simpl; destruct (attempt <? max_retries - 1); simpl;
      rewrite ?Hp; simpl; repeat split; lia.
Qed.

Lemma contains_cons (needle : string) (c : ascii) (hay : string) :
  Py.contains needle (String c hay)
  = Py.startswith (String c hay) needle || Py.contains needle hay.
Proof. reflexivity. Qed.

Lemma startswith_cons (b a : ascii) (s p : string) :
  Py.startswith (String b s) (String a p) = Ascii.eqb a b && Py.startswith s p.
Proof. reflexivity. Qed.

Lemma contains_app_r (needle a b : string) :
  Py.contains needle b = true -> Py.contains needle (a +:+ b) = true.
Proof.
  intros Hb. induction a as [|c a IH]; [exact Hb|].
  change (String c a +:+ b) with (String c (a +:+ b)).
  rewrite contains_cons, IH. apply orb_true_r.
Qed.

Lemma contains_prefix (needle rest : string) :
  needle <> "" -> Py.contains needle (needle +:+ rest) = true.
Proof.
  intros Hne. destruct needle as [|c needle]; [contradiction|].
  assert (Hs : forall p s, Py.startswith (p +:+ s) p = true).
  { clear. induction p as [|a p IH]; intros s; [reflexivity|].
    change (String a p +:+ s) with (String a (p +:+ s)).
    rewrite startswith_cons, Ascii.eqb_refl. apply IH. }
  change (String c needle +:+ rest) with (String c (needle +:+ rest)).
  rewrite contains_cons.
  change (String c (needle +:+ rest)) with (String c needle +:+ rest).
  rewrite Hs. reflexivity.
Qed.

Lemma message_mentions_url (r : Response) :
  Py.contains "429" (resp_url r) = true ->
  mentions_rate_limit (http_error_message r) = true.
Proof.
  intros Hurl. unfold mentions_rate_limit, http_error_message.
  rewrite (contains_app_r "429");
    [reflexivity|repeat apply contains_app_r; exact Hurl].
Qed.

Lemma message_mentions_status (r : Response) :
  status_code r = 429 -> mentions_rate_limit (http_error_message r) = true.
Proof.
  intros Hs. unfold mentions_rate_limit, http_error_message. rewrite Hs.
  change (Py.str_of_int 429) with "429".
  rewrite contains_prefix by (intros Hx; discriminate Hx). reflexivity.
Qed.

Lemma three_error_answers (method target : string) (w : World)
    (r1 r2 r3 : Response) (rest : list NetOutcome) :
  proxies w = [] ->
  upstream w = Answers r1 :: Answers r2 :: Answers r3 :: rest ->
  is_http_error (status_code r1) = true ->
  is_http_error (status_code r2) = true ->
  is_http_error (status_code r3) = true ->
  let run := _make_request method target None w in
  fst run = Raise (RequestException (http_error_message r3))
  /\ upstream (snd run) = rest
  /\ rate_limit_count (snd run)
     = rate_limit_count w + counted false r1 + counted false r2 + counted true r3.
Proof.
  intros Hp Hup H1 H2 H3. cbv zeta. unfold _make_request.
  change (range max_retries) with [0; 1; 2].
  cbn [make_request_from]. rewrite !attempt_once_eq. unfold bind.
  destruct (choose_proxy_no_pool None w Hp) as (evs0 & -> & _). cbn [fst snd].
  set (w0 := mkWorld _ _ _ _ _ _ (evs0 ++ trace w)).
  destruct (guarded_error_answer (verb_of method) target 0 None w0 r1 _ Hp Hup H1)
    as (Hr & Hp1 & Hup1 & Hc1).
  cbv zeta in Hr, Hp1, Hup1, Hc1.
  destruct (guarded (verb_of method) target 0 None None w0) as [x w1].
  change (0 <? max_retries - 1) with true in Hr.
  cbn [fst snd] in Hr, Hp1, Hup1, Hc1 |- *. subst x. cbn [ret raise fst snd]. rewrite ?attempt_once_eq. unfold bind.
  destruct (choose_proxy_no_pool None w1 Hp1) as (evs1 & -> & _). cbn [fst snd].
  set (w1' := mkWorld _ _ _ _ _ _ (evs1 ++ trace w1)).
  destruct (guarded_error_answer (verb_of method) target 1 None w1' r2 _ Hp1 Hup1 H2)
    as (Hr & Hp2 & Hup2 & Hc2).
  cbv zeta in Hr, Hp2, Hup2, Hc2.
  destruct (guarded (verb_of method) target 1 None None w1') as [x w2].
  change (1 <? max_retries - 1) with true in Hr.
  cbn [fst snd] in Hr, Hp2, Hup2, Hc2 |- *. subst x. cbn [ret raise fst snd]. rewrite ?attempt_once_eq. unfold bind.
  destruct (choose_proxy_no_pool None w2 Hp2) as (evs2 & -> & _). cbn [fst snd].
  set (w2' := mkWorld _ _ _ _ _ _ (evs2 ++ trace w2)).
  destruct (guarded_error_answer (verb_of method) target 2 None w2' r3 _ Hp2 Hup2 H3)
    as (Hr & Hp3 & Hup3 & Hc3).
  cbv zeta in Hr, Hp3, Hup3, Hc3.
  destruct (guarded (verb_of method) target 2 None None w2') as [x w3].
  change (2 <? max_retries - 1) with false in Hr.
  cbn [fst snd] in Hr, Hp3, Hup3, Hc3 |- *. subst x. cbn [ret raise fst snd]. rewrite ?attempt_once_eq. unfold bind.
  split; [reflexivity|]. split; [exact Hup3|].
  subst w0 w1' w2'. cbn [rate_limit_count] in Hc1, Hc2, Hc3.
  rewrite Hc3, Hc2, Hc1. unfold counted.
  change (0 <? max_retries - 1) with true. change (1 <? max_retries - 1) with true.
  change (2 <? max_retries - 1) with false.
  cbn [negb]. rewrite !andb_true_r, !andb_false_r. lia.
Qed.

(** X9. With an empty pool, three answers in a row with status 429, 403
    or 503 make [_make_request] raise the HTTP error of the third, and
    add to the counter one for each answer and one more when the message
    of that error mentions 429 or a rate limit: the last answer is
    counted both as a response and as an exception.  Three answers with
    status 429 add four. *)
Theorem rate_limits_are_counted_twice (method target : string) (w : World)
    (r1 r2 r3 : Response) (rest : list NetOutcome) :
  proxies w = [] ->
  upstream w = Answers r1 :: Answers r2 :: Answers r3 :: rest ->
  is_rate_limited (status_code r1) = true ->
  is_rate_limited (status_code r2) = true ->
  is_rate_limited (status_code r3) = true ->
  let run := _make_request method target None w in
  fst run = Raise (RequestException (http_error_message r3))
  /\ upstream (snd run) = rest
  /\ rate_limit_count (snd run)
     = rate_limit_count w + 3
       + (if mentions_rate_limit (http_error_message r3) then 1 else 0)
  /\ (status_code r3 = 429 -> rate_limit_count (snd run) = rate_limit_count w + 4).
Proof.
  intros Hp Hup H1 H2 H3.
  assert (Herr : forall r, is_rate_limited (status_code r) = true ->
                           is_http_error (status_code r) = true).
  { intros r Hr. statuses. apply andb_true_iff. split; [apply Z.leb_le|apply Z.ltb_lt]; lia. }
  destruct (three_error_answers method target w r1 r2 r3 rest Hp Hup
              (Herr _ H1) (Herr _ H2) (Herr _ H3)) as (Hraise & Hrest & Hcount).
  cbv zeta. split; [exact Hraise|]. split; [exact Hrest|].
  unfold counted in Hcount. rewrite H1, H2, H3 in Hcount. cbn [negb andb] in Hcount.
  assert (Hsum : rate_limit_count (snd (_make_request method target None w))
                 = rate_limit_count w + 3
                   + (if mentions_rate_limit (http_error_message r3) then 1 else 0)).
  { rewrite Hcount.
    destruct (mentions_rate_limit (http_error_message r1));
      destruct (mentions_rate_limit (http_error_message r2));
      destruct (mentions_rate_limit (http_error_message r3)); lia. }
  split; [exact Hsum|].
  intros H429. rewrite Hsum, (message_mentions_status r3 H429). lia.
Qed.

Lemma rate_limits_are_counted_twice_witness :
  fst (_make_request "GET" "https://duckduckgo.com" None throttled_without_pool)
  = Raise (RequestException "429 Client Error:  for url: https://duckduckgo.com/")
  /\ rate_limit_count
       (snd (_make_request "GET" "https://duckduckgo.com" None throttled_without_pool))
     = 4.
Proof.
  destruct (rate_limits_are_counted_twice
              "GET" "https://duckduckgo.com" throttled_without_pool
              (mkResponse 429 "" "https://duckduckgo.com/" None None)
              (mkResponse 429 "" "https://duckduckgo.com/" None None)
              (mkResponse 429 "" "https://duckduckgo.com/" None None) []
              eq_refl eq_refl eq_refl eq_refl eq_refl) as (Hraise & _ & _ & Hfour).
  split; [exact Hraise|]. apply Hfour. reflexivity.
Defined.

(** X10. An HTTP error with a status other than 429, 403 and 503 is
    counted as a rate limit when, and only when, its message mentions 429
    or a rate limit; the message quotes the URL, so an error for a URL
    that contains 429 is counted.  With an empty pool, three such answers
    in a row make [_make_request] raise the error of the third, the
    counter being raised by the number of messages that mention one. *)
Theorem http_error_counts_by_its_message (method target : string) (w : World)
    (r1 r2 r3 : Response) (rest : list NetOutcome) :
  proxies w = [] ->
  upstream w = Answers r1 :: Answers r2 :: Answers r3 :: rest ->
  Forall (fun r => is_http_error (status_code r) = true
                   /\ is_rate_limited (status_code r) = false) [r1; r2; r3] ->
  let run := _make_request method target None w in
  let hit r := if mentions_rate_limit (http_error_message r) then 1 else 0 in
  fst run = Raise (RequestException (http_error_message r3))
  /\ upstream (snd run) = rest
  /\ rate_limit_count (snd run) = rate_limit_count w + hit r1 + hit r2 + hit r3
  /\ forall r, Py.contains "429" (resp_url r) = true -> hit r = 1.
Proof.
  intros Hp Hup Hall.
  inversion Hall as [|? ? [E1 L1] Hall2]; subst.
  inversion Hall2 as [|? ? [E2 L2] Hall3]; subst.
  inversion Hall3 as [|? ? [E3 L3] _]; subst.
  destruct (three_error_answers method target w r1 r2 r3 rest Hp Hup E1 E2 E3)
    as (Hraise & Hrest & Hcount).
  cbv zeta. split; [exact Hraise|]. split; [exact Hrest|]. split.
  - rewrite Hcount. unfold counted. rewrite L1, L2, L3. cbn [negb andb]. lia.
  - intros r Hurl. rewrite (message_mentions_url r Hurl). reflexivity.
Qed.

Lemma http_error_counts_by_its_message_witness :
  fst (_make_request "GET" "https://img.example/429.jpg" None missing_image_429)
  = Raise (RequestException
             "404 Client Error:  for url: https://img.example/429.jpg")
  /\ rate_limit_count
       (snd (_make_request "GET" "https://img.example/429.jpg" None missing_image_429))
     = 3.
Proof.
  destruct (http_error_counts_by_its_message
              "GET" "https://img.example/429.jpg" missing_image_429
              (mkResponse 404 "" "https://img.example/429.jpg" None None)
              (mkResponse 404 "" "https://img.example/429.jpg" None None)
              (mkResponse 404 "" "https://img.example/429.jpg" None None) []
              eq_refl eq_refl
              ltac:(repeat constructor)) as (Hraise & _ & Hcount & _).
  split; [exact Hraise|]. rewrite Hcount. reflexivity.
Defined.

(** X11. Only the exceptions of [requests] are retried.  When the proxy
    check is not due (the counter is at most 2) and the session raises
    any other exception, [_make_request] lets it out at once: one request
    was sent, one answer taken, nothing slept, and the counter and the
    pool are as they were. *)
Theorem other_exceptions_are_not_retried (method target : string) (kw : option string)
    (w : World) (e : Exn) (rest : list NetOutcome) :
  rate_limit_count w <= 2 ->
  upstream w = Fails e :: rest ->
  (e = IndexError \/ exists msg, e = OtherException msg) ->
  _make_request method target kw w
  = (Raise e,
     mkWorld (proxies w) (current_proxy_index w) (failed_proxies w) (rate_limit_count w)
             rest (proxy_source w)
             (EvSend (verb_of method) target kw (rate_limit_count w) :: trace w)).
Proof.
  intros Hc Hup He. unfold _make_request.
  change (range max_retries) with [0; 1; 2].
  cbn [make_request_from]. rewrite attempt_once_eq. unfold bind.
  unfold choose_proxy, bind, get_world. cbn [fst snd].
  apply Z.ltb_ge in Hc. rewrite Hc. cbn [ret fst snd].
  open_guarded. rewrite Hup. simpl.
  destruct He as [-> | [msg ->]]; reflexivity.
Qed.

Lemma other_exceptions_are_not_retried_witness :
  fst (_make_request "GET" "https://duckduckgo.com" None session_breaks)
  = Raise (OtherException "label empty or too long")
  /\ upstream (snd (_make_request "GET" "https://duckduckgo.com" None session_breaks)) = [].
Proof.
  rewrite (other_exceptions_are_not_retried
             "GET" "https://duckduckgo.com" None session_breaks
             (OtherException "label empty or too long") []);
    [split; reflexivity|simpl; lia|reflexivity|right; eexists; reflexivity].
Defined.

(** ** The steps of a search *)

Lemma perform_all_app (l1 l2 : list Action) (w : World) :
  perform_all (l1 ++ l2) w = perform_all l2 (perform_all l1 w).
Proof. unfold perform_all. apply fold_left_app. Qed.

Lemma get_vqd_actions (keywords : string) (w : World) :
  fst (_get_vqd keywords w) = Ret tt
  /\ snd (_get_vqd keywords w) = perform w (Request "GET" "https://duckduckgo.com").
Proof.
  unfold _get_vqd, try_except, bind, perform.
  destruct (_make_request "GET" "https://duckduckgo.com" None w) as [[r|e] w1];
    simpl; split; reflexivity.
Qed.

Lemma perform_cost (a : Action) (w : World) :
  exists evs consumed,
    trace (perform w a) = evs ++ trace w
    /\ upstream w = consumed ++ upstream (perform w a)
    /\ (length consumed <= sends evs)%nat
    /\ match a with
       | Request method target =>
           (sends evs <= 3)%nat /\ slept evs <= 14000
           /\ requests_of evs = replicate (sends evs) (verb_of method, target)
       | EnterPrimary => evs = [EvPrimary]
       | EnterFallback => evs = [EvFallback]
       | Pause ms => evs = [EvSleep ms ms]
       end.
Proof.
  destruct a as [method target| | |ms]; simpl.
  - unfold _make_request.
    destruct (make_request_from_cost (range max_retries) (verb_of method) target
                None None w) as (evs & Htr & Hn & Hs & _ & Hr & consumed & Hup & Hlen).
    exists evs, consumed.
    split; [exact Htr|]. split; [exact Hup|]. split; [exact Hlen|].
    split; [exact Hn|]. split; [|exact Hr].
    change (range max_retries) with [0; 1; 2] in Hs. simpl in Hs. lia.
  - exists [EvPrimary], []. split; [reflexivity|]. split; [reflexivity|].
    split; [simpl; lia|reflexivity].
  - exists [EvFallback], []. split; [reflexivity|]. split; [reflexivity|].
    split; [simpl; lia|reflexivity].
  - exists [EvSleep ms ms], []. split; [reflexivity|]. split; [reflexivity|].
    split; [simpl; lia|reflexivity].
Qed.

(** what a sequence of actions costs: each call sends at most three
    requests, all to its URL, and sleeps at most 14 seconds *)
Lemma perform_all_cost (actions : list Action) (w : World) :
  exists evs consumed ns,
    trace (perform_all actions w) = evs ++ trace w
    /\ upstream w = consumed ++ upstream (perform_all actions w)
    /\ (length consumed <= sends evs)%nat
    /\ slept evs <= 14000 * Z.of_nat (length (calls_of actions)) + paused actions
    /\ length ns = length (calls_of actions)
    /\ Forall (fun n => (n <= 3)%nat) ns
    /\ requests_of evs = concat (zip_with replicate ns (calls_of actions)).
Proof.
  revert w. induction actions as [|a rest IH]; intros w.
  - exists [], [], []. simpl. repeat split; try constructor; try lia.
  - change (perform_all (a :: rest) w) with (perform_all rest (perform w a)).
    destruct (perform_cost a w) as (evs1 & consumed1 & Htr1 & Hup1 & Hlen1 & Ha).
    destruct (IH (perform w a))
      as (evs2 & consumed2 & ns & Htr2 & Hup2 & Hlen2 & Hs2 & Hns & Hall & Hreq).
    assert (Hquiet : forall e, evs1 = [e] -> request_of e = None ->
              slept [e] = paused (a :: rest) - paused rest ->
              calls_of (a :: rest) = calls_of rest ->
              exists evs consumed ns0,
                trace (perform_all rest (perform w a)) = evs ++ trace w
                /\ upstream w = consumed ++ upstream (perform_all rest (perform w a))
                /\ (length consumed <= sends evs)%nat
                /\ slept evs
                   <= 14000 * Z.of_nat (length (calls_of (a :: rest))) + paused (a :: rest)
                /\ length ns0 = length (calls_of (a :: rest))
                /\ Forall (fun n => (n <= 3)%nat) ns0
                /\ requests_of evs = concat (zip_with replicate ns0 (calls_of (a :: rest)))).
    { intros e -> He Hp Hc. rewrite Hc.
      exists (evs2 ++ [e]), (consumed1 ++ consumed2), ns.
      split; [rewrite Htr2, Htr1, <- app_assoc; reflexivity|].
      split; [rewrite <- app_assoc, <- Hup2; exact Hup1|].
      rewrite sends_app, slept_app, requests_of_app, length_app.
      split; [lia|]. split; [lia|]. split; [exact Hns|]. split; [exact Hall|].
      rewrite Hreq. unfold requests_of at 1. simpl. rewrite He. reflexivity. }
    destruct a as [method target| | |ms].
    + destruct Ha as (Hn1 & Hs1 & Hr1).
      exists (evs2 ++ evs1), (consumed1 ++ consumed2), (sends evs1 :: ns).
      split; [rewrite Htr2, Htr1, app_assoc; reflexivity|].
      split; [rewrite <- app_assoc, <- Hup2; exact Hup1|].
      rewrite sends_app, slept_app, requests_of_app, length_app.
      split; [lia|]. simpl calls_of. cbn [paused length].
      split; [lia|]. split; [lia|]. split; [constructor; assumption|].
      simpl. rewrite Hr1, Hreq. reflexivity.
    + apply (Hquiet _ Ha); [reflexivity|simpl; lia|reflexivity].
    + apply (Hquiet _ Ha); [reflexivity|simpl; lia|reflexivity].
    + apply (Hquiet _ Ha); [reflexivity|simpl; lia|reflexivity].
Qed.

Lemma calls_of_app (l1 l2 : list Action) : calls_of (l1 ++ l2) = calls_of l1 ++ calls_of l2.
Proof. apply omap_app. Qed.

Lemma paused_app (l1 l2 : list Action) : paused (l1 ++ l2) = paused l1 + paused l2.
Proof. induction l1 as [|a l1 IH]; [reflexivity|]. destruct a; simpl; rewrite IH; lia. Qed.

Lemma pages_calls (per_page : list (list Action)) :
  Forall page_actions per_page ->
  calls_of (concat per_page)
  = replicate (length per_page) (SessionGet, "https://duckduckgo.com/i.js")
  /\ paused (concat per_page) <= 500 * Z.of_nat (length per_page).
Proof.
  induction 1 as [|p pp Hp _ [IH1 IH2]]; [split; [reflexivity|simpl; lia]|].
  simpl concat. rewrite calls_of_app, paused_app, IH1.
  destruct Hp as [-> | ->]; (split; [reflexivity|]); cbn [app paused length]; lia.
Qed.

Lemma concat_zip_replicate {A} (ns : list nat) (k : nat) (x : A) :
  length ns = k ->
  concat (zip_with replicate ns (replicate k x)) = replicate (sum_list ns) x.
Proof.
  revert k. induction ns as [|n ns IH]; intros k Hk; subst k; [reflexivity|].
  simpl. rewrite IH by reflexivity. rewrite replicate_add. reflexivity.
Qed.

Lemma length_concat_zip {A} (ns : list nat) (cs : list A) :
  length ns = length cs ->
  length (concat (zip_with replicate ns cs)) = sum_list ns.
Proof.
  revert cs. induction ns as [|n ns IH]; intros [|c cs] Hlen; try discriminate Hlen;
    [reflexivity|].
  simpl. rewrite length_app, length_replicate, IH by (simpl in Hlen; lia). reflexivity.
Qed.

Lemma sum_list_bound (ns : list nat) (b : nat) :
  Forall (fun n => (n <= b)%nat) ns -> (sum_list ns <= b * length ns)%nat.
Proof. induction 1 as [|n ns Hn _ IH]; simpl; lia. Qed.

Section Steps.
Context {lib : PyLib}.

Lemma ddg_page_actions (max_results : Z) (results : list ImageResult) (cache : gset Key)
    (w : World) :
  exists actions,
    snd (ddg_page max_results results cache w) = perform_all actions w
    /\ page_actions actions.
Proof.
  unfold ddg_page, try_except, bind, page_actions, perform_all.
  destruct (_make_request "GET" "https://duckduckgo.com/i.js" None w) as [[r|e] w1] eqn:Hreq;
    simpl.
  - destruct (page_rows r) as [rows|]; simpl.
    + destruct (ddg_rows max_results rows results cache) as [[|] st]; simpl.
      * eexists. split; [|right; reflexivity]. simpl. rewrite Hreq. reflexivity.
      * eexists. split; [|left; reflexivity]. simpl. rewrite Hreq. reflexivity.
    + eexists. split; [|left; reflexivity]. simpl. rewrite Hreq. reflexivity.
  - eexists. split; [|left; reflexivity]. simpl. rewrite Hreq. reflexivity.
Qed.

Lemma ddg_pages_actions (max_results : Z) (pages : list Z) (results : list ImageResult)
    (cache : gset Key) (w : World) :
  exists per_page,
    snd (ddg_pages max_results pages results cache w) = perform_all (concat per_page) w
    /\ (length per_page <= length pages)%nat
    /\ Forall page_actions per_page.
Proof.
  revert results cache w. induction pages as [|page rest IH]; intros results cache w.
  - exists []. split; [reflexivity|]. split; [simpl; lia|constructor].
  - rewrite ddg_pages_cons. destruct (_ >=? _).
    + exists []. split; [reflexivity|]. split; [simpl; lia|constructor].
    + unfold bind.
      destruct (ddg_page_actions max_results results cache w) as (acts & Hacts & Hpa).
      destruct (ddg_page_invariant max_results (fun _ => True) (fun _ _ _ _ => I)
                  results cache w I) as (st & Hst & _).
      destruct (ddg_page max_results results cache w) as [r w1]. simpl in Hacts, Hst.
      subst r. destruct (IH (fst st) (snd st) w1) as (pp & Hpp & Hlen & Hall).
      exists (acts :: pp). split.
      * simpl. rewrite perform_all_app, <- Hacts. exact Hpp.
      * split; [simpl; lia|]. constructor; assumption.
Qed.

Lemma search_duckduckgo_actions (keywords : string) (max_results : Z) (w : World) :
  exists per_page,
    snd (search_duckduckgo_images keywords max_results w)
    = perform_all (EnterPrimary :: Request "GET" "https://duckduckgo.com"
                   :: concat per_page) w
    /\ (length per_page <= 2)%nat
    /\ Forall page_actions per_page.
Proof.
  unfold search_duckduckgo_images, try_except, bind.
  cbn [log modify fst snd].
  set (w0 := mkWorld _ _ _ _ _ _ (EvPrimary :: trace w)).
  destruct (get_vqd_actions keywords w0) as [Hret Hw1].
  destruct (_get_vqd keywords w0) as [r w1]. simpl in Hret, Hw1. subst r.
  destruct (ddg_pages_actions max_results [0; 100] [] ∅ w1) as (pp & Hpp & Hlen & Hall).
  destruct (ddg_pages_invariant max_results (fun _ => True) (fun _ _ _ _ => I)
              [0; 100] [] ∅ w1 I) as (st & Hst & _).
  destruct (ddg_pages max_results [0; 100] [] ∅ w1) as [r w2]. simpl in Hpp, Hst.
  subst r. simpl. exists pp. split; [|split; assumption].
  subst w2 w1. reflexivity.
Qed.

Lemma search_bing_actions (keywords : string) (max_results : Z) (w : World) :
  snd (search_bing_images keywords max_results w) = perform_all fallback_actions w.
Proof.
  unfold search_bing_images, try_except, bind, fallback_actions, perform_all.
  cbn [log modify fst snd fold_left perform].
  set (w0 := mkWorld _ _ _ _ _ _ (EvFallback :: trace w)).
  destruct (_make_request "GET" search_url None w0) as [[r|e] w1]; simpl; [|reflexivity].
  destruct (soup r) as [page|]; simpl; [|reflexivity].
  destruct (bing_scripts _ _ _ _); reflexivity.
Qed.

(** the steps of [search_images], in their order *)
Lemma search_images_actions (keywords : string) (max_results : Z) (w : World) :
  exists per_page fallback,
    snd (search_images keywords max_results w)
    = perform_all (EnterPrimary :: Request "GET" "https://duckduckgo.com"
                   :: concat per_page ++ fallback) w
    /\ (length per_page <= 2)%nat
    /\ Forall page_actions per_page
    /\ (fallback = [] \/ fallback = fallback_actions).
Proof.
  unfold search_images, bind.
  destruct (search_duckduckgo_actions keywords max_results w) as (pp & Hpp & Hlen & Hall).
  destruct (search_duckduckgo_returns keywords max_results w) as [results Hres].
  destruct (search_duckduckgo_images keywords max_results w) as [r w1].
  cbn [fst snd] in Hpp, Hres. subst r.
  destruct results as [|r0 results].
  - pose proof (search_bing_actions keywords max_results w1) as Hb.
    destruct (search_bing_returns keywords max_results w1) as [results' Hres'].
    destruct (search_bing_images keywords max_results w1) as [r w2].
    cbn [fst snd] in Hb, Hres'. subst r.
    exists pp, fallback_actions. split; [|auto].
    change (EnterPrimary :: Request "GET" "https://duckduckgo.com"
            :: concat pp ++ fallback_actions)
      with ((EnterPrimary :: Request "GET" "https://duckduckgo.com" :: concat pp)
            ++ fallback_actions).
    rewrite perform_all_app, <- Hpp.
    destruct results'; exact Hb.
  - exists pp, []. rewrite app_nil_r. cbn [snd]. auto.
Qed.

(** X12. The requests of a search, in the order they are sent: GETs to
    the landing page of the primary provider, at most three; then GETs
    to its [i.js] endpoint, at most six; then GETs to the search page of
    the secondary provider, at most three.  Nothing else is requested. *)
Theorem search_images_requests (keywords : string) (max_results : Z) (w : World) :
  let w' := snd (search_images keywords max_results w) in
  exists evs a b c,
    trace w' = evs ++ trace w
    /\ requests_of evs
       = replicate a (SessionGet, "https://duckduckgo.com")
         ++ replicate b (SessionGet, "https://duckduckgo.com/i.js")
         ++ replicate c (SessionGet, "https://www.bing.com/images/search")
    /\ (a <= 3)%nat /\ (b <= 6)%nat /\ (c <= 3)%nat.
Proof.
  cbv zeta.
  destruct (search_images_actions keywords max_results w)
    as (pp & fb & -> & Hlen & Hpages & Hfb).
  destruct (perform_all_cost
              (EnterPrimary :: Request "GET" "https://duckduckgo.com" :: concat pp ++ fb) w)
    as (evs & _ & ns & Htr & _ & _ & _ & Hns & Hall & Hreq).
  destruct (pages_calls pp Hpages) as [Hcalls _].
  change (calls_of (EnterPrimary :: Request "GET" "https://duckduckgo.com"
                    :: concat pp ++ fb))
    with ((SessionGet, "https://duckduckgo.com") :: calls_of (concat pp ++ fb))
    in Hns, Hreq.
  rewrite calls_of_app, Hcalls in Hns, Hreq.
  destruct ns as [|n0 ns]; [discriminate Hns|].
  inversion Hall as [|? ? Hn0 Hall']; subst.
  cbn [zip_with concat length] in Hns, Hreq. injection Hns as Hns.
  rewrite length_app, length_replicate in Hns.
  rewrite <- (take_drop (length pp) ns) in Hreq.
  rewrite zip_with_app in Hreq by (rewrite length_take, length_replicate; lia).
  rewrite concat_app in Hreq.
  rewrite concat_zip_replicate in Hreq by (rewrite length_take; lia).
  pose proof (sum_list_bound _ 3 (Forall_take _ (length pp) _ Hall')) as Hb.
  rewrite length_take in Hb.
  exists evs, n0, (sum_list (take (length pp) ns)).
  destruct Hfb as [-> | ->].
  - exists O. split; [exact Htr|]. split; [|lia].
    rewrite Hreq. simpl calls_of.
    destruct (drop (length pp) ns); reflexivity.
  - simpl in Hns.
    destruct (drop (length pp) ns) as [|n3 [|? ?]] eqn:Hdrop.
    + apply (f_equal length) in Hdrop. rewrite length_drop in Hdrop. simpl in Hdrop. lia.
    + exists n3. split; [exact Htr|]. split.
      * rewrite Hreq. simpl. rewrite app_nil_r. reflexivity.
      * assert (Hn3 : (n3 <= 3)%nat).
        { pose proof (Forall_drop _ (length pp) _ Hall') as Hd. rewrite Hdrop in Hd.
          inversion Hd; assumption. }
        lia.
    + apply (f_equal length) in Hdrop. rewrite length_drop in Hdrop. simpl in Hdrop. lia.
Qed.

(** X13. A search sends at most twelve requests, takes at most one
    answer of the outside for each, and sleeps at most 57 seconds in
    all. *)
Theorem search_images_budget (keywords : string) (max_results : Z) (w : World) :
  let w' := snd (search_images keywords max_results w) in
  exists evs consumed,
    trace w' = evs ++ trace w
    /\ upstream w = consumed ++ upstream w'
    /\ (length consumed <= sends evs)%nat
    /\ (sends evs <= 12)%nat
    /\ slept evs <= 57000.
Proof.
  cbv zeta.
  destruct (search_images_actions keywords max_results w)
    as (pp & fb & -> & Hlen & Hpages & Hfb).
  destruct (perform_all_cost
              (EnterPrimary :: Request "GET" "https://duckduckgo.com" :: concat pp ++ fb) w)
    as (evs & consumed & ns & Htr & Hup & Hcons & Hslept & Hns & Hall & Hreq).
  destruct (pages_calls pp Hpages) as [Hcalls Hpaused].
  exists evs, consumed.
  split; [exact Htr|]. split; [exact Hup|]. split; [exact Hcons|].
  assert (Hcount : (length (calls_of (EnterPrimary :: Request "GET" "https://duckduckgo.com"
                                      :: concat pp ++ fb)) <= 4)%nat
                   /\ paused (EnterPrimary :: Request "GET" "https://duckduckgo.com"
                              :: concat pp ++ fb) <= 1000).
  { change (calls_of (EnterPrimary :: Request "GET" "https://duckduckgo.com"
                      :: concat pp ++ fb))
      with ((SessionGet, "https://duckduckgo.com") :: calls_of (concat pp ++ fb)).
    change (paused (EnterPrimary :: Request "GET" "https://duckduckgo.com"
                    :: concat pp ++ fb))
      with (paused (concat pp ++ fb)).
    rewrite calls_of_app, Hcalls. cbn [length]. rewrite length_app, length_replicate.
    rewrite paused_app. destruct Hfb as [-> | ->]; simpl; lia. }
  destruct Hcount as [Hfour Hpause].
  split.
  - rewrite <- requests_length, Hreq, length_concat_zip by exact Hns.
    pose proof (sum_list_bound ns 3 Hall). lia.
  - lia.
Qed.

End Steps.

(** ** How many results a search returns, and what the secondary provider's look like *)

Section Results.
Context {lib : PyLib}.

Lemma bing_matches_length (keywords : string) (max_results : Z)
    (matches : list (string * string * string)) (results : list ImageResult) :
  Z.of_nat (length results) <= Z.max 0 max_results ->
  Z.of_nat (length (bing_matches keywords max_results matches results))
  <= Z.max 0 max_results.
Proof.
  revert results. induction matches as [|[[murl turl] t] rest IH]; intros results Hlen.
  - exact Hlen.
  - simpl. destruct (Z.of_nat (length results) >=? max_results) eqn:Hfull; [exact Hlen|].
    apply geb_false in Hfull. apply IH. rewrite length_app. simpl. lia.
Qed.

Lemma bing_scripts_length (keywords : string) (max_results : Z)
    (scripts : list (option string)) (results : list ImageResult) :
  Z.of_nat (length results) <= Z.max 0 max_results ->
  Z.of_nat (length (bing_scripts keywords max_results scripts results))
  <= Z.max 0 max_results.
Proof.
  revert results. induction scripts as [|script rest IH]; intros results Hlen.
  - exact Hlen.
  - simpl. destruct script as [content|]; [|apply IH; exact Hlen].
    destruct (Py.nonempty content && Py.contains "mediaurl" (Py.lower content));
      [|apply IH; exact Hlen].
    pose proof (bing_matches_length keywords max_results
                  (Py.slice_to max_results (re_findall_murl content)) results Hlen) as Hm.
    destruct (bing_matches _ _ _ _) as [|r rs]; [apply IH; exact Hm|exact Hm].
Qed.

Lemma bing_imgs_length (keywords : string) (max_results : Z) (imgs : list ImgTag)
    (results : list ImageResult) (examined : nat) :
  Z.of_nat (length results) <= Z.max 0 max_results ->
  Z.of_nat (length (fst (bing_imgs keywords max_results imgs results examined)))
  <= Z.max 0 max_results.
Proof.
  revert results examined. induction imgs as [|img rest IH]; intros results examined Hlen.
  - exact Hlen.
  - simpl. destruct (Z.of_nat (length results) >=? max_results) eqn:Hfull; [exact Hlen|].
    apply geb_false in Hfull.
    destruct (skipped img); apply IH; [exact Hlen|].
    rewrite length_app. simpl. lia.
Qed.

Lemma search_bing_length (keywords : string) (max_results : Z) (w : World) :
  exists results,
    fst (search_bing_images keywords max_results w) = Ret results
    /\ Z.of_nat (length results) <= Z.max 0 max_results.
Proof.
  unfold search_bing_images, try_except, bind.
  cbn [log modify fst snd].
  destruct (_make_request "GET" search_url None _) as [[r|e] w1]; simpl;
    [|exists []; split; [reflexivity|simpl; lia]].
  destruct (soup r) as [page|]; simpl; [|exists []; split; [reflexivity|simpl; lia]].
  pose proof (bing_scripts_length keywords max_results (script_tags page) []
                ltac:(simpl; lia)) as Hs.
  destruct (bing_scripts keywords max_results (script_tags page) []) as [|r0 rs]; simpl.
  - eexists. split; [reflexivity|]. unfold bing_method2.
    apply bing_imgs_length. simpl. lia.
  - eexists. split; [reflexivity|exact Hs].
Qed.

Lemma search_duckduckgo_length (keywords : string) (max_results : Z) (w : World) :
  exists results,
    fst (search_duckduckgo_images keywords max_results w) = Ret results
    /\ Z.of_nat (length results) <= Z.max 0 max_results.
Proof.
  apply (search_duckduckgo_invariant max_results
           (fun results => Z.of_nat (length results) <= Z.max 0 max_results)).
  - intros rows results cache. apply ddg_rows_length.
  - simpl. lia.
Qed.

Lemma search_images_returns (keywords : string) (max_results : Z) (w : World) :
  exists results engine,
    fst (search_images keywords max_results w) = Ret (results, engine).
Proof.
  unfold search_images, bind.
  destruct (search_duckduckgo_returns keywords max_results w) as [r1 Hr1].
  destruct (search_duckduckgo_images keywords max_results w) as [x w1].
  simpl in Hr1. subst x.
  destruct r1 as [|r0 r1]; [|simpl; eauto].
  destruct (search_bing_returns keywords max_results w1) as [r2 Hr2].
  destruct (search_bing_images keywords max_results w1) as [x w2].
  simpl in Hr2. subst x.
  destruct r2; simpl; eauto.
Qed.

(** X14. Whatever the outside answers, [search_images] returns, and
    never more than [max_results] results (none when [max_results] is
    not positive), whichever provider they come from; the engine it
    names is [None] exactly when there are no results. *)
Theorem search_images_length (keywords : string) (max_results : Z) (w : World) :
  exists results engine,
    fst (search_images keywords max_results w) = Ret (results, engine)
    /\ Z.of_nat (length results) <= Z.max 0 max_results
    /\ (engine = "DuckDuckGo" \/ engine = "Bing" \/ engine = "None")
    /\ (engine = "None" <-> results = []).
Proof.
  unfold search_images, bind.
  destruct (search_duckduckgo_length keywords max_results w) as (r1 & Hr1 & Hl1).
  destruct (search_duckduckgo_images keywords max_results w) as [x w1].
  simpl in Hr1. subst x.
  destruct r1 as [|r0 r1].
  - destruct (search_bing_length keywords max_results w1) as (r2 & Hr2 & Hl2).
    destruct (search_bing_images keywords max_results w1) as [x w2].
    simpl in Hr2. subst x.
    destruct r2 as [|r0 r2]; simpl.
    + exists [], "None". repeat split; auto.
    + eexists _, "Bing". split; [reflexivity|]. split; [exact Hl2|].
      split; [auto|]. split; intros Hx; discriminate Hx.
  - simpl. eexists _, "DuckDuckGo". split; [reflexivity|]. split; [exact Hl1|].
    split; [auto|]. split; intros Hx; discriminate Hx.
Qed.

Lemma int_digits_nonneg (s : string) (acc : Z) : 0 <= acc -> 0 <= Py.int_digits acc s.
Proof.
  revert acc. induction s as [|a s IH]; intros acc Hacc; simpl; [exact Hacc|].
  apply IH. lia.
Qed.

Lemma bing_matches_from_scripts (keywords : string) (max_results : Z)
    (matches : list (string * string * string)) (results : list ImageResult) :
  Forall from_scripts results ->
  Forall from_scripts (bing_matches keywords max_results matches results).
Proof.
  revert results. induction matches as [|[[murl turl] t] rest IH]; intros results Hall.
  - exact Hall.
  - simpl. destruct (Z.of_nat (length results) >=? max_results); [exact Hall|].
    apply IH. apply Forall_app. split; [exact Hall|]. constructor; [|constructor].
    unfold from_scripts. simpl. repeat split.
    destruct t; simpl; [|intros Hx; discriminate Hx].
    destruct keywords; intros Hx; discriminate Hx.
Qed.

Lemma bing_scripts_from_scripts (keywords : string) (max_results : Z)
    (scripts : list (option string)) (results : list ImageResult) :
  Forall from_scripts results ->
  Forall from_scripts (bing_scripts keywords max_results scripts results).
Proof.
  revert results. induction scripts as [|script rest IH]; intros results Hall.
  - exact Hall.
  - simpl. destruct script as [content|]; [|apply IH; exact Hall].
    destruct (Py.nonempty content && Py.contains "mediaurl" (Py.lower content));
      [|apply IH; exact Hall].
    pose proof (bing_matches_from_scripts keywords max_results
                  (Py.slice_to max_results (re_findall_murl content)) results Hall) as Hm.
    destruct (bing_matches _ _ _ _) as [|r rs]; [apply IH; exact Hm|exact Hm].
Qed.

Lemma bing_imgs_from_img_tags (keywords : string) (max_results : Z) (imgs : list ImgTag)
    (results : list ImageResult) (examined : nat) :
  Forall from_img_tags results ->
  Forall from_img_tags (fst (bing_imgs keywords max_results imgs results examined)).
Proof.
  revert results examined. induction imgs as [|img rest IH]; intros results examined Hall.
  - exact Hall.
  - simpl. destruct (Z.of_nat (length results) >=? max_results); [exact Hall|].
    destruct (skipped img); apply IH; [exact Hall|].
    apply Forall_app. split; [exact Hall|]. constructor; [|constructor].
    unfold from_img_tags, img_result. simpl. repeat split.
    + destruct (Py.isdigit _); [apply int_digits_nonneg|]; lia.
    + destruct (Py.isdigit _); [apply int_digits_nonneg|]; lia.
Qed.

(** X15. The results of the secondary provider are never a mix of its
    two methods.  Either all come from the script data: source [Bing],
    the search page as page URL, no dimensions and a title that is not
    empty; or all come from the image elements: source [Bing (fallback)],
    the search page as page URL, the image as its own thumbnail, and
    dimensions that are not negative. *)
Theorem search_bing_images_sources (keywords : string) (max_results : Z) (w : World) :
  exists results,
    fst (search_bing_images keywords max_results w) = Ret results
    /\ (Forall from_scripts results \/ Forall from_img_tags results).
Proof.
  unfold search_bing_images, try_except, bind.
  cbn [log modify fst snd].
  destruct (_make_request "GET" search_url None _) as [[r|e] w1]; simpl;
    [|exists []; split; [reflexivity|left; constructor]].
  destruct (soup r) as [page|]; simpl; [|exists []; split; [reflexivity|left; constructor]].
  pose proof (bing_scripts_from_scripts keywords max_results (script_tags page) []
                ltac:(constructor)) as Hs.
  destruct (bing_scripts keywords max_results (script_tags page) []) as [|r0 rs]; simpl.
  - eexists. split; [reflexivity|]. right. unfold bing_method2.
    apply bing_imgs_from_img_tags. constructor.
  - eexists. split; [reflexivity|]. left. exact Hs.
Qed.

End Results.

(** ** A search that the first page answers *)

Section FirstPage.
Context {lib : PyLib}.

(** X16. When no proxy is due, the landing page and the first page of the
    primary provider are answered with status 200 at once, and the rows
    of that page are well formed and give at least [max_results] results,
    a search returns the first [max_results] of them with engine
    [DuckDuckGo] after exactly two requests and half a second of sleep:
    the second page and the secondary provider are not asked. *)
Theorem first_page_suffices (keywords : string) (max_results : Z) (w : World)
    (r0 r1 : Response) (rest : list NetOutcome) (rows : list JValue) :
  rate_limit_count w <= 2 ->
  upstream w = Answers r0 :: Answers r1 :: rest ->
  status_code r0 = 200 -> status_code r1 = 200 ->
  page_rows r1 = Some rows ->
  Forall well_formed rows ->
  0 < max_results <= Z.of_nat (length (omap row_result (kept rows ∅))) ->
  let run := search_images keywords max_results w in
  fst run = Ret (take (Z.to_nat max_results) (omap row_result (kept rows ∅)), "DuckDuckGo")
  /\ upstream (snd run) = rest
  /\ exists evs,
       trace (snd run) = evs ++ trace w
       /\ requests_of evs = [(SessionGet, "https://duckduckgo.com");
                             (SessionGet, "https://duckduckgo.com/i.js")]
       /\ slept evs = 500.
Proof.
  intros Hc Hup H0 H1 Hrows Hwf Hmax. cbv zeta.
  unfold search_images, bind, search_duckduckgo_images, try_except, bind.
  cbn [log modify fst snd].
  unfold _get_vqd, try_except, bind.
  match goal with |- context [_make_request ?m ?u None ?w0] =>
    rewrite (make_request_ok m u w0 r0 (Answers r1 :: rest)) by (simpl; auto) end.
  cbn [ret fst snd].
  set (w1 := after_ok _ _ _ _).
  assert (Hc1 : rate_limit_count w1 <= 2) by (subst w1; simpl; lia).
  rewrite ddg_pages_cons.
  rewrite geb_false_intro by (simpl; lia). unfold bind.
  unfold ddg_page, try_except, bind.
  rewrite (make_request_ok "GET" "https://duckduckgo.com/i.js" w1 r1 rest Hc1 eq_refl H1).
  rewrite Hrows.
  destruct (ddg_rows_well_formed max_results rows [] ∅ Hwf) as (Hdone & Hres & _).
  cbv zeta in Hres. simpl in Hres. rewrite Z.sub_0_r in Hres.
  destruct (ddg_rows max_results rows [] ∅) as [e [results cache]].
  simpl in Hdone, Hres. subst e results.
  cbn [sleep log modify ret fst snd].
  rewrite ddg_pages_cons.
  rewrite geb_true_intro by (rewrite length_take; lia).
  cbn [ret fst snd].
  assert (Hne : take (Z.to_nat max_results) (omap row_result (kept rows ∅)) <> []).
  { intros Hnil. apply (f_equal length) in Hnil. rewrite length_take in Hnil.
    simpl in Hnil. lia. }
  destruct (take (Z.to_nat max_results) (omap row_result (kept rows ∅))) as [|x xs];
    [contradiction|].
  cbn [ret fst snd].
  split; [reflexivity|]. split; [reflexivity|].
  subst w1. unfold after_ok. cbn [trace rate_limit_count].
  eexists [_; _; _; _; _; _]. split; [reflexivity|]. split; reflexivity.
Qed.

End FirstPage.

Lemma first_page_suffices_witness :
  fst (search_images (H := plain_lib) "cat" 4 (primary_world six_absolute four_absolute))
  = Ret (take 4 (omap (row_result (H := plain_lib)) (kept six_absolute ∅)), "DuckDuckGo")
  /\ upstream (snd (search_images (H := plain_lib) "cat" 4
                      (primary_world six_absolute four_absolute)))
     = [Answers (results_page four_absolute)].
Proof.
  destruct (first_page_suffices (lib := plain_lib) "cat" 4
              (primary_world six_absolute four_absolute)
              landing_page (results_page six_absolute)
              [Answers (results_page four_absolute)] six_absolute)
    as (Hres & Hup & _).
  - simpl. lia.
  - reflexivity.
  - reflexivity.
  - reflexivity.
  - reflexivity.
  - apply (entries_well_formed
             ["https://img.example/1.jpg"; "https://img.example/2.jpg";
              "https://img.example/3.jpg"; "https://img.example/4.jpg";
              "https://img.example/5.jpg"; "https://img.example/6.jpg"]).
  - vm_compute. split; [reflexivity|]. intros Hx; discriminate Hx.
  - split; [exact Hres|exact Hup].
Defined.

(** ** search_duckduckgo_images: pages and rows that fail *)

Section Failures.
Context {lib : PyLib}.

(** the rows before a row that cannot be turned into a result *)
Lemma ddg_rows_until_broken (max_results : Z) (good more : list JValue)
    (fields : list (string * JValue)) (s : string)
    (results : list ImageResult) (cache : gset Key) :
  Forall well_formed good ->
  dict_get fields "image" JNull = JStr s ->
  Py.nonempty s = true ->
  Some (inl s) ∉ seen_after good cache ->
  ddg_result fields (JStr s) = None ->
  Z.of_nat (length results + length (omap row_result (kept good cache))) < max_results ->
  ddg_rows max_results (good ++ JObj fields :: more) results cache
  = (RowsRaised, (results ++ omap row_result (kept good cache),
                  {[ Some (inl s) ]} ∪ seen_after good cache)).
Proof.
  intros Hwf Himg Hne Hnew Hbad. revert results cache Hnew.
  induction Hwf as [|row rest [[rfields ->] Hrow] _ IH]; intros results cache Hnew Hlen.
  - simpl in Hlen, Hnew |- *. rewrite geb_false_intro by lia.
    rewrite Himg. simpl. rewrite Hne.
    rewrite bool_decide_eq_false_2 by exact Hnew.
    rewrite Hbad, app_nil_r. reflexivity.
  - cbn [app ddg_rows kept seen_after row_image] in *.
    assert (Hroom : Z.of_nat (length results) < max_results) by lia.
    rewrite geb_false_intro by exact Hroom.
    destruct (truthy (dict_get rfields "image" JNull)) eqn:Htruthy.
    2:{ destruct (dict_get rfields "image" JNull) as [| | |u| |] eqn:Eimg;
          try (apply IH; assumption).
        simpl in Htruthy. rewrite Htruthy in *. simpl in *. apply IH; assumption. }
    destruct (Hrow eq_refl) as [[u Hu] [result Hresult]].
    rewrite Hu in *. simpl in Htruthy. rewrite Htruthy in *.
    cbn [hash_key andb] in *.
    destruct (bool_decide (Some (inl u) ∈ cache)) eqn:Hseen; cbn [negb] in *.
    { apply IH; assumption. }
    cbn [row_result] in Hresult. rewrite Hu in Hresult. rewrite Hresult.
    cbn [omap list_omap row_result] in Hlen |- *. rewrite Hu, Hresult in Hlen |- *.
    rewrite IH.
    + rewrite <- app_assoc. reflexivity.
    + exact Hnew.
    + rewrite length_app. simpl length in *. lia.
Qed.

(** X17. A row that cannot be turned into a result ends its page: the
    results of the rows before it are kept, the rows after it are lost,
    and its image URL stays in the set of seen URLs.  The next page is
    still requested, and a search served two pages returns the results
    of the rows before the broken row followed by those of the second
    page, up to [max_results], skipping on the second page the URL of
    the broken row as one already seen. *)
Theorem broken_row_ends_its_page (keywords : string) (max_results : Z) (w : World)
    (r0 r1 r2 : Response) (rest : list NetOutcome)
    (good more p2 : list JValue) (fields : list (string * JValue)) (s : string) :
  rate_limit_count w <= 2 ->
  upstream w = Answers r0 :: Answers r1 :: Answers r2 :: rest ->
  status_code r0 = 200 -> status_code r1 = 200 -> status_code r2 = 200 ->
  page_rows r1 = Some (good ++ JObj fields :: more) ->
  page_rows r2 = Some p2 ->
  Forall well_formed good -> Forall well_formed p2 ->
  dict_get fields "image" JNull = JStr s ->
  Py.nonempty s = true ->
  Some (inl s) ∉ seen_after good ∅ ->
  ddg_result fields (JStr s) = None ->
  Z.of_nat (length (omap row_result (kept good ∅))) < max_results ->
  fst (search_duckduckgo_images keywords max_results w)
  = Ret (take (Z.to_nat max_results)
              (omap row_result (kept good ∅)
               ++ omap row_result (kept p2 ({[ Some (inl s) ]} ∪ seen_after good ∅)))).
Proof.
  intros Hc Hup H0 H1 H2 Hp1 Hp2 Hwf1 Hwf2 Himg Hne Hnew Hbad Hlen.
  unfold search_duckduckgo_images, try_except, bind.
  cbn [log modify fst snd].
  unfold _get_vqd, try_except, bind.
  match goal with |- context [_make_request ?m ?u None ?w0] =>
    rewrite (make_request_ok m u w0 r0 (Answers r1 :: Answers r2 :: rest))
      by (simpl; auto) end.
  cbn [ret fst snd].
  set (w1 := after_ok _ _ _ _).
  assert (Hc1 : rate_limit_count w1 <= 2) by (subst w1; simpl; lia).
  set (X1 := omap row_result (kept good ∅)) in *.
  set (C1 := {[ Some (inl s) ]} ∪ seen_after good ∅).
  rewrite ddg_pages_cons.
  rewrite geb_false_intro by (simpl; lia). unfold bind.
  unfold ddg_page at 1, try_except, bind.
  rewrite (make_request_ok "GET" "https://duckduckgo.com/i.js" w1 r1
             (Answers r2 :: rest) Hc1 eq_refl H1).
  rewrite Hp1.
  rewrite (ddg_rows_until_broken max_results good more fields s [] ∅
             Hwf1 Himg Hne Hnew Hbad) by (simpl; fold X1; lia).
  cbn [ret fst snd app]. fold X1 C1.
  set (w2 := after_ok _ _ _ _).
  assert (Hc2 : rate_limit_count w2 <= 2) by (subst w2; simpl; lia).
  rewrite ddg_pages_cons.
  rewrite geb_false_intro by lia. unfold bind.
  destruct (ddg_page_served max_results X1 C1 w2 r2 rest p2 Hc2 eq_refl H2 Hp2 Hwf2)
    as (w3 & -> & _ & _).
  destruct (ddg_rows_well_formed max_results p2 X1 C1 Hwf2) as (_ & Hres2 & _).
  cbv zeta in Hres2.
  destruct (ddg_rows max_results p2 X1 C1) as [e2 [results2 cache2]].
  simpl in Hres2. subst results2. cbn [fst snd].
  unfold ddg_pages. cbn [ret fst snd]. f_equal.
  rewrite take_app_ge by lia. f_equal. f_equal. lia.
Qed.

(** X18. A page that fails does not end the search.  When the first page
    of the primary provider is answered with something that is no JSON
    document with rows, its handler goes on to the second page without
    the half second of sleep, and the search returns the results of the
    second page. *)
Theorem failed_page_is_passed_over (keywords : string) (max_results : Z) (w : World)
    (r0 r1 r2 : Response) (rest : list NetOutcome) (p2 : list JValue) :
  rate_limit_count w <= 2 ->
  upstream w = Answers r0 :: Answers r1 :: Answers r2 :: rest ->
  status_code r0 = 200 -> status_code r1 = 200 -> status_code r2 = 200 ->
  page_rows r1 = None ->
  page_rows r2 = Some p2 ->
  Forall well_formed p2 ->
  0 < max_results ->
  let run := search_duckduckgo_images keywords max_results w in
  fst run = Ret (take (Z.to_nat max_results) (omap row_result (kept p2 ∅)))
  /\ upstream (snd run) = rest
  /\ exists evs, trace (snd run) = evs ++ trace w /\ slept evs = 500.
Proof.
  intros Hc Hup H0 H1 H2 Hp1 Hp2 Hwf2 Hmax. cbv zeta.
  assert (Hrun : exists w',
            search_duckduckgo_images keywords max_results w
            = (Ret (take (Z.to_nat max_results) (omap row_result (kept p2 ∅))), w')
            /\ upstream w' = rest
            /\ exists evs, trace w' = evs ++ trace w /\ slept evs = 500).
  { unfold search_duckduckgo_images, try_except, bind.
    cbn [log modify fst snd].
    unfold _get_vqd, try_except, bind.
    match goal with |- context [_make_request ?m ?u None ?w0] =>
      rewrite (make_request_ok m u w0 r0 (Answers r1 :: Answers r2 :: rest))
        by (simpl; auto) end.
    cbn [ret fst snd].
    set (w1 := after_ok _ _ _ _).
    assert (Hc1 : rate_limit_count w1 <= 2) by (subst w1; simpl; lia).
    rewrite ddg_pages_cons.
    rewrite geb_false_intro by (simpl; lia). unfold bind.
    unfold ddg_page at 1, try_except, bind.
    rewrite (make_request_ok "GET" "https://duckduckgo.com/i.js" w1 r1
               (Answers r2 :: rest) Hc1 eq_refl H1).
    rewrite Hp1. cbn [raise ret fst snd].
    set (w2 := after_ok _ _ _ _).
    assert (Hc2 : rate_limit_count w2 <= 2) by (subst w2; simpl; lia).
    rewrite ddg_pages_cons.
    rewrite geb_false_intro by (simpl; lia). unfold bind.
    unfold ddg_page, try_except, bind.
    rewrite (make_request_ok "GET" "https://duckduckgo.com/i.js" w2 r2 rest Hc2 eq_refl H2).
    rewrite Hp2.
    destruct (ddg_rows_well_formed max_results p2 [] ∅ Hwf2) as (Hdone & Hres2 & _).
    cbv zeta in Hres2. simpl in Hres2. rewrite Z.sub_0_r in Hres2.
    destruct (ddg_rows max_results p2 [] ∅) as [e2 [results2 cache2]].
    simpl in Hdone, Hres2. subst e2 results2.
    cbn [sleep log modify ret fst snd]. unfold ddg_pages. cbn [ret fst snd].
    eexists. split; [reflexivity|]. split; [reflexivity|].
    subst w2 w1. unfold after_ok. cbn [trace rate_limit_count].
    eexists [_; _; _; _; _; _; _; _]. split; [reflexivity|reflexivity]. }
  destruct Hrun as (w' & -> & Hrest & Hevs). auto.
Qed.

End Failures.

Lemma failed_page_is_passed_over_witness :
  exists results,
    fst (search_duckduckgo_images (H := plain_lib) "cat" 3 bad_first_page_world)
    = Ret results
    /\ map image results
       = ["https://img.example/7.jpg"; "https://img.example/8.jpg";
          "https://img.example/9.jpg"].
Proof.
  destruct (failed_page_is_passed_over (lib := plain_lib) "cat" 3 bad_first_page_world
              landing_page (plain_response 200) (results_page four_absolute) []
              four_absolute) as (Hres & _).
  - simpl. lia.
  - reflexivity.
  - reflexivity.
  - reflexivity.
  - reflexivity.
  - reflexivity.
  - reflexivity.
  - apply (entries_well_formed
             ["https://img.example/7.jpg"; "https://img.example/8.jpg";
              "https://img.example/9.jpg"; "http://img.example/10.jpg"]).
  - lia.
  - eexists. split; [exact Hres|]. vm_compute. reflexivity.
Defined.

Lemma broken_row_ends_its_page_witness :
  exists results,
    fst (search_duckduckgo_images (H := plain_lib) "cat" 8
           (primary_world broken_page four_absolute)) = Ret results
    /\ map image results
       = ["https://img.example/1.jpg"; "https://img.example/7.jpg";
          "https://img.example/8.jpg"; "https://img.example/9.jpg";
          "http://img.example/10.jpg"].
Proof.
  eexists. split.
  - apply (broken_row_ends_its_page (lib := plain_lib) "cat" 8
             (primary_world broken_page four_absolute)
             landing_page (results_page broken_page) (results_page four_absolute) []
             [entry "https://img.example/1.jpg"] [entry "https://img.example/3.jpg"]
             four_absolute
             [("image", JStr "https://img.example/2.jpg"); ("height", JStr "tall")]
             "https://img.example/2.jpg").
    + simpl. lia.
    + reflexivity.
    + reflexivity.
    + reflexivity.
    + reflexivity.
    + reflexivity.
    + reflexivity.
    + apply (entries_well_formed ["https://img.example/1.jpg"]).
    + apply (entries_well_formed
               ["https://img.example/7.jpg"; "https://img.example/8.jpg";
                "https://img.example/9.jpg"; "http://img.example/10.jpg"]).
    + reflexivity.
    + reflexivity.
    + apply (bool_decide_unpack _). vm_compute. exact I.
    + reflexivity.
    + vm_compute. reflexivity.
  - vm_compute. reflexivity.
Defined.

(** ** fetch_image_from_url *)

Section FetchProperties.
Context {web : WebLib}.

Lemma fetch_image_actions (image_url : string) (w : World) :
  snd (fetch_image_from_url image_url w) = perform w (Request "GET" image_url).
Proof.
  unfold fetch_image_from_url, try_except, bind, perform.
  destruct (_make_request "GET" image_url None w) as [[r|e] w1]; simpl; [|reflexivity].
  destruct (negb _); simpl; [reflexivity|].
  destruct (response_content r); reflexivity.
Qed.

Lemma fetch_image_from_url_returns (image_url : string) (w : World) :
  exists data error, fst (fetch_image_from_url image_url w) = Ret (data, error).
Proof.
  unfold fetch_image_from_url, try_except, bind.
  destruct (_make_request "GET" image_url None w) as [[r|e] w1]; simpl; [|eauto].
  destruct (negb _); simpl; [eauto|].
  destruct (response_content r); simpl; eauto.
Qed.

(** what [fetch_image_from_url] returns, and from which response *)
Lemma fetch_image_from_url_spec (image_url : string) (w : World) :
  exists data error,
    fst (fetch_image_from_url image_url w) = Ret (data, error)
    /\ match data with
       | Some bytes =>
           error = None
           /\ exists r content_type,
                Answers r ∈ upstream w
                /\ is_http_error (status_code r) = false
                /\ header_content_type r = Some content_type
                /\ Py.startswith content_type "image/" = true
                /\ response_content r = Ret bytes
       | None => exists msg, error = Some msg
       end.
Proof.
  unfold fetch_image_from_url, try_except, bind, _make_request.
  pose proof (make_request_from_result (range max_retries) (verb_of "GET") image_url
                None None w) as Hout.
  cbv zeta in Hout.
  destruct (make_request_from (range max_retries) (verb_of "GET") image_url None None w)
    as [[r|e] w1]; simpl in Hout |- *.
  2:{ eexists None, _. split; [reflexivity|]. eexists. reflexivity. }
  destruct Hout as (Herr & skipped & Hup & _).
  destruct (Py.startswith (default "" (header_content_type r)) "image/") eqn:Hct; simpl.
  2:{ eexists None, _. split; [reflexivity|]. eexists. reflexivity. }
  destruct (response_content r) as [bytes|e] eqn:Hbody; simpl.
  2:{ eexists None, _. split; [reflexivity|]. eexists. reflexivity. }
  exists (Some bytes), None. split; [reflexivity|]. split; [reflexivity|].
  destruct (header_content_type r) as [ct|] eqn:Hhdr; [|discriminate Hct].
  exists r, ct. split.
  - rewrite Hup. apply elem_of_app. right. apply elem_of_cons. left. reflexivity.
  - auto.
Qed.

(** X19. [fetch_image_from_url] never raises, and returns either the
    data without an error or an error without data.  It returns data
    only when the session was given a response with a status outside
    400-599 and a [content-type] header that starts with [image/], and
    the data is the body of that response. *)
Theorem fetch_image_from_url_result (image_url : string) (w : World) :
  exists data error,
    fst (fetch_image_from_url image_url w) = Ret (data, error)
    /\ match data with
       | Some bytes =>
           error = None
           /\ exists r content_type,
                Answers r ∈ upstream w
                /\ is_http_error (status_code r) = false
                /\ header_content_type r = Some content_type
                /\ Py.startswith content_type "image/" = true
                /\ response_content r = Ret bytes
       | None => exists msg, error = Some msg
       end.
Proof. exact (fetch_image_from_url_spec image_url w). Qed.

End FetchProperties.

(** ** The routes *)

Lemma getitem_lookup {A} (l : list A) (i : Z) :
  0 <= i -> list_getitem l i = l !! Z.to_nat i.
Proof.
  intros Hi. unfold list_getitem. apply Z.leb_le in Hi. rewrite Hi. reflexivity.
Qed.

Lemma perform_loaded (a : Action) (w : World) :
  failed_are_loaded w -> failed_are_loaded (perform w a).
Proof.
  intros Hinv. destruct a as [method target| | |ms]; try exact Hinv.
  apply make_request_from_loaded; [exact Hinv|left; reflexivity].
Qed.

Lemma perform_healthy (a : Action) (w : World) :
  healthy w -> healthy (perform w a).
Proof.
  intros Hh. destruct a as [method target| | |ms].
  - apply make_request_healthy. exact Hh.
  - destruct Hh as [Hc Ht]. split; [exact Hc|]. constructor; [exact I|exact Ht].
  - destruct Hh as [Hc Ht]. split; [exact Hc|]. constructor; [exact I|exact Ht].
  - destruct Hh as [Hc Ht]. split; [exact Hc|]. constructor; [exact I|exact Ht].
Qed.

Lemma perform_no_pool (a : Action) (w : World) :
  proxies w = [] ->
  same_pool w (perform w a)
  /\ exists evs, trace (perform w a) = evs ++ trace w /\ Forall without_proxy evs.
Proof.
  intros Hp. destruct a as [method target| | |ms].
  - apply make_request_from_no_pool. exact Hp.
  - split; [repeat split|]. exists [EvPrimary]. split; [reflexivity|repeat constructor].
  - split; [repeat split|]. exists [EvFallback]. split; [reflexivity|repeat constructor].
  - split; [repeat split|]. exists [EvSleep ms ms]. split; [reflexivity|repeat constructor].
Qed.

Lemma perform_all_loaded (actions : list Action) (w : World) :
  failed_are_loaded w -> failed_are_loaded (perform_all actions w).
Proof.
  revert w. induction actions as [|a rest IH]; intros w Hinv; [exact Hinv|].
  apply IH. apply perform_loaded. exact Hinv.
Qed.

Lemma perform_all_healthy (actions : list Action) (w : World) :
  healthy w -> healthy (perform_all actions w).
Proof.
  revert w. induction actions as [|a rest IH]; intros w Hh; [exact Hh|].
  apply IH. apply perform_healthy. exact Hh.
Qed.

Lemma perform_all_no_pool (actions : list Action) (w : World) :
  proxies w = [] ->
  same_pool w (perform_all actions w)
  /\ exists evs, trace (perform_all actions w) = evs ++ trace w
                 /\ Forall without_proxy evs.
Proof.
  revert w. induction actions as [|a rest IH]; intros w Hp.
  - split; [repeat split|]. exists []. split; [reflexivity|constructor].
  - destruct (perform_no_pool a w Hp) as ((H1 & H2 & H3 & H4) & evs1 & Htr1 & Hall1).
    assert (Hp1 : proxies (perform w a) = []) by (rewrite H1; exact Hp).
    destruct (IH (perform w a) Hp1) as ((G1 & G2 & G3 & G4) & evs2 & Htr2 & Hall2).
    change (perform_all (a :: rest) w) with (perform_all rest (perform w a)).
    split; [repeat split; etransitivity; eauto|].
    exists (evs2 ++ evs1). split; [rewrite Htr2, Htr1, app_assoc; reflexivity|].
    apply Forall_app. split; assumption.
Qed.

Section RouteProperties.
Context {lib : PyLib} {web : WebLib}.

Lemma search_images_route_actions (keyword : string) (max_results : Z) (w : World) :
  snd (Routes.search_images keyword max_results w)
  = snd (search_images keyword max_results w).
Proof.
  unfold Routes.search_images, try_except, bind.
  destruct (search_images keyword max_results w) as [[found|e] w1]; reflexivity.
Qed.

(** X20. [GET /search-images] never raises its [HTTPException]: whatever
    the outside answers it returns a response that repeats the keyword,
    whose [total_results] is the number of its results and at most
    [max_results], and whose engine is [None] exactly when there are no
    results. *)
Theorem search_images_route_reply (keyword : string) (max_results : Z) (w : World) :
  exists reply,
    fst (Routes.search_images keyword max_results w) = Ret (Routes.Returns reply)
    /\ Routes.keyword reply = keyword
    /\ Routes.total_results reply = Z.of_nat (length (Routes.results reply))
    /\ Routes.total_results reply <= Z.max 0 max_results
    /\ (Routes.search_engine reply = "None" <-> Routes.total_results reply = 0).
Proof.
  unfold Routes.search_images, try_except, search_images, bind.
  destruct (search_duckduckgo_length keyword max_results w) as (r1 & Hr1 & Hl1).
  destruct (search_duckduckgo_images keyword max_results w) as [x w1].
  simpl in Hr1. subst x.
  destruct r1 as [|r0 r1].
  - destruct (search_bing_length keyword max_results w1) as (r2 & Hr2 & Hl2).
    destruct (search_bing_images keyword max_results w1) as [x w2].
    simpl in Hr2. subst x.
    destruct r2 as [|r0 r2]; simpl.
    + eexists. split; [reflexivity|]. simpl. repeat split; auto; lia.
    + eexists. split; [reflexivity|]. simpl. simpl in Hl2.
      repeat split; auto; try lia; intros Hx; try discriminate Hx; lia.
  - simpl. eexists. split; [reflexivity|]. simpl. simpl in Hl1.
    repeat split; auto; try lia; intros Hx; try discriminate Hx; lia.
Qed.

Lemma reply_found_frame (keyword format : string) (index : Z) (search_engine : string)
    (selected : ImageResult) (data : option string) (w : World) :
  snd (Routes.reply_found keyword format index search_engine selected data w) = w
  /\ match fst (Routes.reply_found keyword format index search_engine selected data w) with
     | Ret (Routes.ImageResponse _ _ _ u) => u = Some (image selected)
     | Ret (Routes.StreamingResponse _ _ headers) =>
         ("X-Image-URL", image selected) ∈ headers
     | Raise _ => True
     end.
Proof.
  unfold Routes.reply_found.
  destruct (String.eqb (Py.lower format) "base64").
  - destruct data; simpl; auto.
  - destruct (urlparse_path (image selected)); simpl; [|auto].
    split; [reflexivity|].
    apply elem_of_cons. right. apply elem_of_cons. right. apply elem_of_cons. left.
    reflexivity.
Qed.

(** X21. [GET /search-and-fetch] with [index >= 0] searches for
    [index + 5] results and never lets an exception other than its
    [HTTPException] out.  When the search returns no result at [index],
    it raises status 404 without requesting anything more; otherwise it
    makes one call for the image URL of the result at [index], and either
    raises status 400 or 500 or returns a reply that names that URL. *)
Theorem search_and_fetch_outcome (keyword format : string) (index : Z) (w : World) :
  0 <= index ->
  exists results engine outcome,
    fst (search_images keyword (index + 5) w) = Ret (results, engine)
    /\ fst (Routes.search_and_fetch_image keyword format index w) = Ret outcome
    /\ match results !! Z.to_nat index with
       | None =>
           (exists detail, outcome = Routes.HTTPException 404 detail)
           /\ snd (Routes.search_and_fetch_image keyword format index w)
              = snd (search_images keyword (index + 5) w)
       | Some selected =>
           snd (Routes.search_and_fetch_image keyword format index w)
           = perform (snd (search_images keyword (index + 5) w))
                     (Request "GET" (image selected))
           /\ match outcome with
              | Routes.HTTPException http_status _ => http_status = 400 \/ http_status = 500
              | Routes.Returns (Routes.ImageResponse _ _ _ u) => u = Some (image selected)
              | Routes.Returns (Routes.StreamingResponse _ _ headers) =>
                  ("X-Image-URL", image selected) ∈ headers
              end
       end.
Proof.
  intros Hindex.
  unfold Routes.search_and_fetch_image, try_except, bind.
  destruct (search_images_returns keyword (index + 5) w) as (results & engine & Hfound).
  destruct (search_images keyword (index + 5) w) as [x w1].
  cbn [fst snd] in Hfound |- *. subst x. cbn [fst snd].
  exists results, engine.
  destruct results as [|r0 results'] eqn:Hresults.
  { eexists. split; [reflexivity|]. split; [reflexivity|].
    rewrite lookup_nil. cbn [ret fst snd]. split; [eauto|reflexivity]. }
  rewrite <- Hresults.
  destruct (index >=? Z.of_nat (length results)) eqn:Hge.
  { apply geb_true in Hge.
    eexists. split; [reflexivity|]. split; [reflexivity|].
    rewrite (lookup_ge_None_2 results (Z.to_nat index)) by lia.
    cbn [ret fst snd]. split; [eauto|reflexivity]. }
  apply geb_false in Hge.
  rewrite getitem_lookup by exact Hindex.
  destruct (lookup_lt_is_Some_2 results (Z.to_nat index) ltac:(lia)) as [selected Hsel].
  rewrite Hsel.
  pose proof (fetch_image_actions (image selected) w1) as Hact.
  destruct (fetch_image_from_url_returns (image selected) w1) as (data & error & Hfetch).
  destruct (fetch_image_from_url (image selected) w1) as [x w2].
  cbn [fst snd] in Hact, Hfetch |- *. subst x w2. cbn [fst snd].
  destruct (truthy_str error).
  { eexists. split; [reflexivity|]. split; [reflexivity|].
    cbn [ret fst snd]. split; [reflexivity|left; reflexivity]. }
  destruct (reply_found_frame keyword format index engine selected data
              (perform w1 (Request "GET" (image selected)))) as [Hw Hreply].
  destruct (Routes.reply_found keyword format index engine selected data
              (perform w1 (Request "GET" (image selected)))) as [[reply|e] w3];
    cbn [fst snd] in Hw, Hreply |- *; subst w3.
  - eexists. split; [reflexivity|]. split; [reflexivity|].
    cbn [ret fst snd]. split; [reflexivity|]. destruct reply; exact Hreply.
  - eexists. split; [reflexivity|]. split; [reflexivity|].
    cbn [ret fst snd]. split; [reflexivity|right; reflexivity].
Qed.

Lemma media_type_cases (filename : string) :
  Routes.media_type_of filename = "image/png"
  \/ Routes.media_type_of filename = "image/gif"
  \/ Routes.media_type_of filename = "image/webp"
  \/ Routes.media_type_of filename = "image/jpeg".
Proof.
  unfold Routes.media_type_of.
  repeat match goal with |- context [if ?b then _ else _] => destruct b end; auto.
Qed.

Lemma fetch_image_route_actions (image_url format : string) (w : World) :
  snd (Routes.fetch_image image_url format w) = perform w (Request "GET" image_url).
Proof.
  unfold Routes.fetch_image, bind.
  pose proof (fetch_image_actions image_url w) as Hact.
  destruct (fetch_image_from_url_returns image_url w) as (data & error & Hfetch).
  destruct (fetch_image_from_url image_url w) as [x w1].
  cbn [fst snd] in Hact, Hfetch |- *. subst x w1. cbn [fst snd].
  destruct (truthy_str error); [reflexivity|].
  destruct (String.eqb (Py.lower format) "base64").
  - destruct data; reflexivity.
  - destruct (urlparse_path image_url); reflexivity.
Qed.

(** X22. What [GET /fetch-image] relays is an image the outside served.
    An [ImageResponse] carries the encoding and the length of the body of
    a response whose [content-type] header starts with [image/]; the body
    of a [StreamingResponse] is such a body, or empty; the media type is
    one of four, and the file name of the [Content-Disposition] header
    has an extension.  The only [HTTPException] is status 400, with a
    detail that is not empty. *)
Theorem fetch_image_relays_images (image_url format : string) (w : World) :
  let served (bytes : string) :=
    exists r content_type,
      Answers r ∈ upstream w
      /\ header_content_type r = Some content_type
      /\ Py.startswith content_type "image/" = true
      /\ response_content r = Ret bytes in
  match fst (Routes.fetch_image image_url format w) with
  | Ret (Routes.Returns (Routes.ImageResponse image_data size source_url url)) =>
      exists bytes,
        served bytes /\ image_data = b64encode bytes
        /\ size = Z.of_nat (String.length bytes)
        /\ source_url = image_url /\ url = None
  | Ret (Routes.Returns (Routes.StreamingResponse body media_type headers)) =>
      (body = "" \/ served body)
      /\ (media_type = "image/png" \/ media_type = "image/gif"
          \/ media_type = "image/webp" \/ media_type = "image/jpeg")
      /\ exists extension,
           extension <> ""
           /\ headers = [("Content-Disposition", "inline; filename=image" +:+ extension)]
  | Ret (Routes.HTTPException http_status detail) => http_status = 400 /\ detail <> ""
  | Raise _ => True
  end.
Proof.
  cbv zeta. unfold Routes.fetch_image, bind.
  destruct (fetch_image_from_url_spec image_url w) as (data & error & Hfetch & Hdata).
  destruct (fetch_image_from_url image_url w) as [x w1].
  cbn [fst snd] in Hfetch |- *. subst x. cbn [fst snd].
  destruct (truthy_str error) eqn:Herror.
  { cbn [ret fst]. split; [reflexivity|].
    destruct error as [[|a msg]|]; try discriminate Herror.
    simpl. intros Hx; discriminate Hx. }
  assert (Hserved : forall bytes, data = Some bytes ->
            exists r content_type,
              Answers r ∈ upstream w
              /\ header_content_type r = Some content_type
              /\ Py.startswith content_type "image/" = true
              /\ response_content r = Ret bytes).
  { intros bytes ->. destruct Hdata as (_ & r & ct & Hin & _ & Hct & Hst & Hbody).
    exists r, ct. auto. }
  destruct (String.eqb (Py.lower format) "base64").
  - destruct data as [bytes|]; cbn [ret raise fst]; [|exact I].
    exists bytes. split; [apply Hserved; reflexivity|]. auto.
  - destruct (urlparse_path image_url) as [path|e]; cbn [ret raise fst]; [|exact I].
    split.
    + destruct data as [bytes|]; [right; apply Hserved; reflexivity|left; reflexivity].
    + split; [apply media_type_cases|].
      destruct (OsPath.splitext_ext (Py.lower (OsPath.basename path))) as [|a ext];
        cbn [Py.nonempty]; eexists; (split; [|reflexivity]); intros Hx; discriminate Hx.
Qed.

Lemma search_and_fetch_actions (keyword format : string) (index : Z) (w : World) :
  exists more,
    snd (Routes.search_and_fetch_image keyword format index w)
    = perform_all more (snd (search_images keyword (index + 5) w))
    /\ (more = [] \/ exists image_url, more = [Request "GET" image_url]).
Proof.
  unfold Routes.search_and_fetch_image, try_except, bind.
  destruct (search_images_returns keyword (index + 5) w) as (results & engine & Hfound).
  destruct (search_images keyword (index + 5) w) as [x w1].
  cbn [fst snd] in Hfound |- *. subst x. cbn [fst snd].
  destruct results as [|r0 results'] eqn:Hresults.
  { exists []. split; [reflexivity|left; reflexivity]. }
  rewrite <- Hresults.
  destruct (index >=? Z.of_nat (length results)).
  { exists []. split; [reflexivity|left; reflexivity]. }
  destruct (list_getitem results index) as [selected|].
  2:{ exists []. split; [reflexivity|left; reflexivity]. }
  pose proof (fetch_image_actions (image selected) w1) as Hact.
  destruct (fetch_image_from_url_returns (image selected) w1) as (data & error & Hfetch).
  destruct (fetch_image_from_url (image selected) w1) as [x w2].
  cbn [fst snd] in Hact, Hfetch |- *. subst x w2. cbn [fst snd].
  exists [Request "GET" (image selected)]. split; [|right; eauto].
  destruct (truthy_str error); [reflexivity|].
  destruct (reply_found_frame keyword format index engine selected data
              (perform w1 (Request "GET" (image selected)))) as [Hw _].
  destruct (Routes.reply_found keyword format index engine selected data
              (perform w1 (Request "GET" (image selected)))) as [[reply|e] w3];
    cbn [fst snd] in Hw |- *; subst w3; reflexivity.
Qed.

(** every call of the API acts on the state through calls of
    [_make_request], entries of the extractors and sleeps *)
Lemma call_actions (c : Call) (w : World) :
  exists actions, call w c = perform_all actions w.
Proof.
  destruct c as [keyword max_results|keyword format index|image_url format|]; simpl.
  - rewrite search_images_route_actions.
    destruct (search_images_actions keyword max_results w) as (pp & fb & Hw & _).
    eexists. exact Hw.
  - destruct (search_and_fetch_actions keyword format index w) as (more & Hw & _).
    destruct (search_images_actions keyword (index + 5) w) as (pp & fb & Hs & _).
    eexists. rewrite Hw, Hs, <- perform_all_app. reflexivity.
  - rewrite fetch_image_route_actions. exists [Request "GET" image_url]. reflexivity.
  - exists []. reflexivity.
Qed.

Lemma after_calls_actions (calls : list Call) (w : World) :
  exists actions, after_calls calls w = perform_all actions w.
Proof.
  revert w. induction calls as [|c calls IH]; intros w.
  - exists []. reflexivity.
  - destruct (call_actions c w) as (a1 & Ha1).
    destruct (IH (call w c)) as (a2 & Ha2).
    exists (a1 ++ a2). rewrite perform_all_app, <- Ha1. exact Ha2.
Qed.

(** X23. From the start of a process and after any sequence of calls of
    the API, [GET /health] changes nothing and reports [healthy] with
    the length of the list of endpoints, the size of the failed set and
    the counter of rate limits.  The number of failed endpoints is never
    above the number of loaded endpoints (every endpoint marked failed is
    in the list), and the counter is never negative. *)
Theorem health_check_figures (net : list NetOutcome) (feed : list FeedOutcome)
    (calls : list Call) :
  let w := after_calls calls (initial_world net feed) in
  let proxy_count := Z.of_nat (length (proxies w)) in
  let failed_count := Z.of_nat (size (failed_proxies w)) in
  Routes.health_check w
  = (Ret (Routes.mkHealthResponse
            "healthy" (health_message proxy_count failed_count (rate_limit_count w))), w)
  /\ 0 <= failed_count <= proxy_count
  /\ 0 <= rate_limit_count w
  /\ failed_are_loaded w.
Proof.
  cbv zeta.
  destruct (after_calls_actions calls (initial_world net feed)) as (actions & ->).
  pose proof (perform_all_loaded actions _ (initial_world_loaded net feed)) as Hloaded.
  pose proof (perform_all_healthy actions _ (initial_world_healthy net feed)) as [Hc _].
  set (w := perform_all actions (initial_world net feed)) in *.
  split; [reflexivity|].
  pose proof (failed_are_loaded_size w Hloaded).
  split; [lia|]. split; [exact Hc|exact Hloaded].
Qed.

(** X24. A process whose list of endpoints is empty never gets one: after
    any sequence of calls of the API the pool is as it was, the list is
    not downloaded again, and every request is sent without [proxies],
    however often the outside answers 429. *)
Theorem empty_pool_is_permanent (calls : list Call) (w : World) :
  proxies w = [] ->
  let w' := after_calls calls w in
  same_pool w w'
  /\ exists evs, trace w' = evs ++ trace w /\ Forall without_proxy evs.
Proof.
  intros Hp. cbv zeta.
  destruct (after_calls_actions calls w) as (actions & ->).
  apply perform_all_no_pool. exact Hp.
Qed.

End RouteProperties.

Lemma search_and_fetch_outcome_witness :
  0 <= 0
  /\ exists outcome,
       fst (Routes.search_and_fetch_image (lib := plain_lib) (web := plain_web)
              "grey cat" "binary" 0 image_world) = Ret outcome
       /\ match outcome with
          | Routes.HTTPException http_status _ => http_status = 400 \/ http_status = 500
          | Routes.Returns (Routes.ImageResponse _ _ _ u) =>
              u = Some "https://img.example/cat.png"
          | Routes.Returns (Routes.StreamingResponse _ _ headers) =>
              ("X-Image-URL", "https://img.example/cat.png") ∈ headers
          end.
Proof.
  split; [lia|].
  destruct (search_and_fetch_outcome (lib := plain_lib) (web := plain_web)
              "grey cat" "binary" 0 image_world ltac:(lia))
    as (results & engine & outcome & Hsearch & Hout & Hcases).
  exists outcome. split; [exact Hout|].
  vm_compute in Hsearch. injection Hsearch as <- <-.
  change (Z.to_nat 0) with 0%nat in Hcases. cbn [lookup list_lookup] in Hcases.
  destruct Hcases as [_ Hcases]. exact Hcases.
Defined.

Lemma empty_pool_is_permanent_witness :
  proxies throttled_without_pool = []
  /\ proxies (after_calls (lib := plain_lib) (web := plain_web)
                [SearchImages "cat" 3; FetchImage "https://img.example/cat.png" "base64";
                 HealthCheck]
                throttled_without_pool) = [].
Proof.
  split; [reflexivity|].
  destruct (empty_pool_is_permanent
              (lib := plain_lib) (web := plain_web)
              [SearchImages "cat" 3; FetchImage "https://img.example/cat.png" "base64";
               HealthCheck]
              throttled_without_pool eq_refl) as ((Hp & _) & _).
  exact Hp.
Defined.

(** ** _extract_vqd *)








Section ExtractVqdProperties.
Context {hashlib : Hashlib}.


End ExtractVqdProperties.
